(** * warehousegame: the grid engine of [ww.py] and the board setup of [wwgame.py]

    A shallow embedding of the movement-delegation protocol (the [move]
    methods), the hostile step state machine ([step], [delay], [is_dead],
    [is_stuck]), the stage bookkeeping ([add_actor], [remove_actor],
    [clear]) and [setup], followed by the properties of the specification
    that are stated over them.

    Python objects are references into a heap of [Actor] records, so that
    the lists [_actors] and [_monsters] of the stage alias the same
    objects, as they do in the source. *)

From Stdlib Require Import ZArith Bool Lia.
From stdpp Require Import base tactics option numbers list gmap.

Local Open Scope Z_scope.

(** ** Classes *)

(** The concrete classes the game instantiates.  [Actor] and [Player] are
    only ever used as base classes; every object is an [Actor], and
    [KeyboardPlayer] is the only [Player]. *)
Inductive Kind : Type :=
  | KeyboardPlayer | Box | StickyBox | Wall
  | Monster | FreeMonster | BoxMonster | Boss | Ripper.

#[global] Instance Kind_eq_dec : EqDecision Kind.
Proof. solve_decision. Defined.

(** The class itself followed by its base classes (below [Player] and
    [Actor]), as declared by the [class C(B)] headers. *)
Definition mro (k : Kind) : list Kind :=
  match k with
  | KeyboardPlayer => [KeyboardPlayer]
  | Box => [Box]
  | StickyBox => [StickyBox; Box]
  | Wall => [Wall]
  | Monster => [Monster]
  | FreeMonster => [FreeMonster; Monster]
  | BoxMonster => [BoxMonster; FreeMonster; Monster]
  | Boss => [Boss; BoxMonster; FreeMonster; Monster]
  | Ripper => [Ripper; FreeMonster; Monster]
  end.

Definition isinstance (k c : Kind) : bool := bool_decide (c ∈ mro k).

(** ** Objects and the world *)

Definition ref := nat.

(** The keys [KeyboardPlayer.step] looks at. *)
Inductive Key : Type :=
  | K_RIGHT | K_DOWN | K_UP | K_LEFT | K_t | K_x | K_s | K_m | K_other.

#[global] Instance Key_eq_dec : EqDecision Key.
Proof. solve_decision. Defined.

(** The attributes of an object.  [_dx], [_dy] are set by
    [Monster.__init__], [dead] and [_last_event] by
    [KeyboardPlayer.__init__]; the icon is presentation and is left out. *)
Record Actor : Type := mkActor {
  kind : Kind;
  _x : Z;
  _y : Z;
  _delay : Z;
  _delay_count : Z;
  _dx : Z;
  _dy : Z;
  dead : bool;
  _last_event : option Key
}.

#[global] Instance Actor_inhabited : Inhabited Actor :=
  populate (mkActor Wall 0 0 5 0 0 0 false None).

(** The heap, the attributes of the single [Stage] object [ww], and the
    two sources of input: the pressed keys and the values drawn by the
    [random] module ([rand_pos] counts the draws made so far). *)
Record World : Type := mkWorld {
  objs : gmap ref Actor;
  next_ref : ref;
  _actors : list ref;
  _monsters : list ref;
  _player : option ref;
  _width : Z;
  _height : Z;
  exit : bool;
  restart : bool;
  start : bool;
  keys : Key -> bool;
  rand : nat -> Z;
  rand_pos : nat
}.

Definition obj (w : World) (a : ref) : Actor := objs w !!! a.

Definition kind_of (w : World) (a : ref) : Kind := kind (obj w a).

Definition set_obj (w : World) (a : ref) (o : Actor) : World :=
  mkWorld (<[a := o]> (objs w)) (next_ref w) (_actors w) (_monsters w)
    (_player w) (_width w) (_height w) (exit w) (restart w) (start w)
    (keys w) (rand w) (rand_pos w).

Definition set_actors (w : World) (l : list ref) : World :=
  mkWorld (objs w) (next_ref w) l (_monsters w)
    (_player w) (_width w) (_height w) (exit w) (restart w) (start w)
    (keys w) (rand w) (rand_pos w).

Definition set_monsters (w : World) (l : list ref) : World :=
  mkWorld (objs w) (next_ref w) (_actors w) l
    (_player w) (_width w) (_height w) (exit w) (restart w) (start w)
    (keys w) (rand w) (rand_pos w).

Definition set_player_field (w : World) (p : option ref) : World :=
  mkWorld (objs w) (next_ref w) (_actors w) (_monsters w)
    p (_width w) (_height w) (exit w) (restart w) (start w)
    (keys w) (rand w) (rand_pos w).

Definition set_flags (w : World) (e r s : bool) : World :=
  mkWorld (objs w) (next_ref w) (_actors w) (_monsters w)
    (_player w) (_width w) (_height w) e r s
    (keys w) (rand w) (rand_pos w).

(** ** Results: a value, a Python exception, or recursion cut off *)

Inductive Exn : Type := ValueError | ZeroDivisionError.

Inductive result (A : Type) : Type :=
  | Ok (a : A)
  | Raise (e : Exn)
  | OutOfFuel.
Arguments Ok {A} a.
Arguments Raise {A} e.
Arguments OutOfFuel {A}.

#[global] Instance result_ret : MRet result := fun A a => Ok a.
#[global] Instance result_bind : MBind result := fun A B f m =>
  match m with
  | Ok a => f a
  | Raise e => Raise e
  | OutOfFuel => OutOfFuel
  end.

(** ** The [random] module *)

(** One raw draw; the callers reduce it to the range they ask for. *)
Definition draw (w : World) : Z * World :=
  (rand w (rand_pos w),
   mkWorld (objs w) (next_ref w) (_actors w) (_monsters w)
     (_player w) (_width w) (_height w) (exit w) (restart w) (start w)
     (keys w) (rand w) (S (rand_pos w))).

(** [random.choice([-1, 0, 1])] *)
Definition random_choice (w : World) : Z * World :=
  let '(r, w') := draw w in (r `mod` 3 - 1, w').

(** [random.randrange(n)]: raises [ValueError] on an empty range. *)
Definition random_randrange (w : World) (n : Z) : result (Z * World) :=
  if n <=? 0 then Raise ValueError
  else let '(r, w') := draw w in Ok (r `mod` n, w').

(** [random.randint(a, b)], both ends included. *)
Definition random_randint (w : World) (a b : Z) : result (Z * World) :=
  if b <? a then Raise ValueError
  else let '(r, w') := draw w in Ok (a + r `mod` (b - a + 1), w').

(** ** [Actor]: position, throttle, the base [move] and [step] *)

Definition set_position (w : World) (a : ref) (x y : Z) : World :=
  let o := obj w a in
  set_obj w a (mkActor (kind o) x y (_delay o) (_delay_count o)
                 (_dx o) (_dy o) (dead o) (_last_event o)).

Definition get_position (w : World) (a : ref) : Z * Z :=
  (_x (obj w a), _y (obj w a)).

Definition set_delay_count (w : World) (a : ref) (c : Z) : World :=
  let o := obj w a in
  set_obj w a (mkActor (kind o) (_x o) (_y o) (_delay o) c
                 (_dx o) (_dy o) (dead o) (_last_event o)).

Definition set_dx (w : World) (a : ref) (d : Z) : World :=
  let o := obj w a in
  set_obj w a (mkActor (kind o) (_x o) (_y o) (_delay o) (_delay_count o)
                 d (_dy o) (dead o) (_last_event o)).

Definition set_dy (w : World) (a : ref) (d : Z) : World :=
  let o := obj w a in
  set_obj w a (mkActor (kind o) (_x o) (_y o) (_delay o) (_delay_count o)
                 (_dx o) d (dead o) (_last_event o)).

Definition set_dead (w : World) (a : ref) (b : bool) : World :=
  let o := obj w a in
  set_obj w a (mkActor (kind o) (_x o) (_y o) (_delay o) (_delay_count o)
                 (_dx o) (_dy o) b (_last_event o)).

Definition set_last_event (w : World) (a : ref) (e : option Key) : World :=
  let o := obj w a in
  set_obj w a (mkActor (kind o) (_x o) (_y o) (_delay o) (_delay_count o)
                 (_dx o) (_dy o) (dead o) e).

(** [Actor.move]: "In this case, we just move." *)
Definition Actor_move (w : World) (self other : ref) (dx dy : Z)
  : bool * World :=
  (true, set_position w self (_x (obj w self) + dx) (_y (obj w self) + dy)).

(** [Actor.delay]: advance the counter modulo the period and tell whether
    it wrapped.  Python's [%] on integers is the floored [Z.modulo]; a
    zero period raises. *)
Definition delay (w : World) (self : ref) : result (bool * World) :=
  let o := obj w self in
  if _delay o =? 0 then Raise ZeroDivisionError
  else
    let c := (_delay_count o + 1) `mod` _delay o in
    Ok (c =? 0, set_delay_count w self c).

(** [Actor.step]: [pass]. *)
Definition Actor_step (w : World) (self : ref)
  : result (option bool * World) :=
  Ok (None, w).

(** ** [Stage]: bounds, lookup, membership *)

Definition is_in_bounds_x (w : World) (x : Z) : bool :=
  (0 <=? x) && (x <? _width w).

Definition is_in_bounds_y (w : World) (y : Z) : bool :=
  (0 <=? y) && (y <? _height w).

Definition is_in_bounds (w : World) (x y : Z) : bool :=
  is_in_bounds_x w x && is_in_bounds_y w y.

Definition at_position (w : World) (x y : Z) (a : ref) : bool :=
  (_x (obj w a) =? x) && (_y (obj w a) =? y).

(** [Stage.get_actor]: the first actor of [_actors] at [(x, y)]. *)
Definition get_actor (w : World) (x y : Z) : option ref :=
  find (at_position w x y) (_actors w).

(** [list.remove(a)]: drop the first occurrence; [None] stands for the
    [ValueError] raised when there is none. *)
Fixpoint list_remove (a : ref) (l : list ref) : option (list ref) :=
  match l with
  | [] => None
  | b :: l' =>
      if decide (b = a) then Some l'
      else match list_remove a l' with
           | Some r => Some (b :: r)
           | None => None
           end
  end.

Definition add_actor (w : World) (actor : ref) : World :=
  if isinstance (kind_of w actor) Monster then
    let w1 := set_monsters w (_monsters w ++ [actor]) in
    set_actors w1 (_actors w1 ++ [actor])
  else set_actors w (_actors w ++ [actor]).

Definition remove_actor (w : World) (actor : ref) : result World :=
  if isinstance (kind_of w actor) Monster then
    match list_remove actor (_monsters w) with
    | None => Raise ValueError
    | Some ms =>
        let w1 := set_monsters w ms in
        match list_remove actor (_actors w1) with
        | None => Raise ValueError
        | Some l => Ok (set_actors w1 l)
        end
    end
  else
    match list_remove actor (_actors w) with
    | None => Raise ValueError
    | Some l => Ok (set_actors w l)
    end.

(** [Stage.clear]: [self._actors.clear()]. *)
Definition clear (w : World) : World := set_actors w [].

Definition set_player (w : World) (player : ref) : World :=
  add_actor (set_player_field w (Some player)) player.

Definition get_width (w : World) : Z := _width w.
Definition get_height (w : World) : Z := _height w.

(** A [for a in self._actors] loop whose body may change the list: the
    iterator holds an index into the live list and stops when the index
    runs past its end. *)
Fixpoint for_actors (body : World -> ref -> result World)
    (fuel : nat) (i : nat) (w : World) : result World :=
  match fuel with
  | O => OutOfFuel
  | S fuel' =>
      match _actors w !! i with
      | None => Ok w
      | Some a => w' ← body w a; for_actors body fuel' (S i) w'
      end
  end.

(** ** [Monster]: the two checks on the neighbourhood *)

(** The body of the loop of [Monster.is_dead]: return [False] at the
    first neighbour that is in bounds and holds nothing or the player. *)
Fixpoint is_dead_loop (w : World) (surrounding_pos : list (Z * Z)) : bool :=
  match surrounding_pos with
  | [] => true
  | position :: rest =>
      if (match get_actor w position.1 position.2 with
          | None => true
          | Some a => isinstance (kind_of w a) KeyboardPlayer
          end) && is_in_bounds w position.1 position.2
      then false
      else is_dead_loop w rest
  end.

Definition dead_moves : list (Z * Z) :=
  [(1,0); (-1,0); (0,1); (0,-1); (1,1); (-1,1); (1,-1); (-1,-1)].

Definition Monster_is_dead (w : World) (self : ref) : bool :=
  let surrounding_pos :=
    map (fun m : Z * Z =>
           ((get_position w self).1 + m.1, (get_position w self).2 + m.2))
        dead_moves in
  is_dead_loop w surrounding_pos.

Fixpoint is_stuck_loop (w : World) (self : ref)
    (surrounding_pos : list (Z * Z)) : bool :=
  match surrounding_pos with
  | [] => false
  | position :: rest =>
      if (match get_actor w position.1 position.2 with
          | None => false
          | Some a => isinstance (kind_of w a) StickyBox
          end) && negb (isinstance (kind_of w self) Boss)
      then true
      else is_stuck_loop w self rest
  end.

Definition stuck_moves : list (Z * Z) := [(1,0); (-1,0); (0,1); (0,-1)].

Definition Monster_is_stuck (w : World) (self : ref) : bool :=
  let surrounding_pos :=
    map (fun m : Z * Z =>
           ((get_position w self).1 + m.1, (get_position w self).2 + m.2))
        stuck_moves in
  is_stuck_loop w self surrounding_pos.

(** ** The [move] methods *)

(** Method calls are dispatched on the class of the receiver; a method
    that calls [x.move(...)] or [self.step()] takes the dispatcher as an
    argument, and the knot is tied by [move] and [step] below. *)
Definition move_fn : Type :=
  World -> ref -> ref -> Z -> Z -> result (bool * World).
Definition step_fn : Type :=
  World -> ref -> result (option bool * World).

(** [KeyboardPlayer.move].  The three [if] statements under the bounds
    check are separate statements: the third is reached whenever the
    first two did not return. *)
Definition KeyboardPlayer_move (call_move : move_fn)
    (w : World) (self other : ref) (dx dy : Z) : result (bool * World) :=
  let new_x := _x (obj w self) + dx in
  let new_y := _y (obj w self) + dy in
  if is_in_bounds w new_x new_y then
    match get_actor w new_x new_y with
    | None => Ok (Actor_move w self other dx dy)
    | Some occupant =>
        r ← (if negb (isinstance (kind_of w occupant) Wall) then
               '(_, w1) ← call_move w occupant self dx dy;
               match get_actor w1 new_x new_y with
               | None => Ok (inl (Actor_move w1 self other dx dy))
               | Some _ => Ok (inr w1)
               end
             else Ok (inr w));
        match r with
        | inl res => Ok res
        | inr w1 =>
            match get_actor w1 new_x new_y with
            | Some a =>
                if isinstance (kind_of w1 a) Monster
                then Ok (true, set_dead w1 self true)
                else Ok (false, w1)
            | None => Ok (false, w1)
            end
        end
    end
  else Ok (false, w).

(** [Box.move], inherited by [StickyBox].  After a successful push the
    box moves but the method still falls through to [return False]. *)
Definition Box_move (call_move : move_fn)
    (w : World) (self other : ref) (dx dy : Z) : result (bool * World) :=
  let new_x := _x (obj w self) + dx in
  let new_y := _y (obj w self) + dy in
  if is_in_bounds w new_x new_y then
    match get_actor w new_x new_y with
    | None => Ok (Actor_move w self other dx dy)
    | Some occupant =>
        if negb (isinstance (kind_of w occupant) Wall) then
          '(_, w1) ← call_move w occupant self dx dy;
          match get_actor w1 new_x new_y with
          | None => Ok (false, (Actor_move w1 self other dx dy).2)
          | Some _ => Ok (false, w1)
          end
        else Ok (false, w)
    end
  else Ok (false, w).

(** [Monster.move].  The target is computed from the stored heading
    [(_dx, _dy)]; the arguments [dx], [dy] are used by the final
    [Actor.move] only. *)
Definition Monster_move
    (w : World) (self other : ref) (dx dy : Z) : result (bool * World) :=
  if negb (bool_decide (other = self)) then Ok (false, w)
  else
    let new_x := _x (obj w self) + _dx (obj w self) in
    let new_y := _y (obj w self) + _dy (obj w self) in
    let actor := get_actor w new_x new_y in
    let '(w1, bounce1) :=
      if negb (is_in_bounds_x w new_x)
      then (set_dx w self (- _dx (obj w self)), true)
      else (w, false) in
    let '(w2, bounce_off_edge) :=
      if negb (is_in_bounds_y w1 new_y)
      then (set_dy w1 self (- _dy (obj w1 self)), true)
      else (w1, bounce1) in
    match actor with
    | Some a =>
        let w3 := set_dx w2 self (- _dx (obj w2 self)) in
        let w4 := set_dy w3 self (- _dy (obj w3 self)) in
        if negb (isinstance (kind_of w2 a) KeyboardPlayer)
        then Ok (true, w4)
        else Ok (true, set_dead w4 a true)
    | None =>
        if bounce_off_edge then Ok (false, w2)
        else Ok (Actor_move w2 self other dx dy)
    end.

(** [FreeMonster.move], inherited by [BoxMonster] and [Boss]. *)
Definition FreeMonster_move (call_step : step_fn)
    (w : World) (self other : ref) (dx dy : Z) : result (bool * World) :=
  if negb (bool_decide (other = self)) then Ok (false, w)
  else
    let new_x := _x (obj w self) + dx in
    let new_y := _y (obj w self) + dy in
    let actor := get_actor w new_x new_y in
    if negb (is_in_bounds w new_x new_y) then
      '(_, w1) ← call_step w self; Ok (true, w1)
    else
      match actor with
      | Some a =>
          if negb (isinstance (kind_of w a) KeyboardPlayer) then
            '(_, w1) ← call_step w self; Ok (true, w1)
          else Ok (true, set_dead w a true)
      | None => Ok (Actor_move w self other dx dy)
      end.

(** [Ripper.move]: the class repeats the body of [FreeMonster.move]. *)
Definition Ripper_move (call_step : step_fn)
    (w : World) (self other : ref) (dx dy : Z) : result (bool * World) :=
  if negb (bool_decide (other = self)) then Ok (false, w)
  else
    let new_x := _x (obj w self) + dx in
    let new_y := _y (obj w self) + dy in
    let actor := get_actor w new_x new_y in
    if negb (is_in_bounds w new_x new_y) then
      '(_, w1) ← call_step w self; Ok (true, w1)
    else
      match actor with
      | Some a =>
          if negb (isinstance (kind_of w a) KeyboardPlayer) then
            '(_, w1) ← call_step w self; Ok (true, w1)
          else Ok (true, set_dead w a true)
      | None => Ok (Actor_move w self other dx dy)
      end.

(** ** The [step] methods *)

(** The value a [step] returns is [None] or [True]. *)

(** [Monster.step].  [time.sleep] and [monster_died] only draw. *)
Definition Monster_step (call_move : move_fn)
    (w : World) (self : ref) : result (option bool * World) :=
  if negb (Monster_is_dead w self) && negb (Monster_is_stuck w self) then
    '(wrapped, w1) ← delay w self;
    if negb wrapped then Ok (None, w1)
    else
      '(_, w2) ← call_move w1 self self (_dx (obj w1 self)) (_dy (obj w1 self));
      Ok (Some true, w2)
  else if Monster_is_stuck w self && negb (Monster_is_dead w self) then
    Ok (Some true, w)
  else
    w1 ← remove_actor w self;
    Ok (Some true, w1).

(** [FreeMonster.step], inherited by [BoxMonster] and [Boss]; the two
    calls of [random.choice] are evaluated left to right. *)
Definition FreeMonster_step (call_move : move_fn)
    (w : World) (self : ref) : result (option bool * World) :=
  if negb (Monster_is_dead w self) && negb (Monster_is_stuck w self) then
    '(wrapped, w1) ← delay w self;
    if negb wrapped then Ok (None, w1)
    else
      let '(dx, w2) := random_choice w1 in
      let '(dy, w3) := random_choice w2 in
      '(_, w4) ← call_move w3 self self dx dy;
      Ok (Some true, w4)
  else if Monster_is_stuck w self && negb (Monster_is_dead w self) then
    Ok (Some true, w)
  else
    w1 ← remove_actor w self;
    Ok (None, w1).

(** The body of the loop that ends [Ripper.step]. *)
Definition remove_if_sticky (w : World) (actor : ref) : result World :=
  if isinstance (kind_of w actor) StickyBox then remove_actor w actor
  else Ok w.

(** [Ripper.step].  The closing [for actor in self._stage._actors] loop
    removes from the list it iterates over; every round advances the
    index, so the length of the list bounds the number of rounds. *)
Definition Ripper_step (call_move : move_fn)
    (w : World) (self : ref) : result (option bool * World) :=
  if negb (Monster_is_dead w self) && negb (Monster_is_stuck w self) then
    '(wrapped, w1) ← delay w self;
    if negb wrapped then Ok (None, w1)
    else
      let '(dx, w2) := random_choice w1 in
      let '(dy, w3) := random_choice w2 in
      '(_, w4) ← call_move w3 self self dx dy;
      Ok (Some true, w4)
  else if Monster_is_stuck w self && negb (Monster_is_dead w self) then
    Ok (Some true, w)
  else
    w1 ← remove_actor w self;
    w2 ← for_actors remove_if_sticky (S (length (_actors w1))) 0 w1;
    Ok (None, w2).

(** The direction chosen by [KeyboardPlayer.step]: the arrow of the last
    event, overridden by a pair of arrows held down together. *)
Definition intent (k : Key) (keys : Key -> bool) : option (Z * Z) :=
  let d := if decide (k = K_RIGHT) then Some (1, 0) else None in
  let d := if decide (k = K_DOWN) then Some (0, 1) else d in
  let d := if decide (k = K_UP) then Some (0, -1) else d in
  let d := if decide (k = K_LEFT) then Some (-1, 0) else d in
  let d := if keys K_RIGHT && keys K_DOWN then Some (1, 1) else d in
  let d := if keys K_UP && keys K_RIGHT then Some (1, -1) else d in
  let d := if keys K_LEFT && keys K_DOWN then Some (-1, 1) else d in
  let d := if keys K_LEFT && keys K_UP then Some (-1, -1) else d in
  d.

(** [KeyboardPlayer.step] *)
Definition KeyboardPlayer_step (call_move : move_fn)
    (w : World) (self : ref) : result (option bool * World) :=
  match _last_event (obj w self) with
  | None => Ok (None, w)
  | Some k =>
      let w1 := if decide (k = K_t) then set_flags w (exit w) true (start w)
                else w in
      let w2 := if decide (k = K_x) then set_flags w1 true (restart w1) (start w1)
                else w1 in
      let w3 := if decide (k = K_s) then set_flags w2 (exit w2) (restart w2) true
                else w2 in
      let w4 := if decide (k = K_m) then set_flags w3 (exit w3) true false
                else w3 in
      w5 ← match intent k (keys w) with
           | Some (dx, dy) => '(_, w') ← call_move w4 self self dx dy; Ok w'
           | None => Ok w4
           end;
      Ok (None, set_last_event w5 self None)
  end.

(** ** Dynamic dispatch *)

Fixpoint move (fuel : nat) (w : World) (self other : ref) (dx dy : Z)
    {struct fuel} : result (bool * World) :=
  match fuel with
  | O => OutOfFuel
  | S n =>
      match kind_of w self with
      | KeyboardPlayer => KeyboardPlayer_move (move n) w self other dx dy
      | Box | StickyBox => Box_move (move n) w self other dx dy
      | Wall => Ok (Actor_move w self other dx dy)
      | Monster => Monster_move w self other dx dy
      | FreeMonster | BoxMonster | Boss =>
          FreeMonster_move (step n) w self other dx dy
      | Ripper => Ripper_move (step n) w self other dx dy
      end
  end
with step (fuel : nat) (w : World) (self : ref)
    {struct fuel} : result (option bool * World) :=
  match fuel with
  | O => OutOfFuel
  | S n =>
      match kind_of w self with
      | KeyboardPlayer => KeyboardPlayer_step (move n) w self
      | Box | StickyBox | Wall => Actor_step w self
      | Monster => Monster_step (move n) w self
      | FreeMonster | BoxMonster | Boss => FreeMonster_step (move n) w self
      | Ripper => Ripper_step (move n) w self
      end
  end.

(** [Stage.step]: [for a in self._actors: a.step()]. *)
Definition Stage_step (fuel : nat) (w : World) : result World :=
  for_actors (fun w a => '(_, w') ← step fuel w a; Ok w')
    (S (length (_actors w))) 0 w.

(** ** Construction and [setup] ([wwgame.py]) *)

(** [Actor.__init__] followed by the subclass constructors: a fresh
    object at [(x, y)] with the given period and a zero counter;
    [Monster.__init__] sets the heading to [(1, 1)]. *)
Definition new_actor (w : World) (k : Kind) (x y delay : Z) : ref * World :=
  let r := next_ref w in
  let h := if isinstance k Monster then 1 else 0 in
  (r, mkWorld (<[r := mkActor k x y delay 0 h h false None]> (objs w))
        (S r) (_actors w) (_monsters w)
        (_player w) (_width w) (_height w) (exit w) (restart w) (start w)
        (keys w) (rand w) (rand_pos w)).

(** [ww = Stage(20, 20, 24)] *)
Definition ww (keys : Key -> bool) (rand : nat -> Z) : World :=
  mkWorld ∅ 0%nat [] [] None 20 20 false false false keys rand 0%nat.

(** [ww.add_actor(C(icon, ww, x, y, delay))] *)
Definition add_new (w : World) (k : Kind) (x y delay : Z) : World :=
  let '(a, w1) := new_actor w k x y delay in add_actor w1 a.

(** Draw a cell and, if [get_actor] finds nothing there, add a new
    object of class [k]; tells whether one was added. *)
Definition place (w : World) (k : Kind) (delay : Z) : result (bool * World) :=
  '(x, w1) ← random_randrange w (get_width w);
  '(y, w2) ← random_randrange w1 (get_height w1);
  match get_actor w2 x y with
  | None => Ok (true, add_new w2 k x y delay)
  | Some _ => Ok (false, w2)
  end.

(** [for _ in range(n)] around [place]. *)
Fixpoint place_times (n : nat) (w : World) (k : Kind) (delay : Z)
  : result World :=
  match n with
  | O => Ok w
  | S n' => '(_, w1) ← place w k delay; place_times n' w1 k delay
  end.

(** [while num_boxes < 100] *)
Fixpoint place_boxes (fuel : nat) (num_boxes : Z) (w : World) : result World :=
  match fuel with
  | O => OutOfFuel
  | S fuel' =>
      if num_boxes <? 100 then
        '(placed, w1) ← place w Box 5;
        place_boxes fuel' (if placed : bool then num_boxes + 1 else num_boxes) w1
      else Ok w
  end.

Definition setup (fuel : nat) (w : World) : result World :=
  let '(p, w) := new_actor w KeyboardPlayer 0 0 5 in
  let w := set_player w p in
  let w := add_new w Monster 7 4 5 in
  let w := add_new w Monster 4 10 3 in
  let w := add_new w Monster 5 20 2 in
  '(n, w) ← random_randint w 1 2;
  w ← place_times (Z.to_nat n) w FreeMonster 5;
  '(n, w) ← random_randint w 1 2;
  w ← place_times (Z.to_nat n) w BoxMonster 5;
  '(_, w) ← place w Boss 2;
  w ← place_times 3 w Ripper 8;
  w ← place_times 25 w Wall 5;
  w ← place_times 5 w StickyBox 5;
  place_boxes fuel 0 w.

(** [main], on restart: [ww._monsters.clear(); ww._actors.clear()]. *)
Definition main_restart_clear (w : World) : World :=
  set_actors (set_monsters w []) [].

(** ** Small boards for running the code *)

Definition board (width height : Z) : World :=
  mkWorld ∅ 0%nat [] [] None width height false false false
    (fun _ => false) (fun _ => 0) 0%nat.

(** * The vocabulary of the properties

    The predicates the statements below are written with, the readings
    of the specification that are refuted, and the boards on which the
    code is run. *)

(** A cell lets a hostile escape when it is in bounds and [get_actor]
    finds nothing or the player there. *)
Definition escape (w : World) (x y : Z) : Prop :=
  is_in_bounds w x y = true /\
  (get_actor w x y = None \/
   exists a, get_actor w x y = Some a /\ kind_of w a = KeyboardPlayer).

(** A cell is held when an entity other than the player is found there. *)
Definition held_by_other (w : World) (x y : Z) : Prop :=
  exists a, get_actor w x y = Some a /\ kind_of w a ≠ KeyboardPlayer.

(** The eight neighbours of a cell, as displacements. *)
Definition neighbour (dx dy : Z) : Prop :=
  -1 <= dx <= 1 /\ -1 <= dy <= 1 /\ (dx, dy) ≠ (0, 0).

(** A 3 x 3 board with a patrol at (0, 0), heading (1, 1), and a box at
    (0, 1): the cell in front of the heading, (1, 1), is free. *)
Definition board_patrol_box : World :=
  add_new (add_new (board 3 3) Monster 0 0 5) Box 0 1 5.

(** The reading of C6 that the code does not meet: a patrol whose
    target is out of bounds on exactly one axis, with nothing found at
    the target, has moved once its self-initiated [move] returns. *)
Definition bounce_keeps_moving (w : World) (self : ref) : Prop :=
  let new_x := _x (obj w self) + _dx (obj w self) in
  let new_y := _y (obj w self) + _dy (obj w self) in
  kind_of w self = Monster ->
  get_actor w new_x new_y = None ->
  xorb (is_in_bounds_x w new_x) (is_in_bounds_y w new_y) = true ->
  forall r w',
    move 1 w self self (_dx (obj w self)) (_dy (obj w self)) = Ok (r, w') ->
    get_position w' self ≠ get_position w self.

(** A 3 x 3 board with a single patrol at (2, 1), heading (1, 1): its
    target (3, 2) is out of bounds on the x axis only. *)
Definition board_patrol_edge : World := add_new (board 3 3) Monster 2 1 5.

(** A 3 x 3 board: the player at (0, 0), a ripper at (1, 0). *)
Definition board_player_ripper : World :=
  add_new (add_new (board 3 3) KeyboardPlayer 0 0 5) Ripper 1 0 8.

(** The reading of C3 that the code does not meet: whenever the lookup
    finds a hostile on the cell the player is asked to step into, a
    call that returns has returned [True] with the player's [dead] flag
    set. *)
Definition walking_into_hostile_kills
    (w : World) (self : ref) (dx dy : Z) : Prop :=
  forall h,
    kind_of w self = KeyboardPlayer ->
    get_actor w (_x (obj w self) + dx) (_y (obj w self) + dy) = Some h ->
    isinstance (kind_of w h) Monster = true ->
    forall fuel r w',
      move fuel w self self dx dy = Ok (r, w') ->
      r = true /\ dead (obj w' self) = true.

(** The 20 x 20 stage with the player at (5, 19) and, below it, the
    patrol that [setup] puts at (5, 20): the cell under the player is
    out of bounds and holds a hostile. *)
Definition board_player_stray_patrol : World :=
  add_new (add_new (board 20 20) KeyboardPlayer 5 19 5) Monster 5 20 2.

(** [_monsters] lists exactly the members of [_actors] that are
    instances of [Monster], in the same order. *)
Definition hostile_subset_exact (w : World) : Prop :=
  _monsters w =
  filter (fun a => isinstance (kind_of w a) Monster = true) (_actors w).

(** A 2 x 2 board: a ripper in the corner (0, 0) walled in by two
    sticky boxes at (1, 0) and (0, 1) and a box at (1, 1); the two
    sticky boxes are next to each other in [_actors]. *)
Definition board_ripper_walled : World :=
  add_new (add_new (add_new (add_new (board 2 2)
    Ripper 0 0 8) StickyBox 1 0 5) StickyBox 0 1 5) Box 1 1 5.

(** What the opening statements of [setup] establish and the rest of it
    keeps: on the 20 x 20 stage the third patrol, object 3, is listed at
    (5, 20). *)
Definition third_patrol_kept (w : World) : Prop :=
  (3 < next_ref w)%nat /\
  3%nat ∈ _actors w /\
  kind_of w 3%nat = Monster /\
  get_position w 3%nat = (5, 20) /\
  _width w = 20 /\ _height w = 20.

(** Whether a computation returned a value. *)
Definition returns {A} (r : result A) : bool :=
  match r with Ok _ => true | _ => false end.

(** A source of draws and a keyboard with no key down, for running
    [setup]. *)
Definition sample_rand (n : nat) : Z :=
  (Z.of_nat n * Z.of_nat n * 2654435761 + Z.of_nat n * 97) `div` 65536.

Definition no_keys (k : Key) : bool := false.

(** The reading of C7 that the code does not meet: on a call where the
    counter would not wrap to zero, a hostile is still on the stage,
    where it was, when [step] returns. *)
Definition throttle_gates_step (w : World) (self : ref) : Prop :=
  isinstance (kind_of w self) Monster = true ->
  _delay (obj w self) ≠ 0 ->
  (_delay_count (obj w self) + 1) `mod` _delay (obj w self) ≠ 0 ->
  forall r w',
    step 1 w self = Ok (r, w') ->
    self ∈ _actors w' /\ get_position w' self = get_position w self.

(** A 2 x 2 board: a patrol of period 5, counter 0, in the corner
    (0, 0), walled in by three boxes. *)
Definition board_patrol_walled : World :=
  add_new (add_new (add_new (add_new (board 2 2)
    Monster 0 0 5) Box 1 0 5) Box 0 1 5) Box 1 1 5.

(** No two listed entities stand on the same cell. *)
Definition single_occupancy (w : World) : Prop :=
  forall a b, a ∈ _actors w -> b ∈ _actors w ->
    get_position w a = get_position w b -> a = b.

(** The lookup finds every listed entity at its own recorded position. *)
Definition lookup_consistent (w : World) : Prop :=
  Forall (fun a => get_actor w (_x (obj w a)) (_y (obj w a)) = Some a)
         (_actors w).

(** The player and the boxes push what is in front of them. *)
Definition is_pusher (k : Kind) : bool :=
  isinstance k KeyboardPlayer || isinstance k Box.

(** [Wall] inherits [Actor.move], which relocates without looking, and
    is never asked to move: both callers test [isinstance(..., Wall)]
    first.  A patrol asks itself to move from [Monster.step] only, with
    its own heading as arguments. *)
Definition program_call (w : World) (self other : ref) (dx dy : Z) : Prop :=
  kind_of w self ≠ Wall /\
  (kind_of w self = Monster -> other = self ->
   dx = _dx (obj w self) /\ dy = _dy (obj w self)).

(** [a] stands on the ray that leaves [self] in direction [(dx, dy)]. *)
Definition ahead (w : World) (self : ref) (dx dy : Z) (a : ref) : Prop :=
  exists k, 1 <= k /\
    _x (obj w a) = _x (obj w self) + k * dx /\
    _y (obj w a) = _y (obj w self) + k * dy.

(** What a [move] may displace: the receiver, and for a pusher the
    entities ahead of it. *)
Definition move_frame (w : World) (self : ref) (dx dy : Z) (w' : World)
  : Prop :=
  _actors w' ⊆ _actors w /\
  forall a, a ≠ self ->
    (is_pusher (kind_of w self) = true -> ~ ahead w self dx dy a) ->
    get_position w' a = get_position w a.

(** What the [step] of a hostile may displace: the hostile. *)
Definition step_frame (w : World) (self : ref) (w' : World) : Prop :=
  isinstance (kind_of w self) Monster = true ->
  _actors w' ⊆ _actors w /\
  forall a, a ≠ self -> get_position w' a = get_position w a.

(** What is proved of [move], and assumed of the calls it delegates. *)
Definition move_keeps (f : move_fn) : Prop :=
  forall w self other dx dy r w',
    single_occupancy w -> program_call w self other dx dy ->
    f w self other dx dy = Ok (r, w') ->
    single_occupancy w' /\ move_frame w self dx dy w'.

(** What is proved of [step], and assumed of the calls it delegates. *)
Definition step_keeps (f : step_fn) : Prop :=
  forall w self r w',
    single_occupancy w -> f w self = Ok (r, w') ->
    single_occupancy w' /\ step_frame w self w'.

(** The hostiles displace nobody but themselves. *)
Definition only_self_moved (w : World) (self : ref) (w' : World) : Prop :=
  _actors w' ⊆ _actors w /\
  forall a, a ≠ self -> get_position w' a = get_position w a.

(** The reading of C2 that the code does not meet: every call of the
    [move] method of an entity of class [k] keeps the cells apart. *)
Definition every_move_keeps (k : Kind) : Prop :=
  forall fuel w self other dx dy r w',
    kind_of w self = k ->
    single_occupancy w ->
    move fuel w self other dx dy = Ok (r, w') ->
    single_occupancy w'.

(** A 3 x 3 board with a wall at (0, 0) and a box at (0, 1). *)
Definition board_wall_box : World :=
  add_new (add_new (board 3 3) Wall 0 0 5) Box 0 1 5.

(** A 4 x 1 board: the player at (0, 0), a box at (1, 0), a sticky box
    at (2, 0); the cell (3, 0) is free. *)
Definition board_player_boxes : World :=
  add_new (add_new (add_new (board 4 1)
    KeyboardPlayer 0 0 5) Box 1 0 5) StickyBox 2 0 5.

(** [bs] is a line of boxes: in order, they are what [get_actor] finds
    on the cells that follow [(x, y)] in direction [(dx, dy)]. *)
Fixpoint box_line (w : World) (x y dx dy : Z) (bs : list ref) : bool :=
  match bs with
  | [] => true
  | b :: bs' =>
      bool_decide (get_actor w (x + dx) (y + dy) = Some b) &&
      isinstance (kind_of w b) Box &&
      box_line w (x + dx) (y + dy) dx dy bs'
  end.

(** The cell is on the board and nothing is found there. *)
Definition far_free (w : World) (x y : Z) : bool :=
  is_in_bounds w x y && bool_decide (get_actor w x y = None).

(** In [w'] the entities of [l] stand one cell further than in [w], and
    every other entity stands where it stood. *)
Definition pushed (w w' : World) (dx dy : Z) (l : list ref) : Prop :=
  _actors w' = _actors w /\
  forall a,
    get_position w' a =
    if bool_decide (a ∈ l)
    then (_x (obj w a) + dx, _y (obj w a) + dy)
    else get_position w a.

(** Each entity of [l] has shifted by one cell. *)
Definition line_shifted (w w' : World) (dx dy : Z) (l : list ref) : Prop :=
  forall a, a ∈ l ->
    get_position w' a = (_x (obj w a) + dx, _y (obj w a) + dy).

(** The cell just past the far end of the line [bs] in front of [self]. *)
Definition far_cell (w : World) (self : ref) (dx dy : Z) (bs : list ref)
  : Z * Z :=
  (_x (obj w self) + (Z.of_nat (length bs) + 1) * dx,
   _y (obj w self) + (Z.of_nat (length bs) + 1) * dy).

(** [board_player_boxes] with a wall on (3, 0), behind the line. *)
Definition board_player_boxes_wall : World :=
  add_new board_player_boxes Wall 3 0 5.

(** ** The vocabulary of the further properties *)

(** [n] calls of [delay] in a row. *)
Fixpoint repeat_delay (n : nat) (w : World) (self : ref) : result World :=
  match n with
  | O => Ok w
  | S n' => '(_, w1) ← delay w self; repeat_delay n' w1 self
  end.

(** A 3 x 3 board with one wanderer of period 5 at (1, 1). *)
Definition board_wanderer : World := add_new (board 3 3) FreeMonster 1 1 5.

(** The four cardinal displacements. *)
Definition cardinal (dx dy : Z) : Prop :=
  (dx, dy) = (1, 0) \/ (dx, dy) = (-1, 0) \/
  (dx, dy) = (0, 1) \/ (dx, dy) = (0, -1).

(** A 3 x 3 board: a patrol at (0, 0) heading (1, 1) and the player at
    (1, 1). *)
Definition board_patrol_player : World :=
  add_new (add_new (board 3 3) Monster 0 0 5) KeyboardPlayer 1 1 5.

(** A 3 x 3 board: a boss at (0, 0) and the player at (1, 0). *)
Definition board_boss_player : World :=
  add_new (add_new (board 3 3) Boss 0 0 1) KeyboardPlayer 1 0 5.

(** A 3 x 1 board: a box at (0, 0), a ripper at (1, 0). *)
Definition board_box_ripper : World :=
  add_new (add_new (board 3 1) Box 0 0 5) Ripper 1 0 8.

(** A 3 x 1 board: the player at (0, 0), a wall at (1, 0). *)
Definition board_player_wall : World :=
  add_new (add_new (board 3 1) KeyboardPlayer 0 0 5) Wall 1 0 5.

(** What the loop that ends [Ripper.step] leaves of the list it walks:
    a sticky box is dropped, and the element that slides into its place
    is kept without being looked at. *)
Fixpoint sweep (sticky : ref -> bool) (l : list ref) : list ref :=
  match l with
  | [] => []
  | a :: l' =>
      if sticky a then
        match l' with
        | [] => []
        | b :: l'' => b :: sweep sticky l''
        end
      else a :: sweep sticky l'
  end.

(** A 3 x 3 board: a ripper walled in at (0, 0) by three sticky boxes,
    and two more sticky boxes further away. *)
Definition board_ripper_five : World :=
  add_new (add_new (add_new (add_new (add_new (add_new (board 3 3)
    Ripper 0 0 8) StickyBox 1 0 5) StickyBox 0 1 5) StickyBox 1 1 5)
    StickyBox 2 2 5) StickyBox 2 0 5.

(** Every listed reference was handed out by the allocator. *)
Definition fresh (w : World) : Prop :=
  forall a, a ∈ _actors w -> (a < next_ref w)%nat.

(** Every listed entity stands on the board, but for a patrol at
    (5, 20). *)
Definition on_board_but_one (w : World) : Prop :=
  forall a, a ∈ _actors w ->
    is_in_bounds w (_x (obj w a)) (_y (obj w a)) = true \/
    (kind_of w a = Monster /\ get_position w a = (5, 20)).

(** The number of listed entities whose class is exactly [k]. *)
Definition count_kind (w : World) (k : Kind) : nat :=
  length (filter (fun a => kind_of w a = k) (_actors w)).

(** A stage as [setup] builds it. *)
Definition laid_out (w : World) : Prop :=
  fresh w /\ NoDup (_actors w) /\ single_occupancy w /\
  hostile_subset_exact w /\ on_board_but_one w /\
  _width w = 20 /\ _height w = 20.

(** A 20 x 20 stage with both lists empty: the stage [ww] at start-up,
    and any stage after the restart path of [main]. *)
Definition cleared (w : World) : Prop :=
  _actors w = [] /\ _monsters w = [] /\ _width w = 20 /\ _height w = 20.

(** [w'] has grown out of [w]: the objects of [w] are as they were, the
    actors of [w] are listed first, and the player is the same. *)
Definition grown (w w' : World) : Prop :=
  (next_ref w <= next_ref w')%nat /\
  _player w' = _player w /\
  (forall a, (a < next_ref w)%nat -> obj w' a = obj w a) /\
  exists l, _actors w' = _actors w ++ l.

(** The entity stands on the board. *)
Definition on_board (w : World) (a : ref) : Prop :=
  is_in_bounds w (_x (obj w a)) (_y (obj w a)) = true.

(** From [w] to [w'] the board keeps its size and no entity leaves
    it. *)
Definition stays_on_board (w w' : World) : Prop :=
  _width w' = _width w /\ _height w' = _height w /\
  forall a, on_board w a -> on_board w' a.

(** What is proved of [move], and assumed of the calls it delegates. *)
Definition move_on_board (f : move_fn) : Prop :=
  forall w self other dx dy r w',
    single_occupancy w -> program_call w self other dx dy ->
    f w self other dx dy = Ok (r, w') -> stays_on_board w w'.

(** What is proved of [step], and assumed of the calls it delegates. *)
Definition step_on_board (f : step_fn) : Prop :=
  forall w self r w',
    single_occupancy w -> f w self = Ok (r, w') -> stays_on_board w w'.

(** A 3 x 3 board: the player at (0, 0), with the right arrow as its
    last event, boxes at (1, 0) and (2, 0), a patrol at (0, 1) with
    period 1 and a wanderer at (2, 2) with period 1. *)
Definition board_round : World :=
  let w := add_new (add_new (add_new (add_new (add_new (board 3 3)
             KeyboardPlayer 0 0 5) Box 1 0 5) Box 2 0 5)
             Monster 0 1 1) FreeMonster 2 2 1 in
  set_last_event w 0%nat (Some K_RIGHT).

(** A 3 x 3 board: a wanderer in the corner (0, 0) with period 2 and
    its counter at 1; the draws of [board] send it to (-1, -1). *)
Definition board_corner_wanderer : World :=
  set_delay_count (add_new (board 3 3) FreeMonster 0 0 2) 0%nat 1.

(** * Properties *)

(** ** The heap *)

Lemma obj_set_obj w a o b :
  obj (set_obj w a o) b = if decide (a = b) then o else obj w b.
Proof. unfold obj, set_obj; simpl. apply lookup_total_insert. Qed.

Lemma obj_set_obj_eq w a o : obj (set_obj w a o) a = o.
Proof. rewrite obj_set_obj. by rewrite decide_True. Qed.

Lemma obj_set_obj_ne w a o b : a ≠ b -> obj (set_obj w a o) b = obj w b.
Proof. intros. rewrite obj_set_obj. by rewrite decide_False. Qed.

Lemma get_position_set_position w a x y b :
  get_position (set_position w a x y) b =
  if decide (a = b) then (x, y) else get_position w b.
Proof.
  unfold get_position, set_position. rewrite obj_set_obj.
  by destruct (decide (a = b)).
Qed.

Lemma kind_of_set_position w a x y b :
  kind_of (set_position w a x y) b = kind_of w b.
Proof.
  unfold kind_of, set_position. rewrite obj_set_obj.
  destruct (decide (a = b)); by subst.
Qed.

Lemma get_position_set_dead w a d b :
  get_position (set_dead w a d) b = get_position w b.
Proof.
  unfold get_position, set_dead. rewrite obj_set_obj.
  destruct (decide (a = b)); by subst.
Qed.

Lemma get_position_set_delay_count w a c b :
  get_position (set_delay_count w a c) b = get_position w b.
Proof.
  unfold get_position, set_delay_count. rewrite obj_set_obj.
  destruct (decide (a = b)); by subst.
Qed.

Lemma get_position_set_dx w a d b :
  get_position (set_dx w a d) b = get_position w b.
Proof.
  unfold get_position, set_dx. rewrite obj_set_obj.
  destruct (decide (a = b)); by subst.
Qed.

Lemma get_position_set_dy w a d b :
  get_position (set_dy w a d) b = get_position w b.
Proof.
  unfold get_position, set_dy. rewrite obj_set_obj.
  destruct (decide (a = b)); by subst.
Qed.

Lemma isinstance_Monster_not_Wall k :
  isinstance k Monster = true -> isinstance k Wall = false.
Proof. by destruct k. Qed.

Lemma isinstance_KeyboardPlayer k :
  isinstance k KeyboardPlayer = true <-> k = KeyboardPlayer.
Proof. destruct k; split; (done || discriminate). Qed.

(** ** [get_actor] *)

Lemma at_position_true w x y a :
  at_position w x y a = true <-> get_position w a = (x, y).
Proof.
  unfold at_position, get_position.
  rewrite andb_true_iff, !Z.eqb_eq. split; [intros [-> ->]; done|].
  intros [= -> ->]; done.
Qed.

Lemma get_actor_Some w x y a :
  get_actor w x y = Some a -> a ∈ _actors w /\ get_position w a = (x, y).
Proof.
  unfold get_actor. intros [Hin Hat]%find_some.
  split; [by apply list_elem_of_In | by apply at_position_true].
Qed.

Lemma get_actor_None w x y :
  get_actor w x y = None <->
  forall a, a ∈ _actors w -> get_position w a ≠ (x, y).
Proof.
  unfold get_actor. split.
  - intros Hnone a Hin Hpos.
    apply list_elem_of_In in Hin.
    pose proof (find_none _ _ Hnone a Hin) as Hf.
    apply at_position_true in Hpos. congruence.
  - intros H. destruct (find _ _) as [a|] eqn:E; [|done].
    apply find_some in E as [Hin Hat].
    apply list_elem_of_In in Hin. apply at_position_true in Hat.
    by destruct (H a Hin).
Qed.

(** ** Dispatch *)

(** The dispatchers, one level unfolded. *)
Lemma move_S n w self other dx dy :
  move (S n) w self other dx dy =
  match kind_of w self with
  | KeyboardPlayer => KeyboardPlayer_move (move n) w self other dx dy
  | Box | StickyBox => Box_move (move n) w self other dx dy
  | Wall => Ok (Actor_move w self other dx dy)
  | Monster => Monster_move w self other dx dy
  | FreeMonster | BoxMonster | Boss =>
      FreeMonster_move (step n) w self other dx dy
  | Ripper => Ripper_move (step n) w self other dx dy
  end.
Proof. reflexivity. Qed.

Lemma step_S n w self :
  step (S n) w self =
  match kind_of w self with
  | KeyboardPlayer => KeyboardPlayer_step (move n) w self
  | Box | StickyBox | Wall => Actor_step w self
  | Monster => Monster_step (move n) w self
  | FreeMonster | BoxMonster | Boss => FreeMonster_step (move n) w self
  | Ripper => Ripper_step (move n) w self
  end.
Proof. reflexivity. Qed.

(** ** C5: death by encirclement *)

Lemma escape_test w x y :
  (match get_actor w x y with
   | None => true
   | Some a => isinstance (kind_of w a) KeyboardPlayer
   end) && is_in_bounds w x y = true <-> escape w x y.
Proof.
  unfold escape. rewrite andb_true_iff.
  destruct (get_actor w x y) as [a|].
  - rewrite isinstance_KeyboardPlayer. split.
    + intros [Hk Hb]. split; [done|]. right. by exists a.
    + intros [Hb [?|(b & [= <-] & Hk)]]; done.
  - split; [intros [_ Hb]; by auto | by intros [Hb _]].
Qed.

Lemma is_dead_loop_true w l :
  is_dead_loop w l = true <-> Forall (fun p => ~ escape w p.1 p.2) l.
Proof.
  induction l as [|p l IH]; simpl.
  - split; [constructor | done].
  - rewrite Forall_cons, <- IH, <- escape_test.
    destruct (_ && _); split; try done.
    + by intros [H _].
    + by intros [_ H].
Qed.

Lemma neighbour_dead_moves dx dy : neighbour dx dy <-> (dx, dy) ∈ dead_moves.
Proof.
  unfold neighbour, dead_moves. rewrite !elem_of_cons, elem_of_nil. split.
  - intros (Hx & Hy & Hne).
    assert (dx = -1 \/ dx = 0 \/ dx = 1) as [-> | [-> | ->]] by lia;
      assert (dy = -1 \/ dy = 0 \/ dy = 1) as [-> | [-> | ->]] by lia;
      try (exfalso; by apply Hne); tauto.
  - intros H; repeat destruct H as [H|H]; try done;
      injection H as -> ->; (split; [lia|split; [lia|done]]).
Qed.

Lemma escape_or_held w x y :
  is_in_bounds w x y = true -> ~ escape w x y <-> held_by_other w x y.
Proof.
  intros Hb. unfold escape, held_by_other.
  destruct (get_actor w x y) as [a|].
  - destruct (decide (kind_of w a = KeyboardPlayer)) as [Hk|Hk].
    + split.
      * intros H. exfalso. apply H. split; [done|]. right. by exists a.
      * intros (b & [= <-] & Hb'). done.
    + split.
      * intros _. by exists a.
      * intros _ [_ [?|(b & [= <-] & ?)]]; done.
  - split.
    + intros H. exfalso. apply H. by auto.
    + by intros (b & ? & _).
Qed.

(** C5. [is_dead] answers [True] exactly when none of the eight
    neighbouring cells is in bounds and either empty or occupied by the
    player; equivalently, exactly when every neighbouring cell that is
    in bounds holds an entity other than the player.  Neighbours out of
    bounds put no condition on either side. *)
Theorem is_dead_iff_encircled w self :
  (Monster_is_dead w self = true <->
   forall dx dy, neighbour dx dy ->
     ~ escape w (_x (obj w self) + dx) (_y (obj w self) + dy)) /\
  (Monster_is_dead w self = true <->
   forall dx dy, neighbour dx dy ->
     is_in_bounds w (_x (obj w self) + dx) (_y (obj w self) + dy) = true ->
     held_by_other w (_x (obj w self) + dx) (_y (obj w self) + dy)).
Proof.
  assert (Monster_is_dead w self = true <->
          forall dx dy, neighbour dx dy ->
            ~ escape w (_x (obj w self) + dx) (_y (obj w self) + dy)) as H1.
  { unfold Monster_is_dead. rewrite is_dead_loop_true, Forall_forall.
    split.
    - intros H dx dy Hn. apply neighbour_dead_moves in Hn.
      apply (H (_x (obj w self) + dx, _y (obj w self) + dy)).
      apply list_elem_of_In, in_map_iff. exists (dx, dy).
      split; [done | by apply list_elem_of_In].
    - intros H p Hp. apply list_elem_of_In, in_map_iff in Hp as ([dx dy] & <- & Hin).
      apply list_elem_of_In, neighbour_dead_moves in Hin. simpl. by apply H. }
  split; [exact H1|]. rewrite H1. split.
  - intros H dx dy Hn Hb. apply escape_or_held; [done | by apply H].
  - intros H dx dy Hn He. pose proof He as [Hb _].
    by apply (escape_or_held _ _ _ Hb) in He; [|apply H].
Qed.

(** ** C10 and C6: the patrol's [move] *)

Lemma move_Monster fuel w self other dx dy :
  kind_of w self = Monster ->
  move (S fuel) w self other dx dy = Monster_move w self other dx dy.
Proof. intros Hk. simpl. by rewrite Hk. Qed.



(** The patrol of [board_patrol_edge] inverts [_dx], returns [False]
    and is still at (2, 1). *)
Lemma bounce_keeps_moving_fails : ~ bounce_keeps_moving board_patrol_edge 0%nat.
Proof.
  intros H.
  apply (H eq_refl eq_refl eq_refl false
           (set_dx board_patrol_edge 0%nat (-1))); reflexivity.
Qed.

(** C6, as the code has it. When nothing is found at the target and the
    target is out of bounds, the patrol inverts the heading component of
    every axis that is out of bounds, returns [False] and stays where it
    is: it does not relocate on that call, whether one axis bounced or
    both. *)
Theorem Monster_move_edge_bounce fuel w self dx dy :
  kind_of w self = Monster ->
  get_actor w (_x (obj w self) + _dx (obj w self))
              (_y (obj w self) + _dy (obj w self)) = None ->
  is_in_bounds w (_x (obj w self) + _dx (obj w self))
                 (_y (obj w self) + _dy (obj w self)) = false ->
  exists w',
    move (S fuel) w self self dx dy = Ok (false, w') /\
    (forall a, get_position w' a = get_position w a) /\
    _dx (obj w' self) =
      (if is_in_bounds_x w (_x (obj w self) + _dx (obj w self))
       then _dx (obj w self) else - _dx (obj w self)) /\
    _dy (obj w' self) =
      (if is_in_bounds_y w (_y (obj w self) + _dy (obj w self))
       then _dy (obj w self) else - _dy (obj w self)).
Proof.
  intros Hk Ha Hb. rewrite move_Monster by done.
  unfold Monster_move. rewrite bool_decide_eq_true_2 by done. simpl.
  rewrite Ha. unfold is_in_bounds in Hb.
  destruct (is_in_bounds_x w _) eqn:Hbx; simpl in *.
  - rewrite Hb. simpl. eexists. split; [done|].
    split; [intros a; apply get_position_set_dy|].
    unfold set_dy. by rewrite obj_set_obj_eq.
  - replace (is_in_bounds_y (set_dx w self (- _dx (obj w self))) _)
      with (is_in_bounds_y w (_y (obj w self) + _dy (obj w self))) by done.
    destruct (is_in_bounds_y w _) eqn:Hby; simpl.
    + eexists. split; [done|].
      split; [intros a; apply get_position_set_dx|].
      unfold set_dx. by rewrite obj_set_obj_eq.
    + eexists. split; [done|].
      split; [intros a; by rewrite get_position_set_dy, get_position_set_dx|].
      unfold set_dy, set_dx. by rewrite !obj_set_obj_eq.
Qed.

(** The patrol of [board_patrol_edge] bounces off the right edge; in
    the corner (2, 2) both components are inverted. *)
Lemma Monster_move_edge_bounce_witness :
  (exists w', move 1 board_patrol_edge 0%nat 0%nat 1 1 = Ok (false, w') /\
     get_position w' 0%nat = (2, 1) /\
     _dx (obj w' 0%nat) = -1 /\ _dy (obj w' 0%nat) = 1) /\
  (exists w', move 1 (add_new (board 3 3) Monster 2 2 5) 0%nat 0%nat 1 1
                = Ok (false, w') /\
     get_position w' 0%nat = (2, 2) /\
     _dx (obj w' 0%nat) = -1 /\ _dy (obj w' 0%nat) = -1).
Proof.
  split.
  - destruct (Monster_move_edge_bounce 0 board_patrol_edge 0%nat 1 1
                eq_refl eq_refl eq_refl) as (w' & Hm & Hp & Hx & Hy).
    exists w'. split; [exact Hm|]. rewrite Hp, Hx, Hy. repeat split.
  - destruct (Monster_move_edge_bounce 0 (add_new (board 3 3) Monster 2 2 5)
                0%nat 1 1 eq_refl eq_refl eq_refl) as (w' & Hm & Hp & Hx & Hy).
    exists w'. split; [exact Hm|]. rewrite Hp, Hx, Hy. repeat split.
Defined.

(** ** C3: the player walks into a hostile *)

(** A hostile asked to move by anybody else declines, whatever its
    class. *)
Lemma hostile_declines_push fuel w h other dx dy :
  isinstance (kind_of w h) Monster = true ->
  other ≠ h ->
  move (S fuel) w h other dx dy = Ok (false, w).
Proof.
  intros Hk Hne. simpl.
  destruct (kind_of w h); try discriminate Hk;
    unfold Monster_move, FreeMonster_move, Ripper_move;
    by rewrite bool_decide_eq_false_2.
Qed.

(** C3. When the cell the player is asked to step into is on the board
    and holds a hostile of any class, the call returns [True] with the
    player's [dead] flag set; no position changes, neither the
    hostile's nor the player's. *)
Theorem player_into_hostile_is_killed fuel w self other dx dy h :
  kind_of w self = KeyboardPlayer ->
  is_in_bounds w (_x (obj w self) + dx) (_y (obj w self) + dy) = true ->
  get_actor w (_x (obj w self) + dx) (_y (obj w self) + dy) = Some h ->
  isinstance (kind_of w h) Monster = true ->
  exists w',
    move (S (S fuel)) w self other dx dy = Ok (true, w') /\
    dead (obj w' self) = true /\
    (forall a, get_position w' a = get_position w a) /\
    _actors w' = _actors w.
Proof.
  intros Hk Hb Ha Hh.
  assert (self ≠ h) as Hne.
  { intros ->. rewrite Hk in Hh. discriminate Hh. }
  exists (set_dead w self true). split; [|split; [|split]].
  - change (move (S (S fuel)) w self other dx dy)
      with (match kind_of w self with
            | KeyboardPlayer =>
                KeyboardPlayer_move (move (S fuel)) w self other dx dy
            | Box | StickyBox => Box_move (move (S fuel)) w self other dx dy
            | Wall => Ok (Actor_move w self other dx dy)
            | Monster => Monster_move w self other dx dy
            | FreeMonster | BoxMonster | Boss =>
                FreeMonster_move (step (S fuel)) w self other dx dy
            | Ripper => Ripper_move (step (S fuel)) w self other dx dy
            end).
    rewrite Hk. unfold KeyboardPlayer_move.
    rewrite Hb, Ha, (isinstance_Monster_not_Wall _ Hh).
    rewrite hostile_declines_push by done.
    cbn [mbind result_bind negb]. rewrite Ha.
    cbn [mbind result_bind]. by rewrite Ha, Hh.
  - unfold set_dead. by rewrite obj_set_obj_eq.
  - intros a. apply get_position_set_dead.
  - done.
Qed.

(** The bounds check comes first: a target off the board is refused
    whatever stands there, and nothing changes. *)
Lemma player_off_board_is_blocked fuel w self other dx dy :
  kind_of w self = KeyboardPlayer ->
  is_in_bounds w (_x (obj w self) + dx) (_y (obj w self) + dy) = false ->
  move (S fuel) w self other dx dy = Ok (false, w).
Proof.
  intros Hk Hb. rewrite move_S, Hk. unfold KeyboardPlayer_move.
  by rewrite Hb.
Qed.

(** C3 as stated, for every cell that holds a hostile, fails on the
    code.  On [board_player_stray_patrol] the player steps down, onto
    the cell of the patrol at (5, 20): the bounds check refuses the
    move, the call returns [False] and the player's [dead] flag is
    still unset. *)
Lemma walking_into_hostile_kills_fails :
  ~ walking_into_hostile_kills board_player_stray_patrol 0%nat 0 1.
Proof.
  intros H.
  assert (move 1 board_player_stray_patrol 0%nat 0%nat 0 1 =
          Ok (false, board_player_stray_patrol)) as Hm
    by (apply player_off_board_is_blocked; reflexivity).
  destruct (H 1%nat eq_refl eq_refl eq_refl 1%nat false
              board_player_stray_patrol Hm) as [Hr _].
  discriminate Hr.
Qed.

(** On [board_player_ripper] the player steps right, into the ripper. *)
Lemma player_into_hostile_is_killed_witness :
  exists w',
    move 2 board_player_ripper 0%nat 0%nat 1 0 = Ok (true, w') /\
    dead (obj w' 0%nat) = true /\
    (forall a, get_position w' a = get_position board_player_ripper a) /\
    _actors w' = _actors board_player_ripper.
Proof.
  apply (player_into_hostile_is_killed 0 board_player_ripper 0%nat 0%nat 1 0 1%nat);
    reflexivity.
Defined.

(** ** C8: the hostile subset against the live collection *)

Lemma hostile_subset_exact_elem w a :
  hostile_subset_exact w ->
  a ∈ _monsters w <->
  a ∈ _actors w /\ isinstance (kind_of w a) Monster = true.
Proof.
  unfold hostile_subset_exact. intros ->.
  rewrite list_elem_of_filter. tauto.
Qed.

Lemma list_remove_filter (P : ref -> Prop) `{!forall a, Decision (P a)} a l l' :
  list_remove a l = Some l' ->
  (P a -> list_remove a (filter P l) = Some (filter P l')) /\
  (~ P a -> filter P l' = filter P l).
Proof.
  revert l'. induction l as [|b l IH]; intros l'; simpl; [done|].
  destruct (decide (b = a)) as [->|Hne].
  - intros [= ->]. split; intros Ha.
    + rewrite filter_cons_True by done. simpl. by rewrite decide_True.
    + by rewrite filter_cons_False.
  - destruct (list_remove a l) as [r|]; [|done]. intros [= <-].
    destruct (IH r eq_refl) as [IH1 IH2].
    destruct (decide (P b)) as [Hb|Hb].
    + rewrite !filter_cons_True by done. simpl. rewrite decide_False by done.
      split; intros Ha.
      * by rewrite IH1.
      * by rewrite IH2.
    + rewrite !filter_cons_False by done. done.
Qed.

Lemma list_remove_elem_of a l :
  a ∈ l -> exists l', list_remove a l = Some l'.
Proof.
  induction l as [|b l IH]; [by intros ?%elem_of_nil|].
  intros Hin. simpl. destruct (decide (b = a)); [by eauto|].
  apply elem_of_cons in Hin as [->|Hin]; [done|].
  destruct (IH Hin) as [l' ->]. by eauto.
Qed.

Lemma list_remove_other a l l' b :
  list_remove a l = Some l' -> b ≠ a -> b ∈ l <-> b ∈ l'.
Proof.
  revert l'. induction l as [|c l IH]; intros l'; simpl; [done|].
  destruct (decide (c = a)) as [->|Hne].
  - intros [= ->] Hb. rewrite elem_of_cons. split; [|by right].
    by intros [->|?].
  - destruct (list_remove a l) as [r|]; [|done]. intros [= <-] Hb.
    rewrite !elem_of_cons. by rewrite (IH r eq_refl Hb).
Qed.

Lemma list_remove_subseteq a l l' :
  list_remove a l = Some l' -> l' ⊆ l.
Proof.
  revert l'. induction l as [|c l IH]; intros l'; simpl; [done|].
  destruct (decide (c = a)) as [->|Hne].
  - intros [= ->] x Hx. by right.
  - destruct (list_remove a l) as [r|]; [|done]. intros [= <-].
    specialize (IH r eq_refl). intros x [->|Hx]%elem_of_cons;
      [by left | right; by apply IH].
Qed.

Lemma list_remove_length a l l' :
  list_remove a l = Some l' -> length l = S (length l').
Proof.
  revert l'. induction l as [|c l IH]; intros l'; simpl; [done|].
  destruct (decide (c = a)) as [->|Hne].
  - by intros [= ->].
  - destruct (list_remove a l) as [r|]; [|done]. intros [= <-].
    simpl. by rewrite (IH r eq_refl).
Qed.

(** [add_actor] keeps the two lists in step. *)
Lemma add_actor_hostile_subset w a :
  hostile_subset_exact w -> hostile_subset_exact (add_actor w a).
Proof.
  unfold hostile_subset_exact, add_actor. intros H.
  destruct (isinstance (kind_of w a) Monster) eqn:Hk; simpl;
    change (kind_of _) with (kind_of w) in *; rewrite filter_app, <- H.
  - by rewrite filter_cons_True, filter_nil.
  - rewrite filter_cons_False, filter_nil by (by rewrite Hk).
    by rewrite app_nil_r.
Qed.

(** So does [remove_actor], when it does not raise. *)
Lemma remove_actor_hostile_subset w a w' :
  hostile_subset_exact w -> remove_actor w a = Ok w' ->
  hostile_subset_exact w'.
Proof.
  unfold hostile_subset_exact, remove_actor. intros H.
  destruct (isinstance (kind_of w a) Monster) eqn:Hk.
  - destruct (list_remove a (_monsters w)) as [ms|] eqn:Hm; [|done].
    simpl. destruct (list_remove a (_actors w)) as [l|] eqn:Hl; [|done].
    intros [= <-]. simpl. change (kind_of _) with (kind_of w).
    apply (list_remove_filter
             (fun a => isinstance (kind_of w a) Monster = true)) in Hl as [Hl _].
    rewrite <- H, Hm in Hl. specialize (Hl Hk). congruence.
  - destruct (list_remove a (_actors w)) as [l|] eqn:Hl; [|done].
    intros [= <-]. simpl. change (kind_of _) with (kind_of w).
    apply (list_remove_filter
             (fun a => isinstance (kind_of w a) Monster = true)) in Hl as [_ Hl].
    rewrite Hl; [done | by rewrite Hk].
Qed.

(** The restart path of [main] empties both lists. *)
Lemma main_restart_clear_hostile_subset w :
  hostile_subset_exact (main_restart_clear w).
Proof. reflexivity. Qed.

(** C8 fails on [Stage.clear]: it empties [_actors] and leaves
    [_monsters] as it was, so a hostile added before the call is still
    listed in the hostile subset of an empty stage. *)
Theorem clear_keeps_stale_monsters w m :
  isinstance (kind_of w m) Monster = true ->
  m ∈ _monsters (clear (add_actor w m)) /\
  _actors (clear (add_actor w m)) = [] /\
  ~ hostile_subset_exact (clear (add_actor w m)).
Proof.
  intros Hk. unfold clear, add_actor, hostile_subset_exact. rewrite Hk. simpl.
  split; [set_solver|]. split; [done|].
  rewrite filter_nil. by destruct (_monsters w).
Qed.

(** One patrol added to an empty stage, then [clear]. *)
Lemma clear_keeps_stale_monsters_witness :
  let w := (new_actor (board 20 20) Monster 7 4 5).2 in
  hostile_subset_exact w /\
  _monsters (clear (add_actor w 0%nat)) = [0%nat] /\
  _actors (clear (add_actor w 0%nat)) = [] /\
  ~ hostile_subset_exact (clear (add_actor w 0%nat)).
Proof.
  split; [reflexivity|]. split; [reflexivity|].
  apply (clear_keeps_stale_monsters (new_actor (board 20 20) Monster 7 4 5).2 0%nat).
  reflexivity.
Defined.

(** ** C4: what a death removes *)

(** The death branch of the [step] of a hostile that is not a
    [Ripper]: [remove_actor] and nothing else. *)
Lemma step_dead fuel w self :
  isinstance (kind_of w self) Monster = true ->
  kind_of w self ≠ Ripper ->
  Monster_is_dead w self = true ->
  exists v, step (S fuel) w self =
            remove_actor w self ≫= (fun w1 => Ok (v, w1)).
Proof.
  intros Hk Hr Hd. simpl.
  destruct (kind_of w self); try discriminate Hk; try done;
    unfold Monster_step, FreeMonster_step;
    rewrite Hd; cbn [negb andb]; rewrite andb_false_r; by eauto.
Qed.

Lemma remove_actor_Ok w a w' :
  remove_actor w a = Ok w' ->
  list_remove a (_actors w) = Some (_actors w') /\ objs w' = objs w.
Proof.
  unfold remove_actor.
  destruct (isinstance (kind_of w a) Monster).
  - destruct (list_remove a (_monsters w)) as [ms|]; [|done].
    cbn [_actors set_monsters].
    destruct (list_remove a (_actors w)) as [l|]; [|done].
    by intros [= <-].
  - destruct (list_remove a (_actors w)) as [l|]; [|done].
    by intros [= <-].
Qed.

(** A dead hostile that is not a [Ripper] is taken off the stage and
    nothing else is: every sticky box stays listed. *)
Lemma hostile_death_keeps_sticky fuel w self r w' s :
  isinstance (kind_of w self) Monster = true ->
  kind_of w self ≠ Ripper ->
  Monster_is_dead w self = true ->
  step (S fuel) w self = Ok (r, w') ->
  s ∈ _actors w -> kind_of w s = StickyBox ->
  s ∈ _actors w' /\ kind_of w' s = StickyBox.
Proof.
  intros Hk Hr Hd Hs Hin Hsk.
  assert (s ≠ self) as Hne.
  { intros ->. rewrite Hsk in Hk. discriminate Hk. }
  destruct (step_dead fuel w self Hk Hr Hd) as [v Hv].
  rewrite Hv in Hs. destruct (remove_actor w self) as [w1| |] eqn:Hrem;
    try discriminate Hs.
  cbn [mbind result_bind] in Hs. injection Hs as <- <-.
  apply remove_actor_Ok in Hrem as [Hl Ho]. split.
  - by apply (list_remove_other _ _ _ s Hl).
  - unfold kind_of, obj in *. by rewrite Ho.
Qed.

(** C4 fails on the code. The dying ripper of [board_ripper_walled] is
    removed, and so is the first sticky box; the loop then steps over the
    second one, which is still on the stage when [step] returns. *)
Theorem Ripper_death_leaves_a_sticky_box :
  Monster_is_dead board_ripper_walled 0%nat = true /\
  _actors board_ripper_walled = [0; 1; 2; 3]%nat /\
  kind_of board_ripper_walled 1%nat = StickyBox /\
  kind_of board_ripper_walled 2%nat = StickyBox /\
  exists w',
    step 1 board_ripper_walled 0%nat = Ok (None, w') /\
    _actors w' = [2; 3]%nat /\
    kind_of w' 2%nat = StickyBox.
Proof.
  repeat split; try reflexivity.
  eexists. repeat split; reflexivity.
Qed.

(** ** C9: positions at setup *)

Lemma third_patrol_draw w : third_patrol_kept w -> third_patrol_kept (draw w).2.
Proof. done. Qed.

Lemma third_patrol_randrange w n x w' :
  third_patrol_kept w -> random_randrange w n = Ok (x, w') ->
  third_patrol_kept w'.
Proof.
  unfold random_randrange. destruct (n <=? 0); [done|].
  intros H [= _ <-]. by apply third_patrol_draw.
Qed.

Lemma third_patrol_randint w a b x w' :
  third_patrol_kept w -> random_randint w a b = Ok (x, w') ->
  third_patrol_kept w'.
Proof.
  unfold random_randint. destruct (b <? a); [done|].
  intros H [= _ <-]. by apply third_patrol_draw.
Qed.

Lemma third_patrol_add_new w k x y d :
  third_patrol_kept w -> third_patrol_kept (add_new w k x y d).
Proof.
  intros (Hn & Hin & Hk & Hp & Hw & Hh).
  assert (next_ref w ≠ 3%nat) as Hne by lia.
  unfold add_new, new_actor, add_actor, third_patrol_kept.
  destruct (isinstance (kind_of _ _) Monster); simpl;
    (split; [lia|]); (split; [set_solver|]);
    unfold kind_of, get_position, obj in *; simpl;
    rewrite !lookup_total_insert_ne by done; done.
Qed.

Lemma third_patrol_place w k d b w' :
  third_patrol_kept w -> place w k d = Ok (b, w') -> third_patrol_kept w'.
Proof.
  unfold place. intros H.
  destruct (random_randrange w (get_width w)) as [[x w1]| |] eqn:E1; try done.
  cbn [mbind result_bind].
  destruct (random_randrange w1 (get_height w1)) as [[y w2]| |] eqn:E2; try done.
  cbn [mbind result_bind].
  apply (third_patrol_randrange _ _ _ _ H) in E1.
  apply (third_patrol_randrange _ _ _ _ E1) in E2.
  destruct (get_actor w2 x y); intros [= _ <-]; [done|].
  by apply third_patrol_add_new.
Qed.

Lemma third_patrol_place_times n w k d w' :
  third_patrol_kept w -> place_times n w k d = Ok w' -> third_patrol_kept w'.
Proof.
  revert w. induction n as [|n IH]; intros w H; simpl.
  - by intros [= <-].
  - destruct (place w k d) as [[b w1]| |] eqn:E; try done.
    cbn [mbind result_bind]. apply IH. by apply (third_patrol_place _ _ _ _ _ H E).
Qed.

Lemma third_patrol_place_boxes fuel num w w' :
  third_patrol_kept w -> place_boxes fuel num w = Ok w' -> third_patrol_kept w'.
Proof.
  revert num w. induction fuel as [|fuel IH]; intros num w H; simpl; [done|].
  destruct (num <? 100); [|by intros [= <-]].
  destruct (place w Box 5) as [[b w1]| |] eqn:E; try done.
  cbn [mbind result_bind]. apply IH. by apply (third_patrol_place _ _ _ _ _ H E).
Qed.

Lemma returns_Ok {A} (r : result A) : returns r = true -> exists a, r = Ok a.
Proof. destruct r as [a| |]; [by exists a | done..]. Qed.

Lemma bind_Ok {A B} (m : result A) (f : A -> result B) b :
  m ≫= f = Ok b -> exists a, m = Ok a /\ f a = Ok b.
Proof. destruct m as [a| |]; [|done..]. intros H. by exists a. Qed.

(** The body of [setup], as an equation between functions. *)
Lemma setup_unfold :
  setup = ltac:(let b := eval unfold setup in setup in exact b).
Proof. reflexivity. Qed.

(** C9 fails on the code. Whatever the random draws, every run of
    [setup] that returns leaves a patrol listed at (5, 20) on the
    20 x 20 stage: [y = 20] is not below the height. *)
Theorem setup_puts_a_patrol_out_of_bounds fuel keys rand w' :
  setup fuel (ww keys rand) = Ok w' ->
  exists a,
    a ∈ _actors w' /\ kind_of w' a = Monster /\
    get_position w' a = (5, 20) /\
    is_in_bounds w' 5 20 = false.
Proof.
  intros Hs. exists 3%nat.
  assert (third_patrol_kept w') as (_ & Hin & Hk & Hp & Hw & Hh).
  { rewrite setup_unfold in Hs. cbv beta in Hs.
    destruct (new_actor (ww keys rand) KeyboardPlayer 0 0 5) as [p w] eqn:E.
    cbv beta iota zeta in Hs.
    set (w0 := add_new _ Monster 5 20 2) in Hs.
    assert (third_patrol_kept w0) as H0.
    { unfold new_actor in E. injection E as <- <-.
      subst w0. split; [vm_compute; lia|].
      split; [apply list_elem_of_In; vm_compute; tauto|].
      repeat split; reflexivity. }
    clearbody w0. clear E.
    apply bind_Ok in Hs as ([n1 w1] & E1 & Hs).
    apply bind_Ok in Hs as (w2 & E2 & Hs).
    apply bind_Ok in Hs as ([n3 w3] & E3 & Hs).
    apply bind_Ok in Hs as (w4 & E4 & Hs).
    apply bind_Ok in Hs as ([b5 w5] & E5 & Hs).
    apply bind_Ok in Hs as (w6 & E6 & Hs).
    apply bind_Ok in Hs as (w7 & E7 & Hs).
    apply bind_Ok in Hs as (w8 & E8 & Hs).
    apply (third_patrol_randint _ _ _ _ _ H0) in E1.
    apply (third_patrol_place_times _ _ _ _ _ E1) in E2.
    apply (third_patrol_randint _ _ _ _ _ E2) in E3.
    apply (third_patrol_place_times _ _ _ _ _ E3) in E4.
    apply (third_patrol_place _ _ _ _ _ E4) in E5.
    apply (third_patrol_place_times _ _ _ _ _ E5) in E6.
    apply (third_patrol_place_times _ _ _ _ _ E6) in E7.
    apply (third_patrol_place_times _ _ _ _ _ E7) in E8.
    by apply (third_patrol_place_boxes _ _ _ _ E8 Hs). }
  repeat split; try done.
  unfold is_in_bounds, is_in_bounds_x, is_in_bounds_y. rewrite Hw, Hh. done.
Qed.

(** With these draws and 200 rounds of the box loop [setup] returns. *)
Lemma setup_puts_a_patrol_out_of_bounds_witness :
  exists w',
    setup 200 (ww no_keys sample_rand) = Ok w' /\
    exists a,
      a ∈ _actors w' /\ kind_of w' a = Monster /\
      get_position w' a = (5, 20) /\
      is_in_bounds w' 5 20 = false.
Proof.
  destruct (returns_Ok (setup 200 (ww no_keys sample_rand))) as [w' E];
    [vm_compute; reflexivity|].
  exists w'. split; [exact E|].
  exact (setup_puts_a_patrol_out_of_bounds 200 no_keys sample_rand w' E).
Defined.

(** ** C7: the throttle and the state machine *)

Lemma isinstance_StickyBox_not_Monster k :
  isinstance k StickyBox = true -> isinstance k Monster = false.
Proof. by destruct k. Qed.

Lemma list_remove_NoDup a l l' :
  NoDup l -> list_remove a l = Some l' -> a ∉ l'.
Proof.
  revert l'. induction l as [|b l IH]; intros l' Hnd; simpl; [done|].
  apply NoDup_cons in Hnd as [Hb Hnd].
  destruct (decide (b = a)) as [->|Hne].
  - by intros [= <-].
  - destruct (list_remove a l) as [r|]; [|done]. intros [= <-].
    rewrite not_elem_of_cons. split; [done | by apply IH].
Qed.

(** The loop that ends [Ripper.step] always runs to its end: the
    actors it removes are sticky boxes taken from [_actors] itself, and
    each round moves the index one step closer to the end of a list that
    never grows. It touches nothing but [_actors]. *)
Lemma for_actors_remove_if_sticky fuel i w :
  (length (_actors w) - i < fuel)%nat ->
  exists w',
    for_actors remove_if_sticky fuel i w = Ok w' /\
    _actors w' ⊆ _actors w /\ objs w' = objs w /\ _monsters w' = _monsters w.
Proof.
  revert i w. induction fuel as [|fuel IH]; intros i w Hlen; [lia|].
  simpl. destruct (_actors w !! i) as [a|] eqn:Hi.
  - pose proof (lookup_lt_Some _ _ _ Hi) as Hlt.
    unfold remove_if_sticky.
    destruct (isinstance (kind_of w a) StickyBox) eqn:Hk.
    + unfold remove_actor.
      rewrite (isinstance_StickyBox_not_Monster _ Hk).
      destruct (list_remove_elem_of a (_actors w)) as [l Hl];
        [by eapply list_elem_of_lookup_2|].
      rewrite Hl. cbn [mbind result_bind].
      destruct (IH (S i) (set_actors w l)) as (w' & Hw' & Hsub & Ho & Hm).
      { simpl. apply list_remove_length in Hl. lia. }
      exists w'. split; [done|]. split; [|done].
      simpl in Hsub. apply list_remove_subseteq in Hl. set_solver.
    + cbn [mbind result_bind].
      destruct (IH (S i) w) as (w' & Hw' & Hrest); [lia|]. by exists w'.
  - exists w. by repeat split.
Qed.

(** The walled-in patrol is removed on its first call, on which the
    counter (0, period 5) does not wrap. *)
Lemma throttle_gates_step_fails : ~ throttle_gates_step board_patrol_walled 0%nat.
Proof.
  intros H.
  destruct (H eq_refl) with (r := Some true)
    (w' := set_actors (set_monsters board_patrol_walled []) [1; 2; 3]%nat)
    as [Hin _]; try done.
  apply (bool_decide_pack _) in Hin. vm_compute in Hin. exact Hin.
Qed.

(** C7, as the code has it. The death check and the immobilization
    check are made on every call, before the throttle is consulted; the
    throttle gates the movement only.
    - A hostile that is neither dead nor held advances its counter, and
      when the counter does not wrap that is the only change: it does
      not move and is not removed.
    - A held hostile that is not dead changes nothing, the counter
      included.
    - A dead hostile is removed whatever the counter says, and the
      counter is left as it was. *)
Theorem step_throttle_gates_movement_only fuel w self :
  isinstance (kind_of w self) Monster = true ->
  (Monster_is_dead w self = false -> Monster_is_stuck w self = false ->
   _delay (obj w self) ≠ 0 ->
   (_delay_count (obj w self) + 1) `mod` _delay (obj w self) ≠ 0 ->
   step (S fuel) w self =
     Ok (None, set_delay_count w self
                 ((_delay_count (obj w self) + 1) `mod` _delay (obj w self))))
  /\
  (Monster_is_dead w self = false -> Monster_is_stuck w self = true ->
   step (S fuel) w self = Ok (Some true, w))
  /\
  (Monster_is_dead w self = true ->
   NoDup (_actors w) -> self ∈ _actors w -> self ∈ _monsters w ->
   exists r w',
     step (S fuel) w self = Ok (r, w') /\
     (self ∉ _actors w') /\
     _delay_count (obj w' self) = _delay_count (obj w self)).
Proof.
  intros Hk. split; [|split].
  - intros Hd Hs Hz Hc. simpl.
    destruct (kind_of w self); try discriminate Hk;
      unfold Monster_step, FreeMonster_step, Ripper_step, delay;
      rewrite Hd, Hs; cbn [negb andb];
      apply Z.eqb_neq in Hz; rewrite Hz; cbn [mbind result_bind];
      apply Z.eqb_neq in Hc; by rewrite Hc.
  - intros Hd Hs. simpl.
    destruct (kind_of w self); try discriminate Hk;
      unfold Monster_step, FreeMonster_step, Ripper_step;
      by rewrite Hd, Hs.
  - intros Hd Hnd Hin Hm.
    destruct (list_remove_elem_of _ _ Hm) as [ms Hms].
    destruct (list_remove_elem_of _ _ Hin) as [l Hl].
    assert (remove_actor w self = Ok (set_actors (set_monsters w ms) l)) as Hrem.
    { unfold remove_actor. rewrite Hk, Hms. cbn [_actors set_monsters].
      by rewrite Hl. }
    pose proof (list_remove_NoDup _ _ _ Hnd Hl) as Hnot.
    destruct (decide (kind_of w self = Ripper)) as [Hr|Hr].
    + simpl. rewrite Hr. unfold Ripper_step.
      rewrite Hd. cbn [negb andb]. rewrite andb_false_r, Hrem.
      cbn [mbind result_bind].
      destruct (for_actors_remove_if_sticky
                  (S (length (_actors (set_actors (set_monsters w ms) l)))) 0
                  (set_actors (set_monsters w ms) l))
        as (w2 & Hw2 & Hsub & Ho & _); [lia|].
      rewrite Hw2. cbn [mbind result_bind].
      exists None, w2. split; [done|]. split.
      * intros Hin2. apply Hnot. by apply Hsub in Hin2.
      * unfold obj. by rewrite Ho.
    + destruct (step_dead fuel w self Hk Hr Hd) as [v Hv].
      rewrite Hv, Hrem. cbn [mbind result_bind].
      exists v, (set_actors (set_monsters w ms) l). by repeat split.
Qed.

(** A free wanderer of period 5 on an empty 3 x 3 board waits; next to
    a sticky box it is held; the walled-in patrol is removed. *)
Lemma step_throttle_gates_movement_only_witness :
  step 1 (add_new (board 3 3) FreeMonster 1 1 5) 0%nat =
    Ok (None, set_delay_count (add_new (board 3 3) FreeMonster 1 1 5) 0%nat 1) /\
  step 1 (add_new (add_new (board 3 3) FreeMonster 1 1 5) StickyBox 1 0 5) 0%nat =
    Ok (Some true, add_new (add_new (board 3 3) FreeMonster 1 1 5) StickyBox 1 0 5) /\
  exists r w',
    step 1 board_patrol_walled 0%nat = Ok (r, w') /\
    (0%nat ∉ _actors w') /\
    _delay_count (obj w' 0%nat) = _delay_count (obj board_patrol_walled 0%nat).
Proof.
  split; [|split].
  - apply (step_throttle_gates_movement_only 0
             (add_new (board 3 3) FreeMonster 1 1 5) 0%nat eq_refl);
      first [reflexivity | vm_compute; discriminate].
  - apply (step_throttle_gates_movement_only 0
             (add_new (add_new (board 3 3) FreeMonster 1 1 5) StickyBox 1 0 5)
             0%nat eq_refl); reflexivity.
  - apply (step_throttle_gates_movement_only 0 board_patrol_walled 0%nat eq_refl).
    + reflexivity.
    + apply (bool_decide_unpack _). vm_compute. exact I.
    + apply (bool_decide_unpack _). vm_compute. exact I.
    + apply (bool_decide_unpack _). vm_compute. exact I.
Defined.

(** ** C2: one entity per cell *)

Lemma lookup_consistent_single_occupancy w :
  lookup_consistent w <-> single_occupancy w.
Proof.
  unfold lookup_consistent, single_occupancy. rewrite Forall_forall. split.
  - intros H a b Ha Hb Hab.
    pose proof (H a Ha) as Hga. pose proof (H b Hb) as Hgb.
    unfold get_position in Hab. injection Hab as Hx Hy.
    rewrite Hx, Hy in Hga. congruence.
  - intros H a Ha.
    destruct (get_actor w (_x (obj w a)) (_y (obj w a))) as [b|] eqn:Hg.
    + apply get_actor_Some in Hg as [Hb Hpos]. f_equal.
      apply (H b a Hb Ha). by rewrite Hpos.
    + exfalso. by apply (proj1 (get_actor_None w _ _) Hg a Ha).
Qed.

(** A change that lists no new entity and moves none keeps the cells
    apart. *)
Lemma single_occupancy_kept w w' :
  _actors w' ⊆ _actors w ->
  (forall a, get_position w' a = get_position w a) ->
  single_occupancy w -> single_occupancy w'.
Proof.
  intros Hsub Hpos H a b Ha Hb. rewrite !Hpos.
  apply H; by apply Hsub.
Qed.

(** Moving an entity to a cell where the lookup finds nothing keeps the
    cells apart: this is the guard in front of every [Actor.move] of
    [KeyboardPlayer.move], [Box.move] and [FreeMonster.move]. *)
Lemma single_occupancy_relocate w self x y :
  single_occupancy w -> get_actor w x y = None ->
  single_occupancy (set_position w self x y).
Proof.
  intros H Hfree a b Ha Hb.
  change (_actors (set_position w self x y)) with (_actors w) in Ha, Hb.
  rewrite !get_position_set_position.
  pose proof (proj1 (get_actor_None w x y) Hfree) as Hnone.
  destruct (decide (self = a)) as [<-|Hna];
    destruct (decide (self = b)) as [<-|Hnb]; try done.
  - intros Heq. by destruct (Hnone b Hb).
  - intros Heq. by destruct (Hnone a Ha).
  - by apply H.
Qed.

Lemma single_occupancy_set_dead w a d :
  single_occupancy w -> single_occupancy (set_dead w a d).
Proof.
  apply single_occupancy_kept; [done|]. intros b. apply get_position_set_dead.
Qed.

Lemma single_occupancy_set_dx w a d :
  single_occupancy w -> single_occupancy (set_dx w a d).
Proof.
  apply single_occupancy_kept; [done|]. intros b. apply get_position_set_dx.
Qed.

Lemma single_occupancy_set_dy w a d :
  single_occupancy w -> single_occupancy (set_dy w a d).
Proof.
  apply single_occupancy_kept; [done|]. intros b. apply get_position_set_dy.
Qed.

Lemma single_occupancy_set_delay_count w a c :
  single_occupancy w -> single_occupancy (set_delay_count w a c).
Proof.
  apply single_occupancy_kept; [done|].
  intros b. apply get_position_set_delay_count.
Qed.

Lemma single_occupancy_set_last_event w a e :
  single_occupancy w -> single_occupancy (set_last_event w a e).
Proof.
  apply single_occupancy_kept; [done|]. intros b.
  unfold get_position, set_last_event. rewrite obj_set_obj.
  destruct (decide (a = b)); by subst.
Qed.

Lemma single_occupancy_remove_actor w a w' :
  single_occupancy w -> remove_actor w a = Ok w' -> single_occupancy w'.
Proof.
  intros H Hrem. apply remove_actor_Ok in Hrem as [Hl Ho].
  apply (single_occupancy_kept w); [|by unfold get_position, obj; rewrite Ho|done].
  by apply (list_remove_subseteq a).
Qed.

Lemma delay_Ok w self b w' :
  delay w self = Ok (b, w') ->
  w' = set_delay_count w self
         ((_delay_count (obj w self) + 1) `mod` _delay (obj w self)).
Proof.
  unfold delay. destruct (_delay (obj w self) =? 0); [done|].
  by intros [= _ <-].
Qed.

Lemma kind_of_set_delay_count w a c b :
  kind_of (set_delay_count w a c) b = kind_of w b.
Proof.
  unfold kind_of, set_delay_count. rewrite obj_set_obj.
  destruct (decide (a = b)); by subst.
Qed.

(** *** The calls the program makes *)

Lemma isinstance_Wall k : isinstance k Wall = true <-> k = Wall.
Proof. destruct k; split; (done || discriminate). Qed.

Lemma zero_direction k dx dy :
  1 <= k -> 0 = k * dx -> 0 = k * dy -> (dx, dy) = (0, 0).
Proof. intros Hk Hx Hy. f_equal; nia. Qed.

(** A pusher hands its own direction on to an occupant that is not a
    wall. *)
Lemma program_call_push w occupant self dx dy :
  is_pusher (kind_of w self) = true ->
  isinstance (kind_of w occupant) Wall = false ->
  program_call w occupant self dx dy.
Proof.
  intros Hp Hw. split.
  - intros Hk. apply isinstance_Wall in Hk. congruence.
  - intros Hk ->. rewrite Hk in Hp. discriminate Hp.
Qed.

(** What the pusher learns from the push it delegated: nothing off its
    ray has been displaced, and when the direction is not [(0, 0)] it has
    not been displaced itself. *)
Lemma push_frame w self occupant dx dy w1 :
  get_position w occupant = (_x (obj w self) + dx, _y (obj w self) + dy) ->
  move_frame w occupant dx dy w1 ->
  ((dx, dy) ≠ (0, 0) -> get_position w1 self = get_position w self) /\
  forall a, a ≠ self -> ~ ahead w self dx dy a ->
    get_position w1 a = get_position w a.
Proof.
  intros Hocc [_ Hf]. injection Hocc as Hox Hoy. split.
  - intros Hd. apply Hf.
    + intros ->. apply Hd. apply (zero_direction 1); lia.
    + intros _ (k & Hk & Hx & Hy). apply Hd.
      apply (zero_direction (k + 1)); lia.
  - intros a Ha Hna. apply Hf.
    + intros ->. apply Hna. exists 1. split; [lia|]. split; lia.
    + intros _ (k & Hk & Hx & Hy). apply Hna.
      exists (k + 1). split; [lia|]. split; lia.
Qed.

Lemma move_frame_refl w self dx dy : move_frame w self dx dy w.
Proof. by split. Qed.

Lemma move_frame_relocate w self dx dy x y :
  move_frame w self dx dy (set_position w self x y).
Proof.
  split; [done|]. intros a Ha _. rewrite get_position_set_position.
  by rewrite decide_False.
Qed.

(** The frame of a pusher, once its delegated push has returned [w1]
    and the pusher has done something to itself only. *)
Lemma move_frame_after_push w self dx dy w1 w' :
  is_pusher (kind_of w self) = true ->
  _actors w1 ⊆ _actors w ->
  (forall a, a ≠ self -> ~ ahead w self dx dy a ->
     get_position w1 a = get_position w a) ->
  _actors w' = _actors w1 ->
  (forall a, a ≠ self -> get_position w' a = get_position w1 a) ->
  move_frame w self dx dy w'.
Proof.
  intros Hp Hl1 Hf1 Hl' Hf'. split; [by rewrite Hl'|].
  intros a Ha Hna. rewrite Hf' by done. apply Hf1; [done | by apply Hna].
Qed.

Lemma get_position_set_position_ne w self x y a :
  a ≠ self -> get_position (set_position w self x y) a = get_position w a.
Proof. intros. rewrite get_position_set_position. by rewrite decide_False. Qed.

(** The part [KeyboardPlayer.move] and [Box.move] share: the push that
    is handed on to the occupant leaves the cells apart, the pusher in
    place and the entities off its ray untouched. *)
Lemma delegated_push call_move w self dx dy occupant r1 w1 :
  move_keeps call_move ->
  is_pusher (kind_of w self) = true ->
  single_occupancy w ->
  get_actor w (_x (obj w self) + dx) (_y (obj w self) + dy) = Some occupant ->
  isinstance (kind_of w occupant) Wall = false ->
  call_move w occupant self dx dy = Ok (r1, w1) ->
  single_occupancy w1 /\
  _actors w1 ⊆ _actors w /\
  ((dx, dy) ≠ (0, 0) -> get_position w1 self = get_position w self) /\
  forall a, a ≠ self -> ~ ahead w self dx dy a ->
    get_position w1 a = get_position w a.
Proof.
  intros IH Hp Hw Hocc Hwall Hnested.
  destruct (IH _ _ _ _ _ _ _ Hw
              (program_call_push _ _ _ dx dy Hp Hwall) Hnested)
    as [Hw1 Hf1].
  apply get_actor_Some in Hocc as [_ Hpos].
  destruct (push_frame w self occupant dx dy w1 Hpos Hf1) as [Hself Hrest].
  destruct Hf1 as [Hl1 _]. done.
Qed.

(** The [Actor.move] that ends a push.  With a direction other than
    [(0, 0)] the pusher steps into the cell it has just found empty;
    with [(0, 0)] it stays where it is. *)
Lemma single_occupancy_step_in w self dx dy w1 :
  single_occupancy w1 ->
  ((dx, dy) ≠ (0, 0) -> get_position w1 self = get_position w self) ->
  get_actor w1 (_x (obj w self) + dx) (_y (obj w self) + dy) = None ->
  single_occupancy
    (set_position w1 self (_x (obj w1 self) + dx) (_y (obj w1 self) + dy)).
Proof.
  intros Hw1 Hself Hfree.
  destruct (decide ((dx, dy) = (0, 0))) as [[= -> ->]|Hd].
  - apply (single_occupancy_kept w1); [done| |done].
    intros a. rewrite get_position_set_position.
    destruct (decide (self = a)) as [<-|]; [|done].
    unfold get_position. f_equal; lia.
  - specialize (Hself Hd). injection Hself as -> ->.
    by apply single_occupancy_relocate.
Qed.

Lemma KeyboardPlayer_move_keeps call_move w self other dx dy r w' :
  move_keeps call_move ->
  kind_of w self = KeyboardPlayer ->
  single_occupancy w ->
  KeyboardPlayer_move call_move w self other dx dy = Ok (r, w') ->
  single_occupancy w' /\ move_frame w self dx dy w'.
Proof.
  intros IH Hk Hw. unfold KeyboardPlayer_move, Actor_move.
  assert (is_pusher (kind_of w self) = true) as Hp by (by rewrite Hk).
  destruct (is_in_bounds w _ _);
    [|intros [= _ <-]; split; [done | apply move_frame_refl]].
  destruct (get_actor w _ _) as [occupant|] eqn:Hocc;
    [|intros [= _ <-]; split;
      [by apply single_occupancy_relocate | apply move_frame_relocate]].
  destruct (isinstance (kind_of w occupant) Wall) eqn:Hwall; cbn [negb].
  - cbn [mbind result_bind]. rewrite Hocc.
    destruct (isinstance (kind_of w occupant) Monster); intros [= _ <-].
    + split; [by apply single_occupancy_set_dead|].
      split; [done|]. intros a _ _. apply get_position_set_dead.
    + split; [done | apply move_frame_refl].
  - destruct (call_move w occupant self dx dy) as [[r1 w1]| |] eqn:Hnested;
      [|done..].
    cbn [mbind result_bind].
    destruct (delegated_push _ _ _ _ _ _ _ _ IH Hp Hw Hocc Hwall Hnested)
      as (Hw1 & Hl1 & Hself & Hrest).
    destruct (get_actor w1 _ _) as [a|] eqn:Hocc1; cbn [mbind result_bind].
    + rewrite Hocc1.
      destruct (isinstance (kind_of w1 a) Monster); intros [= _ <-].
      * split; [by apply single_occupancy_set_dead|].
        apply (move_frame_after_push _ _ _ _ w1); try done.
        intros b _. apply get_position_set_dead.
      * split; [done|].
        by apply (move_frame_after_push _ _ _ _ w1).
    + intros [= _ <-]. split.
      * by apply (single_occupancy_step_in w).
      * apply (move_frame_after_push _ _ _ _ w1); try done.
        intros b Hb. by apply get_position_set_position_ne.
Qed.

Lemma Box_move_keeps call_move w self other dx dy r w' :
  move_keeps call_move ->
  isinstance (kind_of w self) Box = true ->
  single_occupancy w ->
  Box_move call_move w self other dx dy = Ok (r, w') ->
  single_occupancy w' /\ move_frame w self dx dy w'.
Proof.
  intros IH Hk Hw. unfold Box_move, Actor_move.
  assert (is_pusher (kind_of w self) = true) as Hp.
  { unfold is_pusher. rewrite Hk. apply orb_true_r. }
  destruct (is_in_bounds w _ _);
    [|intros [= _ <-]; split; [done | apply move_frame_refl]].
  destruct (get_actor w _ _) as [occupant|] eqn:Hocc;
    [|intros [= _ <-]; split;
      [by apply single_occupancy_relocate | apply move_frame_relocate]].
  destruct (isinstance (kind_of w occupant) Wall) eqn:Hwall; cbn [negb];
    [intros [= _ <-]; split; [done | apply move_frame_refl]|].
  destruct (call_move w occupant self dx dy) as [[r1 w1]| |] eqn:Hnested;
    [|done..].
  cbn [mbind result_bind].
  destruct (delegated_push _ _ _ _ _ _ _ _ IH Hp Hw Hocc Hwall Hnested)
    as (Hw1 & Hl1 & Hself & Hrest).
  destruct (get_actor w1 _ _) as [a|] eqn:Hocc1; intros [= _ <-].
  - split; [done|]. by apply (move_frame_after_push _ _ _ _ w1).
  - cbn [snd]. split.
    + by apply (single_occupancy_step_in w).
    + apply (move_frame_after_push _ _ _ _ w1); try done.
      intros b Hb. by apply get_position_set_position_ne.
Qed.

Lemma only_self_moved_refl w self : only_self_moved w self w.
Proof. by split. Qed.

Lemma only_self_moved_trans w self w1 w2 :
  only_self_moved w self w1 -> only_self_moved w1 self w2 ->
  only_self_moved w self w2.
Proof.
  intros [Hl1 Hp1] [Hl2 Hp2]. split; [by etrans|].
  intros a Ha. by rewrite Hp2, Hp1.
Qed.

Lemma only_self_moved_same w self w' :
  _actors w' ⊆ _actors w ->
  (forall a, get_position w' a = get_position w a) ->
  only_self_moved w self w'.
Proof. intros Hl Hp. split; [done|]. intros a _. apply Hp. Qed.

Lemma only_self_moved_frame w self dx dy w' :
  only_self_moved w self w' -> move_frame w self dx dy w'.
Proof. intros [Hl Hp]. split; [done|]. intros a Ha _. by apply Hp. Qed.

Lemma move_frame_hostile w self dx dy w' :
  is_pusher (kind_of w self) = false ->
  move_frame w self dx dy w' -> only_self_moved w self w'.
Proof.
  intros Hk [Hl Hp]. split; [done|]. intros a Ha. apply Hp; [done|].
  intros Hpush. rewrite Hpush in Hk. discriminate Hk.
Qed.

Lemma Monster_move_keeps w self other dx dy r w' :
  single_occupancy w ->
  (other = self -> dx = _dx (obj w self) /\ dy = _dy (obj w self)) ->
  Monster_move w self other dx dy = Ok (r, w') ->
  single_occupancy w' /\ only_self_moved w self w'.
Proof.
  intros Hw Hargs. unfold Monster_move.
  destruct (decide (other = self)) as [->|Hne];
    [|rewrite bool_decide_eq_false_2 by done; intros [= _ <-];
      split; [done | apply only_self_moved_refl]].
  destruct (Hargs eq_refl) as [-> ->].
  rewrite bool_decide_eq_true_2 by done. cbn [negb].
  assert (forall w0 d, single_occupancy w0 /\ only_self_moved w self w0 ->
            single_occupancy (set_dx w0 self d) /\
            only_self_moved w self (set_dx w0 self d)) as Hdx.
  { intros w0 d [H1 H2]. split; [by apply single_occupancy_set_dx|].
    apply (only_self_moved_trans _ _ w0); [done|].
    apply only_self_moved_same; [done|]. intros a. apply get_position_set_dx. }
  assert (forall w0 d, single_occupancy w0 /\ only_self_moved w self w0 ->
            single_occupancy (set_dy w0 self d) /\
            only_self_moved w self (set_dy w0 self d)) as Hdy.
  { intros w0 d [H1 H2]. split; [by apply single_occupancy_set_dy|].
    apply (only_self_moved_trans _ _ w0); [done|].
    apply only_self_moved_same; [done|]. intros a. apply get_position_set_dy. }
  assert (forall w0 a, single_occupancy w0 /\ only_self_moved w self w0 ->
            single_occupancy (set_dead w0 a true) /\
            only_self_moved w self (set_dead w0 a true)) as Hdead.
  { intros w0 a [H1 H2]. split; [by apply single_occupancy_set_dead|].
    apply (only_self_moved_trans _ _ w0); [done|].
    apply only_self_moved_same; [done|]. intros b. apply get_position_set_dead. }
  pose proof (conj Hw (only_self_moved_refl w self)) as H0.
  destruct (is_in_bounds_x w _) eqn:Hbx; cbn [negb];
    (match goal with
     | |- context [is_in_bounds_y ?w0 ?y] =>
         destruct (is_in_bounds_y w0 y) eqn:Hby
     end); cbn [negb];
    (destruct (get_actor w _ _) as [a|] eqn:Hocc;
     [match goal with
      | |- context [isinstance ?k KeyboardPlayer] =>
          destruct (isinstance k KeyboardPlayer)
      end; cbn [negb]; intros [= _ <-];
      repeat first [apply Hdead | apply Hdy | apply Hdx]; exact H0
     |]);
    intros [= _ <-];
    repeat first [apply Hdy | apply Hdx]; try exact H0.
  split; [by apply single_occupancy_relocate|].
  split; [done|]. intros a Ha. by apply get_position_set_position_ne.
Qed.

Lemma FreeMonster_move_keeps call_step w self other dx dy r w' :
  step_keeps call_step ->
  isinstance (kind_of w self) Monster = true ->
  single_occupancy w ->
  FreeMonster_move call_step w self other dx dy = Ok (r, w') ->
  single_occupancy w' /\ only_self_moved w self w'.
Proof.
  intros IH Hk Hw. unfold FreeMonster_move, Actor_move.
  destruct (bool_decide (other = self)); cbn [negb];
    [|intros [= _ <-]; split; [done | apply only_self_moved_refl]].
  destruct (is_in_bounds w _ _); cbn [negb].
  - destruct (get_actor w _ _) as [a|] eqn:Hocc.
    + destruct (isinstance (kind_of w a) KeyboardPlayer); cbn [negb].
      * intros [= _ <-]. split; [by apply single_occupancy_set_dead|].
        apply only_self_moved_same; [done|].
        intros b. apply get_position_set_dead.
      * destruct (call_step w self) as [[r1 w1]| |] eqn:Hcall; [|done..].
        cbn [mbind result_bind]. intros [= _ <-].
        destruct (IH _ _ _ _ Hw Hcall) as [Hw1 Hf]. split; [done|].
        by apply Hf.
    + intros [= _ <-]. split; [by apply single_occupancy_relocate|].
      split; [done|]. intros a Ha. by apply get_position_set_position_ne.
  - destruct (call_step w self) as [[r1 w1]| |] eqn:Hcall; [|done..].
    cbn [mbind result_bind]. intros [= _ <-].
    destruct (IH _ _ _ _ Hw Hcall) as [Hw1 Hf]. split; [done|].
    by apply Hf.
Qed.

Lemma Ripper_move_keeps call_step w self other dx dy r w' :
  step_keeps call_step ->
  isinstance (kind_of w self) Monster = true ->
  single_occupancy w ->
  Ripper_move call_step w self other dx dy = Ok (r, w') ->
  single_occupancy w' /\ only_self_moved w self w'.
Proof. apply FreeMonster_move_keeps. Qed.

Lemma only_self_moved_remove_actor w self a w' :
  remove_actor w a = Ok w' -> only_self_moved w self w'.
Proof.
  intros Hrem. apply remove_actor_Ok in Hrem as [Hl Ho].
  apply only_self_moved_same; [by apply (list_remove_subseteq a)|].
  intros b. unfold get_position, obj. by rewrite Ho.
Qed.

Lemma Monster_step_keeps call_move w self r w' :
  move_keeps call_move ->
  kind_of w self = Monster ->
  single_occupancy w ->
  Monster_step call_move w self = Ok (r, w') ->
  single_occupancy w' /\ only_self_moved w self w'.
Proof.
  intros IH Hk Hw. unfold Monster_step.
  destruct (negb (Monster_is_dead w self) && negb (Monster_is_stuck w self)).
  - destruct (delay w self) as [[wrapped w1]| |] eqn:Hd; [|done..].
    cbn [mbind result_bind]. apply delay_Ok in Hd. subst w1.
    set (w1 := set_delay_count w self _).
    assert (single_occupancy w1 /\ only_self_moved w self w1) as [Hw1 Hf1].
    { split; [by apply single_occupancy_set_delay_count|].
      apply only_self_moved_same; [done|].
      intros a. apply get_position_set_delay_count. }
    destruct wrapped; cbn [negb]; [|by intros [= _ <-]].
    destruct (call_move w1 self self _ _) as [[r2 w2]| |] eqn:Hcall; [|done..].
    cbn [mbind result_bind]. intros [= _ <-].
    assert (kind_of w1 self = Monster) as Hk1
      by (unfold w1; by rewrite kind_of_set_delay_count).
    assert (program_call w1 self self (_dx (obj w1 self)) (_dy (obj w1 self)))
      as Hpc.
    { split; [by rewrite Hk1 | done]. }
    destruct (IH _ _ _ _ _ _ _ Hw1 Hpc Hcall) as [Hw2 Hf2].
    split; [done|]. apply (only_self_moved_trans _ _ w1); [done|].
    apply (move_frame_hostile _ _ _ _ _ (f_equal is_pusher Hk1) Hf2).
  - destruct (Monster_is_stuck w self && negb (Monster_is_dead w self)).
    + intros [= _ <-]. split; [done | apply only_self_moved_refl].
    + destruct (remove_actor w self) as [w1| |] eqn:Hrem; [|done..].
      cbn [mbind result_bind]. intros [= _ <-].
      split; [by eapply single_occupancy_remove_actor|].
      by eapply only_self_moved_remove_actor.
Qed.

Lemma isinstance_FreeMonster k :
  isinstance k FreeMonster = true ->
  k ≠ Wall /\ k ≠ Monster /\ is_pusher k = false.
Proof. by destruct k. Qed.

(** The part [FreeMonster.step] and [Ripper.step] share: wait, or draw a
    direction and ask oneself to move. *)
Lemma wander_keeps call_move w self (v : option bool) r w' :
  move_keeps call_move ->
  isinstance (kind_of w self) FreeMonster = true ->
  single_occupancy w ->
  (delay w self ≫= fun '(wrapped, w1) =>
     if negb wrapped then Ok (None, w1)
     else
       let '(dx, w2) := random_choice w1 in
       let '(dy, w3) := random_choice w2 in
       call_move w3 self self dx dy ≫= fun '(_, w4) => Ok (v, w4))
  = Ok (r, w') ->
  single_occupancy w' /\ only_self_moved w self w'.
Proof.
  intros IH Hk Hw.
  destruct (delay w self) as [[wrapped w1]| |] eqn:Hd; [|done..].
  cbn [mbind result_bind]. apply delay_Ok in Hd. subst w1.
  set (w1 := set_delay_count w self _).
  assert (single_occupancy w1 /\ only_self_moved w self w1) as [Hw1 Hf1].
  { split; [by apply single_occupancy_set_delay_count|].
    apply only_self_moved_same; [done|].
    intros a. apply get_position_set_delay_count. }
  assert (kind_of w1 self = kind_of w self) as Hk1
    by (unfold w1; by rewrite kind_of_set_delay_count).
  destruct wrapped; cbn [negb]; [|by intros [= _ <-]].
  unfold random_choice. cbn [draw].
  set (w3 := mkWorld _ _ _ _ _ _ _ _ _ _ _ _ _).
  assert (single_occupancy w3 /\ only_self_moved w1 self w3 /\
          kind_of w3 self = kind_of w1 self) as (Hw3 & Hf3 & Hk3).
  { split; [|split].
    - by apply (single_occupancy_kept w1).
    - by apply only_self_moved_same.
    - done. }
  match goal with
  | |- context [call_move w3 self self ?x ?y] => set (dx := x); set (dy := y)
  end.
  destruct (call_move w3 self self dx dy) as [[r4 w4]| |] eqn:Hcall; [|done..].
  cbn [mbind result_bind]. intros [= _ <-].
  rewrite <- Hk1, <- Hk3 in Hk.
  destruct (isinstance_FreeMonster _ Hk) as (Hnw & Hnm & Hnp).
  assert (program_call w3 self self dx dy) as Hpc.
  { by split. }
  destruct (IH _ _ _ _ _ _ _ Hw3 Hpc Hcall) as [Hw4 Hf4].
  split; [done|]. apply (only_self_moved_trans _ _ w1); [done|].
  apply (only_self_moved_trans _ _ w3); [done|].
  exact (move_frame_hostile _ _ _ _ _ Hnp Hf4).
Qed.

Lemma FreeMonster_step_keeps call_move w self r w' :
  move_keeps call_move ->
  isinstance (kind_of w self) FreeMonster = true ->
  single_occupancy w ->
  FreeMonster_step call_move w self = Ok (r, w') ->
  single_occupancy w' /\ only_self_moved w self w'.
Proof.
  intros IH Hk Hw. unfold FreeMonster_step.
  destruct (negb (Monster_is_dead w self) && negb (Monster_is_stuck w self)).
  - by apply wander_keeps.
  - destruct (Monster_is_stuck w self && negb (Monster_is_dead w self)).
    + intros [= _ <-]. split; [done | apply only_self_moved_refl].
    + destruct (remove_actor w self) as [w1| |] eqn:Hrem; [|done..].
      cbn [mbind result_bind]. intros [= _ <-].
      split; [by eapply single_occupancy_remove_actor|].
      by eapply only_self_moved_remove_actor.
Qed.

Lemma remove_if_sticky_Ok w a w' :
  remove_if_sticky w a = Ok w' ->
  _actors w' ⊆ _actors w /\ objs w' = objs w.
Proof.
  unfold remove_if_sticky.
  destruct (isinstance (kind_of w a) StickyBox); [|by intros [= <-]].
  intros Hrem. apply remove_actor_Ok in Hrem as [Hl Ho].
  split; [by apply (list_remove_subseteq a) | done].
Qed.

Lemma for_actors_remove_if_sticky_Ok fuel i w w' :
  for_actors remove_if_sticky fuel i w = Ok w' ->
  _actors w' ⊆ _actors w /\ objs w' = objs w.
Proof.
  revert i w. induction fuel as [|fuel IH]; intros i w; [done|].
  cbn [for_actors].
  destruct (_actors w !! i) as [a|]; [|by intros [= <-]].
  destruct (remove_if_sticky w a) as [w1| |] eqn:Hbody;
    cbn [mbind result_bind]; [|done..].
  intros Hloop. apply IH in Hloop as [Hl Ho].
  apply remove_if_sticky_Ok in Hbody as [Hl1 Ho1].
  split; [by etrans | congruence].
Qed.

Lemma Ripper_step_keeps call_move w self r w' :
  move_keeps call_move ->
  isinstance (kind_of w self) FreeMonster = true ->
  single_occupancy w ->
  Ripper_step call_move w self = Ok (r, w') ->
  single_occupancy w' /\ only_self_moved w self w'.
Proof.
  intros IH Hk Hw. unfold Ripper_step.
  destruct (negb (Monster_is_dead w self) && negb (Monster_is_stuck w self)).
  - by apply wander_keeps.
  - destruct (Monster_is_stuck w self && negb (Monster_is_dead w self)).
    + intros [= _ <-]. split; [done | apply only_self_moved_refl].
    + destruct (remove_actor w self) as [w1| |] eqn:Hrem; [|done..].
      cbn [mbind result_bind].
      destruct (for_actors _ _ _ w1) as [w2| |] eqn:Hloop; [|done..].
      cbn [mbind result_bind]. intros [= _ <-].
      apply for_actors_remove_if_sticky_Ok in Hloop as [Hl Ho].
      assert (only_self_moved w1 self w2) as Hf2.
      { apply only_self_moved_same; [done|].
        intros a. unfold get_position, obj. by rewrite Ho. }
      split.
      * apply (single_occupancy_kept w1); [done| |].
        -- intros a. unfold get_position, obj. by rewrite Ho.
        -- by eapply single_occupancy_remove_actor.
      * apply (only_self_moved_trans _ _ w1); [|done].
        by eapply only_self_moved_remove_actor.
Qed.

Lemma KeyboardPlayer_step_keeps call_move w self r w' :
  move_keeps call_move ->
  kind_of w self = KeyboardPlayer ->
  single_occupancy w ->
  KeyboardPlayer_step call_move w self = Ok (r, w') ->
  single_occupancy w'.
Proof.
  intros IH Hk Hw. unfold KeyboardPlayer_step.
  destruct (_last_event (obj w self)) as [k|]; [|by intros [= _ <-]].
  match goal with
  | |- context [call_move ?w4 self self] => set (w0 := w4)
  end.
  assert (single_occupancy w0 /\ kind_of w0 self = KeyboardPlayer /\
          keys w0 = keys w) as (Hw0 & Hk0 & Hkeys).
  { subst w0. repeat destruct (decide _); by repeat split. }
  destruct (intent k (keys w)) as [[dx dy]|] eqn:Hi.
  - destruct (call_move w0 self self dx dy) as [[r1 w1]| |] eqn:Hcall; [|done..].
    cbn [mbind result_bind]. intros [= _ <-].
    apply single_occupancy_set_last_event.
    assert (program_call w0 self self dx dy) as Hpc
      by (split; by rewrite Hk0).
    by destruct (IH _ _ _ _ _ _ _ Hw0 Hpc Hcall) as [Hw1 _].
  - cbn [mbind result_bind]. intros [= _ <-].
    by apply single_occupancy_set_last_event.
Qed.

(** Every call the program makes, at every depth of delegation, keeps
    the cells apart. *)
Lemma move_step_keep fuel : move_keeps (move fuel) /\ step_keeps (step fuel).
Proof.
  induction fuel as [|n [IHm IHs]]; [by split|]. split.
  - intros w self other dx dy r w' Hw Hcall. rewrite move_S.
    pose proof Hcall as (Hnw & Hargs).
    destruct (kind_of w self) eqn:Hk; try done.
    + by apply KeyboardPlayer_move_keeps.
    + apply Box_move_keeps; by rewrite ?Hk.
    + apply Box_move_keeps; by rewrite ?Hk.
    + intros Hm. apply Monster_move_keeps in Hm as [? ?]; [|done|by auto].
      split; [done | by apply only_self_moved_frame].
    + intros Hm. apply FreeMonster_move_keeps in Hm as [? ?];
        [|done|by rewrite Hk|done].
      split; [done | by apply only_self_moved_frame].
    + intros Hm. apply FreeMonster_move_keeps in Hm as [? ?];
        [|done|by rewrite Hk|done].
      split; [done | by apply only_self_moved_frame].
    + intros Hm. apply FreeMonster_move_keeps in Hm as [? ?];
        [|done|by rewrite Hk|done].
      split; [done | by apply only_self_moved_frame].
    + intros Hm. apply Ripper_move_keeps in Hm as [? ?];
        [|done|by rewrite Hk|done].
      split; [done | by apply only_self_moved_frame].
  - intros w self r w' Hw. rewrite step_S. unfold step_frame.
    destruct (kind_of w self) eqn:Hk.
    + intros Hs. split; [|done].
      by apply (KeyboardPlayer_step_keeps (move n) w self r w').
    + by intros [= _ <-].
    + by intros [= _ <-].
    + by intros [= _ <-].
    + intros Hs. apply Monster_step_keeps in Hs as [? ?]; done.
    + intros Hs. apply FreeMonster_step_keeps in Hs as [? ?];
        [done..|by rewrite Hk|done].
    + intros Hs. apply FreeMonster_step_keeps in Hs as [? ?];
        [done..|by rewrite Hk|done].
    + intros Hs. apply FreeMonster_step_keeps in Hs as [? ?];
        [done..|by rewrite Hk|done].
    + intros Hs. apply Ripper_step_keeps in Hs as [? ?];
        [done..|by rewrite Hk|done].
Qed.

(** On [board_patrol_box] the patrol's [move(self, 0, 1)] finds the
    cell in front of its heading free and lands on the box; on
    [board_wall_box] the [move] that [Wall] inherits from [Actor] puts
    the wall on the box. *)
Lemma every_move_keeps_fails :
  ~ every_move_keeps Monster /\ ~ every_move_keeps Wall.
Proof.
  split; intros H.
  - assert (single_occupancy board_patrol_box) as Hw.
    { apply lookup_consistent_single_occupancy.
      apply (bool_decide_unpack _). vm_compute. exact I. }
    pose proof (H 1%nat board_patrol_box 0%nat 0%nat 0 1 true
                  (set_position board_patrol_box 0%nat 0 1) eq_refl Hw eq_refl
                  0%nat 1%nat) as Hc.
    assert (0%nat = 1%nat) as Heq; [|discriminate Heq].
    apply Hc; [apply (bool_decide_unpack _); vm_compute; exact I..|reflexivity].
  - assert (single_occupancy board_wall_box) as Hw.
    { apply lookup_consistent_single_occupancy.
      apply (bool_decide_unpack _). vm_compute. exact I. }
    pose proof (H 1%nat board_wall_box 0%nat 1%nat 0 1 true
                  (set_position board_wall_box 0%nat 0 1) eq_refl Hw eq_refl
                  0%nat 1%nat) as Hc.
    assert (0%nat = 1%nat) as Heq; [|discriminate Heq].
    apply Hc; [apply (bool_decide_unpack _); vm_compute; exact I..|reflexivity].
Qed.

(** C2, as the code has it. The calls the program makes keep one entity
    per cell, and the lookup keeps finding every listed entity at its
    recorded position: the player or a box asked to move by anybody in
    any direction, a hostile asked by anybody else, a wanderer asking
    itself in any direction, and a patrol asking itself with its stored
    heading. *)
Theorem program_moves_keep_single_occupancy fuel w self other dx dy r w' :
  single_occupancy w ->
  program_call w self other dx dy ->
  move fuel w self other dx dy = Ok (r, w') ->
  single_occupancy w' /\ lookup_consistent w'.
Proof.
  intros Hw Hcall Hm.
  destruct (proj1 (move_step_keep fuel) _ _ _ _ _ _ _ Hw Hcall Hm) as [Hw' _].
  split; [done | by apply lookup_consistent_single_occupancy].
Qed.

(** The player of [board_player_boxes] pushes the two boxes to the
    right; the call returns and the cells are still apart. *)
Lemma program_moves_keep_single_occupancy_witness :
  exists r w',
    move 3 board_player_boxes 0%nat 0%nat 1 0 = Ok (r, w') /\
    single_occupancy w' /\ lookup_consistent w'.
Proof.
  destruct (returns_Ok (move 3 board_player_boxes 0%nat 0%nat 1 0))
    as [[r w'] E]; [vm_compute; reflexivity|].
  exists r, w'. split; [exact E|].
  apply (program_moves_keep_single_occupancy 3 board_player_boxes
           0%nat 0%nat 1 0 r w'); [| |exact E].
  - apply lookup_consistent_single_occupancy.
    apply (bool_decide_unpack _). vm_compute. exact I.
  - split; [vm_compute; discriminate|].
    intros Hk; vm_compute in Hk; discriminate Hk.
Defined.

(** ** C1: the player pushes a line of boxes *)

Lemma is_in_bounds_between w x y dx dy m k :
  is_in_bounds w x y = true ->
  is_in_bounds w (x + m * dx) (y + m * dy) = true ->
  0 <= k <= m ->
  is_in_bounds w (x + k * dx) (y + k * dy) = true.
Proof.
  unfold is_in_bounds, is_in_bounds_x, is_in_bounds_y.
  rewrite !andb_true_iff, !Z.leb_le, !Z.ltb_lt.
  intros [[? ?] [? ?]] [[? ?] [? ?]] [? ?].
  assert (0 <= k * dx <= m * dx \/ m * dx <= k * dx <= 0) as Hx
    by (destruct (Z.le_gt_cases 0 dx); [left | right]; nia).
  assert (0 <= k * dy <= m * dy \/ m * dy <= k * dy <= 0) as Hy
    by (destruct (Z.le_gt_cases 0 dy); [left | right]; nia).
  lia.
Qed.

Lemma move_Box fuel w self other dx dy :
  isinstance (kind_of w self) Box = true ->
  move (S fuel) w self other dx dy = Box_move (move fuel) w self other dx dy.
Proof. intros Hk. rewrite move_S. by destruct (kind_of w self). Qed.

Lemma isinstance_Box_not_Wall k :
  isinstance k Box = true -> isinstance k Wall = false.
Proof. by destruct k. Qed.

Lemma isinstance_Box_not_Monster k :
  isinstance k Box = true -> isinstance k Monster = false.
Proof. by destruct k. Qed.

Lemma not_pushable k :
  isinstance k Box = false -> k ≠ KeyboardPlayer ->
  isinstance k Wall = true \/ isinstance k Monster = true.
Proof. destruct k; try done; (by left) || (by right). Qed.

Section push_line.
Variables (w : World) (dx dy : Z).
Hypothesis direction : (dx, dy) ≠ (0, 0).
Hypothesis apart : single_occupancy w.

(** The boxes of a line stand on the ray, at distinct distances. *)
Lemma box_line_elem x y bs a :
  box_line w x y dx dy bs = true -> a ∈ bs ->
  a ∈ _actors w /\
  exists k, 1 <= k <= Z.of_nat (length bs) /\
    get_position w a = (x + k * dx, y + k * dy).
Proof.
  revert x y. induction bs as [|b bs IH]; intros x y; [by intros _ ?%elem_of_nil|].
  cbn [box_line]. rewrite !andb_true_iff, bool_decide_eq_true.
  intros [[Hb _] Hrest] [->|Hin]%elem_of_cons.
  - apply get_actor_Some in Hb as [Hin Hpos]. split; [done|].
    exists 1. split; [cbn [length]; lia|]. rewrite Hpos. f_equal; lia.
  - destruct (IH _ _ Hrest Hin) as (Ha & k & Hk & Hpos). split; [done|].
    exists (k + 1). split; [cbn [length]; lia|]. rewrite Hpos. f_equal; lia.
Qed.

(** An entity at the head of the line is not one of its boxes. *)
Lemma box_line_head x y bs a :
  box_line w x y dx dy bs = true -> get_position w a = (x, y) -> a ∉ bs.
Proof.
  intros Hl Ha Hin.
  destruct (box_line_elem _ _ _ _ Hl Hin) as (_ & k & Hk & Hpos).
  rewrite Ha in Hpos. injection Hpos as Hx Hy.
  apply direction, (zero_direction k); lia.
Qed.

(** Once the line in front of [(x, y)] has been pushed, the first
    cell of the line is empty. *)
Lemma pushed_frees_first_cell x y b bs w1 :
  box_line w x y dx dy (b :: bs) = true ->
  pushed w w1 dx dy (b :: bs) ->
  get_actor w1 (x + dx) (y + dy) = None.
Proof.
  intros Hl [Hact Hpos]. apply get_actor_None. intros a Ha.
  rewrite Hact in Ha. rewrite Hpos.
  destruct (bool_decide_reflect (a ∈ b :: bs)) as [Hin|Hnin].
  - destruct (box_line_elem _ _ _ _ Hl Hin) as (_ & k & Hk & Hp).
    injection Hp as Hx Hy. rewrite Hx, Hy. intros [= Hx' Hy'].
    apply direction, (zero_direction k); lia.
  - intros Hp. apply Hnin.
    cbn [box_line] in Hl.
    apply andb_true_iff in Hl as [[Hb _]%andb_true_iff _].
    apply bool_decide_eq_true in Hb.
    apply get_actor_Some in Hb as [Hbin Hbpos].
    rewrite (apart a b Ha Hbin) by congruence. by left.
Qed.

Lemma pushed_cons x y a bs w1 :
  box_line w x y dx dy bs = true ->
  get_position w a = (x, y) ->
  pushed w w1 dx dy bs ->
  pushed w
    (set_position w1 a (_x (obj w1 a) + dx) (_y (obj w1 a) + dy))
    dx dy (a :: bs).
Proof.
  intros Hl Ha [Hact Hpos].
  pose proof (box_line_head _ _ _ _ Hl Ha) as Hnin.
  pose proof (Hpos a) as Hpa.
  rewrite bool_decide_eq_false_2 in Hpa by done.
  unfold get_position in Hpa. injection Hpa as Hx Hy.
  split; [done|]. intros c. rewrite get_position_set_position.
  destruct (decide (a = c)) as [<-|Hne].
  - rewrite bool_decide_eq_true_2 by (by left). by rewrite Hx, Hy.
  - rewrite Hpos.
    destruct (bool_decide_reflect (c ∈ bs)) as [Hin|Hnc].
    + by rewrite bool_decide_eq_true_2 by (by right).
    + rewrite bool_decide_eq_false_2; [done|].
      intros [->|?]%elem_of_cons; done.
Qed.

(** A box with a line of boxes behind it and a free cell on the board
    behind the line: the push goes through, and the box and the line
    have all shifted. *)
Lemma push_line_moves bs : forall fuel b other x y,
  get_position w b = (x, y) ->
  isinstance (kind_of w b) Box = true ->
  box_line w x y dx dy bs = true ->
  (forall k, 1 <= k <= Z.of_nat (length bs) + 1 ->
     is_in_bounds w (x + k * dx) (y + k * dy) = true) ->
  get_actor w (x + (Z.of_nat (length bs) + 1) * dx)
              (y + (Z.of_nat (length bs) + 1) * dy) = None ->
  (length bs < fuel)%nat ->
  exists r w',
    move fuel w b other dx dy = Ok (r, w') /\ pushed w w' dx dy (b :: bs).
Proof.
  induction bs as [|b' bs IH]; intros fuel b other x y Hb Hk Hl Hin Hfree Hfuel;
    (destruct fuel as [|fuel]; [lia|]); rewrite move_Box by done;
    unfold Box_move, Actor_move; injection Hb as Hx Hy; rewrite Hx, Hy;
    pose proof (Hin 1 ltac:(lia)) as Hin1;
    rewrite !Z.mul_1_l in Hin1; rewrite Hin1.
  - cbn [length] in Hfree.
    replace ((Z.of_nat 0 + 1) * dx) with dx in Hfree by lia.
    replace ((Z.of_nat 0 + 1) * dy) with dy in Hfree by lia.
    rewrite Hfree. eexists _, _. split; [done|].
    rewrite <- Hx, <- Hy.
    apply (pushed_cons x y); [done | by rewrite <- Hx, <- Hy | by split].
  - pose proof Hl as Hl0. cbn [box_line] in Hl.
    apply andb_true_iff in Hl as [[Hocc Hk']%andb_true_iff Hl].
    apply bool_decide_eq_true in Hocc. rewrite Hocc.
    rewrite (isinstance_Box_not_Wall _ Hk'). cbn [negb].
    pose proof (get_actor_Some _ _ _ _ Hocc) as [_ Hb'].
    destruct (IH fuel b' b (x + dx) (y + dy) Hb' Hk' Hl)
      as (r1 & w1 & Hm & Hp).
    { intros k Hk1.
      replace (x + dx + k * dx) with (x + (k + 1) * dx) by lia.
      replace (y + dy + k * dy) with (y + (k + 1) * dy) by lia.
      apply Hin. cbn [length]. lia. }
    { rewrite <- Hfree. cbn [length]. f_equal; lia. }
    { cbn [length] in Hfuel. lia. }
    rewrite Hm. cbn [mbind result_bind].
    rewrite (pushed_frees_first_cell x y b' bs w1 Hl0 Hp).
    eexists _, _. split; [done|]. cbn [snd].
    apply (pushed_cons x y); [done | | done].
    unfold get_position. by rewrite Hx, Hy.
Qed.

(** The same line when the cell behind it is off the board or holds
    something that is neither a box nor a player: nothing happens. *)
Lemma push_line_blocked bs : forall fuel b other x y,
  get_position w b = (x, y) ->
  isinstance (kind_of w b) Box = true ->
  box_line w x y dx dy bs = true ->
  far_free w (x + (Z.of_nat (length bs) + 1) * dx)
             (y + (Z.of_nat (length bs) + 1) * dy) = false ->
  (forall o,
     get_actor w (x + (Z.of_nat (length bs) + 1) * dx)
                 (y + (Z.of_nat (length bs) + 1) * dy) = Some o ->
     isinstance (kind_of w o) Box = false /\ kind_of w o ≠ KeyboardPlayer) ->
  (length bs + 1 < fuel)%nat ->
  move fuel w b other dx dy = Ok (false, w).
Proof.
  induction bs as [|b' bs IH]; intros fuel b other x y Hb Hk Hl Hfar Hblock Hfuel;
    (destruct fuel as [|fuel]; [lia|]); rewrite move_Box by done;
    unfold Box_move, Actor_move; injection Hb as Hx Hy; rewrite Hx, Hy.
  - cbn [length] in Hfar, Hblock.
    replace ((Z.of_nat 0 + 1) * dx) with dx in Hfar, Hblock by lia.
    replace ((Z.of_nat 0 + 1) * dy) with dy in Hfar, Hblock by lia.
    unfold far_free in Hfar.
    destruct (is_in_bounds w (x + dx) (y + dy)); [|done].
    destruct (get_actor w (x + dx) (y + dy)) as [o|] eqn:Hocc;
      [|by rewrite bool_decide_eq_true_2 in Hfar].
    destruct (Hblock o eq_refl) as [Hnb Hnp].
    destruct (isinstance (kind_of w o) Wall) eqn:Hwall; cbn [negb]; [done|].
    destruct (not_pushable _ Hnb Hnp) as [Hw|Hm]; [congruence|].
    destruct fuel as [|fuel]; [cbn [length] in Hfuel; lia|].
    rewrite hostile_declines_push; [|done|].
    + cbn [mbind result_bind]. by rewrite Hocc.
    + intros ->. rewrite (isinstance_Box_not_Monster _ Hk) in Hm.
      discriminate Hm.
  - cbn [box_line] in Hl.
    apply andb_true_iff in Hl as [[Hocc Hk']%andb_true_iff Hl].
    apply bool_decide_eq_true in Hocc.
    destruct (is_in_bounds w (x + dx) (y + dy)); [|done].
    rewrite Hocc, (isinstance_Box_not_Wall _ Hk'). cbn [negb].
    pose proof (get_actor_Some _ _ _ _ Hocc) as [_ Hb'].
    rewrite (IH fuel b' b (x + dx) (y + dy) Hb' Hk' Hl).
    + cbn [mbind result_bind]. by rewrite Hocc.
    + rewrite <- Hfar. cbn [length]. f_equal; lia.
    + intros o Ho. apply Hblock. rewrite <- Ho. cbn [length]. f_equal; lia.
    + cbn [length] in Hfuel. lia.
Qed.
End push_line.

(** C1. The player, standing on the board, is asked to move in one of
    the eight directions, with a line of [N >= 1] boxes in front of it;
    the line ends where the boxes end, so the cell past its far end holds
    no box (and no player). With fuel for the [N + 1] nested calls and
    the refusal of a hostile, [move] returns, and
    - if the far cell is on the board and empty, it returns [True], the
      player and the [N] boxes have each shifted by one cell in the
      direction of the push, and nothing else has moved;
    - otherwise it returns [False] and the world is unchanged.
    So the line and the player shift exactly when the far cell is on
    the board and empty. *)
Theorem player_pushes_line fuel w self other dx dy b bs :
  kind_of w self = KeyboardPlayer ->
  (dx, dy) ≠ (0, 0) ->
  single_occupancy w ->
  is_in_bounds w (_x (obj w self)) (_y (obj w self)) = true ->
  box_line w (_x (obj w self)) (_y (obj w self)) dx dy (b :: bs) = true ->
  (forall o,
     get_actor w (far_cell w self dx dy (b :: bs)).1
                 (far_cell w self dx dy (b :: bs)).2 = Some o ->
     isinstance (kind_of w o) Box = false /\ kind_of w o ≠ KeyboardPlayer) ->
  (length (b :: bs) + 1 < fuel)%nat ->
  exists r w',
    move fuel w self other dx dy = Ok (r, w') /\
    (far_free w (far_cell w self dx dy (b :: bs)).1
                (far_cell w self dx dy (b :: bs)).2 = true ->
     r = true /\ pushed w w' dx dy (self :: b :: bs)) /\
    (far_free w (far_cell w self dx dy (b :: bs)).1
                (far_cell w self dx dy (b :: bs)).2 = false ->
     r = false /\ w' = w) /\
    (line_shifted w w' dx dy (self :: b :: bs) <->
     far_free w (far_cell w self dx dy (b :: bs)).1
                (far_cell w self dx dy (b :: bs)).2 = true).
Proof.
  intros Hk Hd Hw Hself Hl Hblock Hfuel.
  set (x := _x (obj w self)) in *. set (y := _y (obj w self)) in *.
  unfold far_cell in *. cbn [fst snd length] in *. fold x y in Hblock |- *.
  set (n := Z.of_nat (S (length bs))) in *.
  assert (n = Z.of_nat (length bs) + 1) as Hn by (unfold n; lia).
  pose proof Hl as Hl0. cbn [box_line] in Hl.
  apply andb_true_iff in Hl as [[Hocc Hkb]%andb_true_iff Hl].
  apply bool_decide_eq_true in Hocc.
  pose proof (get_actor_Some _ _ _ _ Hocc) as [_ Hb].
  destruct fuel as [|fuel]; [lia|].
  assert (exists r w',
            move (S fuel) w self other dx dy = Ok (r, w') /\
            (far_free w (x + (n + 1) * dx) (y + (n + 1) * dy) = true ->
             r = true /\ pushed w w' dx dy (self :: b :: bs)) /\
            (far_free w (x + (n + 1) * dx) (y + (n + 1) * dy) = false ->
             r = false /\ w' = w)) as (r & w' & Hm & Hyes & Hno).
  { rewrite move_S, Hk. unfold KeyboardPlayer_move, Actor_move. fold x y.
    destruct (far_free w (x + (n + 1) * dx) (y + (n + 1) * dy)) eqn:Hfar.
    - unfold far_free in Hfar. apply andb_true_iff in Hfar as [Hfb Hfe].
      apply bool_decide_eq_true in Hfe.
      assert (forall k, 0 <= k <= n + 1 ->
                is_in_bounds w (x + k * dx) (y + k * dy) = true) as Hin.
      { intros k Hk0. by apply (is_in_bounds_between w x y dx dy (n + 1)). }
      pose proof (Hin 1 ltac:(lia)) as Hin1.
      rewrite !Z.mul_1_l in Hin1. rewrite Hin1, Hocc.
      rewrite (isinstance_Box_not_Wall _ Hkb). cbn [negb].
      destruct (push_line_moves w dx dy Hd Hw bs fuel b self
                  (x + dx) (y + dy) Hb Hkb Hl)
        as (r1 & w1 & Hm1 & Hp1).
      { intros k Hk1.
        replace (x + dx + k * dx) with (x + (k + 1) * dx) by lia.
        replace (y + dy + k * dy) with (y + (k + 1) * dy) by lia.
        apply Hin. lia. }
      { rewrite <- Hfe. f_equal; lia. }
      { cbn [length] in Hfuel. lia. }
      rewrite Hm1. cbn [mbind result_bind].
      rewrite (pushed_frees_first_cell w dx dy Hd Hw x y b bs w1 Hl0 Hp1).
      cbn [mbind result_bind]. eexists _, _. split; [done|].
      split; [|done]. intros _. split; [done|].
      by apply (pushed_cons w dx dy Hd x y).
    - destruct (is_in_bounds w (x + dx) (y + dy));
        [|eexists _, _; split; [done|]; by split].
      rewrite Hocc, (isinstance_Box_not_Wall _ Hkb). cbn [negb].
      rewrite (push_line_blocked w dx dy bs fuel b self (x + dx) (y + dy)
                 Hb Hkb Hl).
      + cbn [mbind result_bind]. rewrite Hocc. cbn [mbind result_bind].
        rewrite Hocc, (isinstance_Box_not_Monster _ Hkb).
        eexists _, _. split; [done|]. by split.
      + rewrite <- Hfar. f_equal; lia.
      + intros o Ho. apply Hblock. rewrite <- Ho. f_equal; lia.
      + cbn [length] in Hfuel. lia. }
  exists r, w'. split; [done|]. split; [done|]. split; [done|].
  destruct (far_free w (x + (n + 1) * dx) (y + (n + 1) * dy)).
  - split; [done|]. intros _. destruct (Hyes eq_refl) as [_ [_ Hp]].
    intros a Ha. rewrite Hp. by rewrite bool_decide_eq_true_2.
  - destruct (Hno eq_refl) as [_ ->]. split; [|done].
    intros Hs. exfalso. apply Hd.
    specialize (Hs self ltac:(by left)). unfold get_position in Hs.
    injection Hs as Hx Hy. f_equal; lia.
Qed.

(** On [board_player_boxes] the push goes through and everybody ends
    one cell to the right; with the wall behind the line nothing moves. *)
Lemma player_pushes_line_witness :
  (exists w',
     move 4 board_player_boxes 0%nat 0%nat 1 0 = Ok (true, w') /\
     get_position w' 0%nat = (1, 0) /\
     get_position w' 1%nat = (2, 0) /\
     get_position w' 2%nat = (3, 0)) /\
  move 4 board_player_boxes_wall 0%nat 0%nat 1 0 =
    Ok (false, board_player_boxes_wall).
Proof.
  split.
  - destruct (player_pushes_line 4 board_player_boxes 0%nat 0%nat 1 0
                1%nat [2%nat])
      as (r & w' & Hm & Hyes & _ & _).
    + reflexivity.
    + done.
    + apply lookup_consistent_single_occupancy.
      apply (bool_decide_unpack _). vm_compute. exact I.
    + reflexivity.
    + reflexivity.
    + intros o Ho. vm_compute in Ho. discriminate Ho.
    + vm_compute. lia.
    + destruct (Hyes eq_refl) as [-> [_ Hp]].
      exists w'. split; [exact Hm|].
      rewrite !Hp. repeat split.
  - destruct (player_pushes_line 4 board_player_boxes_wall 0%nat 0%nat 1 0
                1%nat [2%nat])
      as (r & w' & Hm & _ & Hno & _).
    + reflexivity.
    + done.
    + apply lookup_consistent_single_occupancy.
      apply (bool_decide_unpack _). vm_compute. exact I.
    + reflexivity.
    + reflexivity.
    + intros o Ho. vm_compute in Ho. injection Ho as <-.
      split; [reflexivity | vm_compute; discriminate].
    + vm_compute. lia.
    + destruct (Hno eq_refl) as [-> ->]. exact Hm.
Defined.

(** * Further properties of the code *)

(** ** The throttle *)

Lemma repeat_delay_count n : forall w self,
  _delay (obj w self) ≠ 0 ->
  exists w1,
    repeat_delay n w self = Ok w1 /\
    _delay (obj w1 self) = _delay (obj w self) /\
    _delay_count (obj w1 self) `mod` _delay (obj w self) =
      (_delay_count (obj w self) + Z.of_nat n) `mod` _delay (obj w self).
Proof.
  induction n as [|n IH]; intros w self Hd.
  - exists w. split; [done|]. split; [done|]. f_equal. lia.
  - cbn [repeat_delay]. unfold delay at 1.
    apply Z.eqb_neq in Hd as Hd'. rewrite Hd'. cbn [mbind result_bind].
    set (w1 := set_delay_count w self _).
    assert (_delay (obj w1 self) = _delay (obj w self)) as Hd1
      by (unfold w1, set_delay_count; by rewrite obj_set_obj_eq).
    assert (_delay_count (obj w1 self) =
            (_delay_count (obj w self) + 1) `mod` _delay (obj w self)) as Hc1
      by (unfold w1, set_delay_count; by rewrite obj_set_obj_eq).
    destruct (IH w1 self) as (w2 & Hr & Hd2 & Hc2); [by rewrite Hd1|].
    exists w2. split; [done|]. split; [congruence|].
    rewrite Hd1, Hc1 in Hc2. rewrite Hc2.
    rewrite Zplus_mod_idemp_l. f_equal. lia.
Qed.

(** X1. With a non-zero period [d] and the counter at [c], the call of
    [delay] that follows [n] earlier calls reports a wrap exactly when
    [d] divides [c + n + 1]: a hostile acts on every [d]-th chance. *)
Theorem delay_wraps_every_period n w self :
  _delay (obj w self) ≠ 0 ->
  exists w1 w2,
    repeat_delay n w self = Ok w1 /\
    delay w1 self =
      Ok ((_delay_count (obj w self) + Z.of_nat n + 1)
            `mod` _delay (obj w self) =? 0, w2).
Proof.
  intros Hd. destruct (repeat_delay_count n w self Hd) as (w1 & Hr & Hd1 & Hc1).
  exists w1. eexists. split; [done|]. unfold delay. rewrite Hd1.
  apply Z.eqb_neq in Hd as Hd'. rewrite Hd'.
  rewrite <- (Zplus_mod_idemp_l (_delay_count (obj w1 self))), Hc1.
  rewrite Zplus_mod_idemp_l. done.
Qed.

(** The wanderer of [board_wanderer] has period 5: its fifth call
    wraps, its fourth does not. *)
Lemma delay_wraps_every_period_witness :
  (exists w1 w2, repeat_delay 4 board_wanderer 0%nat = Ok w1 /\
                 delay w1 0%nat = Ok (true, w2)) /\
  (exists w1 w2, repeat_delay 3 board_wanderer 0%nat = Ok w1 /\
                 delay w1 0%nat = Ok (false, w2)).
Proof.
  split.
  - destruct (delay_wraps_every_period 4 board_wanderer 0%nat)
      as (w1 & w2 & H1 & H2); [vm_compute; discriminate|].
    exists w1, w2. split; [exact H1 | exact H2].
  - destruct (delay_wraps_every_period 3 board_wanderer 0%nat)
      as (w1 & w2 & H1 & H2); [vm_compute; discriminate|].
    exists w1, w2. split; [exact H1 | exact H2].
Defined.

(** X2. A hostile that is neither dead nor held and whose period is 0
    cannot take its step: the modulo in [delay] raises
    [ZeroDivisionError], whatever the class of the hostile. *)
Theorem step_zero_period_raises fuel w self :
  isinstance (kind_of w self) Monster = true ->
  Monster_is_dead w self = false ->
  Monster_is_stuck w self = false ->
  _delay (obj w self) = 0 ->
  step (S fuel) w self = Raise ZeroDivisionError.
Proof.
  intros Hk Hd Hs Hz. rewrite step_S.
  destruct (kind_of w self); try discriminate Hk;
    unfold Monster_step, FreeMonster_step, Ripper_step, delay;
    by rewrite Hd, Hs, Hz.
Qed.

Lemma step_zero_period_raises_witness :
  step 1 (add_new (board 3 3) Boss 1 1 0) 0%nat = Raise ZeroDivisionError.
Proof.
  apply (step_zero_period_raises 0 (add_new (board 3 3) Boss 1 1 0) 0%nat);
    reflexivity.
Defined.

(** ** Membership *)

Lemma list_remove_None a l : list_remove a l = None <-> a ∉ l.
Proof.
  induction l as [|b l IH]; simpl.
  - split; [intros _ ?%elem_of_nil; done | done].
  - destruct (decide (b = a)) as [->|Hne].
    + split; [done|]. intros H. destruct H. by left.
    + rewrite not_elem_of_cons. destruct (list_remove a l).
      * split; [done|]. intros [_ H]. by apply IH in H.
      * split; [|done]. intros _. split; [done | by apply IH].
Qed.

(** X3. [remove_actor] returns exactly when the actor is listed in
    [_actors] and, for a hostile, in [_monsters] too; in every other
    case a [list.remove] raises [ValueError]. *)
Theorem remove_actor_returns_iff_listed w a :
  (a ∈ _actors w /\
   (isinstance (kind_of w a) Monster = true -> a ∈ _monsters w) ->
   exists w', remove_actor w a = Ok w') /\
  (~ (a ∈ _actors w /\
      (isinstance (kind_of w a) Monster = true -> a ∈ _monsters w)) ->
   remove_actor w a = Raise ValueError).
Proof.
  unfold remove_actor. split.
  - intros [Hin Hm]. destruct (list_remove_elem_of _ _ Hin) as [l Hl].
    destruct (isinstance (kind_of w a) Monster).
    + destruct (list_remove_elem_of _ _ (Hm eq_refl)) as [ms Hms].
      rewrite Hms. cbn [_actors set_monsters]. rewrite Hl. by eexists.
    + rewrite Hl. by eexists.
  - intros Hnot. destruct (isinstance (kind_of w a) Monster).
    + destruct (list_remove a (_monsters w)) as [ms|] eqn:Hms; [|done].
      cbn [_actors set_monsters].
      destruct (list_remove a (_actors w)) as [l|] eqn:Hl; [|done].
      destruct Hnot. split.
      * apply dec_stable. intros Hn. apply list_remove_None in Hn. congruence.
      * intros _. apply dec_stable. intros Hn.
        apply list_remove_None in Hn. congruence.
    + destruct (list_remove a (_actors w)) as [l|] eqn:Hl; [|done].
      destruct Hnot. split; [|done].
      apply dec_stable. intros Hn. apply list_remove_None in Hn. congruence.
Qed.

(** The wanderer of [board_wanderer] can be removed; object 1, which
    was never added, cannot. *)
Lemma remove_actor_returns_iff_listed_witness :
  (exists w', remove_actor board_wanderer 0%nat = Ok w') /\
  remove_actor board_wanderer 1%nat = Raise ValueError.
Proof.
  split.
  - apply (proj1 (remove_actor_returns_iff_listed board_wanderer 0%nat)).
    split; [|intros _]; apply (bool_decide_unpack _); vm_compute; exact I.
  - apply (proj2 (remove_actor_returns_iff_listed board_wanderer 1%nat)).
    intros [Hin _]. apply (bool_decide_pack _) in Hin.
    vm_compute in Hin. exact Hin.
Defined.

Lemma list_remove_app_fresh a l : a ∉ l -> list_remove a (l ++ [a]) = Some l.
Proof.
  induction l as [|b l IH]; simpl.
  - intros _. by rewrite decide_True.
  - intros [Hne Hl]%not_elem_of_cons. rewrite decide_False by done.
    by rewrite IH.
Qed.

(** X4. Adding an actor that is not yet on the stage and removing it
    again gives back the stage as it was. *)
Theorem add_then_remove_actor w a :
  a ∉ _actors w -> a ∉ _monsters w ->
  remove_actor (add_actor w a) a = Ok w.
Proof.
  intros Ha Hm. unfold remove_actor, add_actor.
  destruct (isinstance (kind_of w a) Monster) eqn:Hk.
  - change (kind_of (set_actors _ _) a) with (kind_of w a). rewrite Hk.
    cbn [_monsters _actors set_actors set_monsters].
    rewrite list_remove_app_fresh by done.
    cbn [_actors set_monsters]. rewrite list_remove_app_fresh by done.
    by destruct w.
  - change (kind_of (set_actors _ _) a) with (kind_of w a). rewrite Hk.
    cbn [_actors set_actors]. rewrite list_remove_app_fresh by done.
    by destruct w.
Qed.

Lemma add_then_remove_actor_witness :
  remove_actor (add_actor (new_actor (board 3 3) Ripper 1 1 8).2 0%nat) 0%nat
  = Ok (new_actor (board 3 3) Ripper 1 1 8).2.
Proof.
  apply (add_then_remove_actor (new_actor (board 3 3) Ripper 1 1 8).2 0%nat);
    apply not_elem_of_nil.
Defined.

(** X5. After [add_actor] the lookup still answers with the actor it
    found before; only on a cell where it found nobody does it find the
    new actor, if that is where the new actor stands. *)
Theorem get_actor_add_actor w a x y :
  get_actor (add_actor w a) x y =
  match get_actor w x y with
  | Some b => Some b
  | None => if at_position w x y a then Some a else None
  end.
Proof.
  assert (forall l,
            find (at_position w x y) (l ++ [a]) =
            match find (at_position w x y) l with
            | Some b => Some b
            | None => if at_position w x y a then Some a else None
            end) as Hfind.
  { induction l as [|b l IH]; simpl; [done|].
    by destruct (at_position w x y b). }
  unfold get_actor, add_actor.
  destruct (isinstance (kind_of w a) Monster); apply Hfind.
Qed.

(** ** Immobilization *)

Lemma isinstance_StickyBox k : isinstance k StickyBox = true <-> k = StickyBox.
Proof. destruct k; split; (done || discriminate). Qed.

Lemma isinstance_Boss k : isinstance k Boss = true <-> k = Boss.
Proof. destruct k; split; (done || discriminate). Qed.

Lemma cardinal_stuck_moves dx dy : cardinal dx dy <-> (dx, dy) ∈ stuck_moves.
Proof.
  unfold cardinal, stuck_moves. rewrite !elem_of_cons, elem_of_nil. tauto.
Qed.

Lemma is_stuck_loop_true w self l :
  is_stuck_loop w self l = true <->
  kind_of w self ≠ Boss /\
  exists p a, p ∈ l /\ get_actor w p.1 p.2 = Some a /\ kind_of w a = StickyBox.
Proof.
  induction l as [|p l IH]; simpl.
  - split; [done|]. by intros [_ (p & a & ?%elem_of_nil & _)].
  - destruct (get_actor w p.1 p.2) as [a|] eqn:Ha.
    + destruct (isinstance (kind_of w a) StickyBox) eqn:Hs;
        destruct (isinstance (kind_of w self) Boss) eqn:Hb; simpl.
      * apply isinstance_Boss in Hb. rewrite IH. split; by intros [? _].
      * apply isinstance_StickyBox in Hs. split; [intros _|done].
        split; [intros ?%isinstance_Boss; congruence|].
        exists p, a. split; [by left | done].
      * rewrite IH. split; intros [Hk (q & b & Hq & Hb' & Hsb)]; (split; [done|]).
        -- exists q, b. split; [by right | done].
        -- apply elem_of_cons in Hq as [->|Hq]; [|by exists q, b].
           rewrite Ha in Hb'. injection Hb' as <-.
           apply isinstance_StickyBox in Hsb. congruence.
      * rewrite IH. split; intros [Hk (q & b & Hq & Hb' & Hsb)]; (split; [done|]).
        -- exists q, b. split; [by right | done].
        -- apply elem_of_cons in Hq as [->|Hq]; [|by exists q, b].
           rewrite Ha in Hb'. injection Hb' as <-.
           apply isinstance_StickyBox in Hsb. congruence.
    + simpl. rewrite IH.
      split; intros [Hk (q & b & Hq & Hb' & Hsb)]; (split; [done|]).
      * exists q, b. split; [by right | done].
      * apply elem_of_cons in Hq as [->|Hq]; [|by exists q, b].
        rewrite Ha in Hb'. discriminate Hb'.
Qed.

(** X6. [is_stuck] answers [True] exactly when the hostile is not a
    [Boss] and the lookup finds a sticky box on one of its four cardinal
    neighbours; the diagonals do not count, and neither do the bounds. *)
Theorem is_stuck_iff_sticky_neighbour w self :
  Monster_is_stuck w self = true <->
  kind_of w self ≠ Boss /\
  exists dx dy a,
    cardinal dx dy /\
    get_actor w (_x (obj w self) + dx) (_y (obj w self) + dy) = Some a /\
    kind_of w a = StickyBox.
Proof.
  unfold Monster_is_stuck. rewrite is_stuck_loop_true. split.
  - intros [Hk (p & a & Hp & Ha & Hs)]. split; [done|].
    apply list_elem_of_In, in_map_iff in Hp as ([dx dy] & <- & Hin).
    apply list_elem_of_In, cardinal_stuck_moves in Hin.
    by exists dx, dy, a.
  - intros [Hk (dx & dy & a & Hc & Ha & Hs)]. split; [done|].
    exists (_x (obj w self) + dx, _y (obj w self) + dy), a.
    split; [|done]. apply list_elem_of_In, in_map_iff. exists (dx, dy).
    split; [done|]. by apply list_elem_of_In, cardinal_stuck_moves.
Qed.

(** ** Pushes that are refused *)

Lemma is_pusher_cases k :
  is_pusher k = true -> k = KeyboardPlayer \/ isinstance k Box = true.
Proof. destruct k; try discriminate; (by left) || (by right). Qed.

(** X7. A wall stops every push: a player or a box whose target cell
    holds a wall returns [False] and nothing changes, on the board or
    off it. *)
Theorem push_against_wall_is_refused fuel w self other dx dy o :
  is_pusher (kind_of w self) = true ->
  get_actor w (_x (obj w self) + dx) (_y (obj w self) + dy) = Some o ->
  kind_of w o = Wall ->
  move (S fuel) w self other dx dy = Ok (false, w).
Proof.
  intros Hp Ho Hw.
  assert (isinstance (kind_of w o) Wall = true) as Hwall by (by rewrite Hw).
  assert (isinstance (kind_of w o) Monster = false) as Hmon by (by rewrite Hw).
  destruct (is_pusher_cases _ Hp) as [Hk|Hk].
  - rewrite move_S, Hk. unfold KeyboardPlayer_move.
    destruct (is_in_bounds w _ _); [|done].
    rewrite Ho, Hwall. cbn [negb mbind result_bind].
    by rewrite Ho, Hmon.
  - rewrite move_Box by done. unfold Box_move.
    destruct (is_in_bounds w _ _); [|done].
    by rewrite Ho, Hwall.
Qed.

Lemma push_against_wall_is_refused_witness :
  move 1 board_player_wall 0%nat 0%nat 1 0 = Ok (false, board_player_wall).
Proof.
  apply (push_against_wall_is_refused 0 board_player_wall 0%nat 0%nat 1 0 1%nat);
    reflexivity.
Defined.

(** X8. A box pushed against a hostile stays where it is: the hostile
    declines, the box returns [False] and nothing changes.  (Only the
    player pays for walking into a hostile.) *)
Theorem box_against_hostile_is_refused fuel w self other dx dy h :
  isinstance (kind_of w self) Box = true ->
  get_actor w (_x (obj w self) + dx) (_y (obj w self) + dy) = Some h ->
  isinstance (kind_of w h) Monster = true ->
  move (S (S fuel)) w self other dx dy = Ok (false, w).
Proof.
  intros Hk Ho Hh. rewrite move_Box by done. unfold Box_move.
  destruct (is_in_bounds w _ _); [|done].
  rewrite Ho, (isinstance_Monster_not_Wall _ Hh). cbn [negb].
  rewrite hostile_declines_push; [|done|].
  - cbn [mbind result_bind]. by rewrite Ho.
  - intros ->. rewrite (isinstance_Box_not_Monster _ Hk) in Hh.
    discriminate Hh.
Qed.

Lemma box_against_hostile_is_refused_witness :
  move 2 board_box_ripper 0%nat 1%nat 1 0 = Ok (false, board_box_ripper).
Proof.
  apply (box_against_hostile_is_refused 0 board_box_ripper 0%nat 1%nat 1 0 1%nat);
    reflexivity.
Defined.

(** ** Hostiles that run into something *)

Lemma obj_set_dx_dy w self d1 d2 :
  let w' := set_dy (set_dx w self d1) self d2 in
  _dx (obj w' self) = d1 /\ _dy (obj w' self) = d2 /\
  forall a, get_position w' a = get_position w a.
Proof.
  cbn zeta. split; [|split].
  - unfold set_dy, set_dx. by rewrite !obj_set_obj_eq.
  - unfold set_dy. by rewrite obj_set_obj_eq.
  - intros a. by rewrite get_position_set_dy, get_position_set_dx.
Qed.

Lemma dead_set_dx w a d b : dead (obj (set_dx w a d) b) = dead (obj w b).
Proof.
  unfold set_dx. rewrite obj_set_obj. destruct (decide (a = b)); by subst.
Qed.

Lemma dead_set_dy w a d b : dead (obj (set_dy w a d) b) = dead (obj w b).
Proof.
  unfold set_dy. rewrite obj_set_obj. destruct (decide (a = b)); by subst.
Qed.

(** X9. A patrol whose heading leads, on the board, to a cell where
    the lookup finds somebody does not relocate: it reverses both
    components of its heading and returns [True]; and when the one it
    found is the player, the player's [dead] flag is set. *)
Theorem patrol_runs_into_somebody fuel w self dx dy a :
  kind_of w self = Monster ->
  is_in_bounds w (_x (obj w self) + _dx (obj w self))
                 (_y (obj w self) + _dy (obj w self)) = true ->
  get_actor w (_x (obj w self) + _dx (obj w self))
              (_y (obj w self) + _dy (obj w self)) = Some a ->
  exists w',
    move (S fuel) w self self dx dy = Ok (true, w') /\
    (forall b, get_position w' b = get_position w b) /\
    _dx (obj w' self) = - _dx (obj w self) /\
    _dy (obj w' self) = - _dy (obj w self) /\
    (kind_of w a = KeyboardPlayer -> dead (obj w' a) = true) /\
    (kind_of w a ≠ KeyboardPlayer -> forall b, dead (obj w' b) = dead (obj w b)).
Proof.
  intros Hk Hb Ha. rewrite move_Monster by done. unfold Monster_move.
  rewrite bool_decide_eq_true_2 by done. cbn [negb].
  unfold is_in_bounds in Hb. apply andb_true_iff in Hb as [Hbx Hby].
  rewrite Hbx. cbn [negb]. rewrite Hby. cbn [negb]. rewrite Ha.
  destruct (obj_set_dx_dy w self (- _dx (obj w self)) (- _dy (obj w self)))
    as (Hdx & Hdy & Hpos).
  assert (_dy (obj (set_dx w self (- _dx (obj w self))) self) = _dy (obj w self))
    as Hdy0 by (unfold set_dx; by rewrite obj_set_obj_eq).
  rewrite Hdy0.
  destruct (isinstance (kind_of w a) KeyboardPlayer) eqn:Hka; cbn [negb].
  - apply isinstance_KeyboardPlayer in Hka. eexists. split; [done|].
    split; [intros b; by rewrite get_position_set_dead|].
    assert (a ≠ self) as Hne by (intros ->; congruence).
    unfold set_dead at 1 2. rewrite !obj_set_obj_ne by done.
    split; [done|]. split; [done|]. split; [|congruence].
    intros _. unfold set_dead. by rewrite obj_set_obj_eq.
  - eexists. split; [done|]. split; [done|]. split; [done|]. split; [done|].
    split; [intros Hp; rewrite Hp in Hka; discriminate Hka|].
    intros _ b. by rewrite dead_set_dy, dead_set_dx.
Qed.

Lemma patrol_runs_into_somebody_witness :
  exists w',
    move 1 board_patrol_player 0%nat 0%nat 1 1 = Ok (true, w') /\
    get_position w' 0%nat = (0, 0) /\
    _dx (obj w' 0%nat) = -1 /\ _dy (obj w' 0%nat) = -1 /\
    dead (obj w' 1%nat) = true.
Proof.
  destruct (patrol_runs_into_somebody 0 board_patrol_player 0%nat 1 1 1%nat)
    as (w' & Hm & Hpos & Hdx & Hdy & Hdead & _); [reflexivity..|].
  exists w'. split; [exact Hm|]. rewrite Hpos, Hdx, Hdy, (Hdead eq_refl).
  repeat split.
Defined.

(** X10. A wanderer (of any of the four classes) that asks itself to
    move onto the player's cell, on the board, sets the player's [dead]
    flag, returns [True] and stays where it is; nothing else changes. *)
Theorem wanderer_runs_into_player fuel w self dx dy p :
  isinstance (kind_of w self) FreeMonster = true ->
  is_in_bounds w (_x (obj w self) + dx) (_y (obj w self) + dy) = true ->
  get_actor w (_x (obj w self) + dx) (_y (obj w self) + dy) = Some p ->
  kind_of w p = KeyboardPlayer ->
  move (S fuel) w self self dx dy = Ok (true, set_dead w p true).
Proof.
  intros Hk Hb Ha Hp. rewrite move_S.
  destruct (kind_of w self); try discriminate Hk;
    unfold FreeMonster_move, Ripper_move;
    rewrite bool_decide_eq_true_2 by done; cbn [negb];
    by rewrite Hb, Ha, Hp.
Qed.

Lemma wanderer_runs_into_player_witness :
  move 1 board_boss_player 0%nat 0%nat 1 0 =
  Ok (true, set_dead board_boss_player 1%nat true).
Proof.
  apply (wanderer_runs_into_player 0 board_boss_player 0%nat 1 0 1%nat);
    reflexivity.
Defined.

(** ** Directions *)

(** X11. Whatever the last key and the keys held down, the direction
    [KeyboardPlayer.step] settles on, when it settles on one, is one of
    the eight unit displacements: never [(0, 0)]. *)
Theorem intent_is_a_neighbour k keys dx dy :
  intent k keys = Some (dx, dy) -> neighbour dx dy.
Proof.
  unfold intent, neighbour.
  repeat match goal with
  | |- context [if ?b then _ else _] => destruct b
  end; intros [= <- <-]; (split; [lia|split; [lia|done]]).
Qed.

Lemma intent_is_a_neighbour_witness : neighbour 1 (-1).
Proof.
  apply (intent_is_a_neighbour K_UP
           (fun k => bool_decide (k = K_UP \/ k = K_RIGHT)) 1 (-1)).
  reflexivity.
Defined.

(** X12. Asked to move by [(0, 0)], a player or a box that stands on
    the board, where the lookup finds it, asks itself again and again:
    no depth of recursion is enough for the call to return. *)
Theorem null_push_never_returns fuel : forall w self other,
  is_pusher (kind_of w self) = true ->
  is_in_bounds w (_x (obj w self)) (_y (obj w self)) = true ->
  get_actor w (_x (obj w self)) (_y (obj w self)) = Some self ->
  move fuel w self other 0 0 = OutOfFuel.
Proof.
  induction fuel as [|fuel IH]; intros w self other Hp Hb Ha; [done|].
  assert (isinstance (kind_of w self) Wall = false) as Hw
    by (by destruct (kind_of w self)).
  destruct (is_pusher_cases _ Hp) as [Hk|Hk].
  - rewrite move_S, Hk. unfold KeyboardPlayer_move.
    rewrite !Z.add_0_r, Hb, Ha, Hw. cbn [negb].
    by rewrite IH.
  - rewrite move_Box by done. unfold Box_move.
    rewrite !Z.add_0_r, Hb, Ha, Hw. cbn [negb].
    by rewrite IH.
Qed.

Lemma null_push_never_returns_witness :
  move 1000 board_player_wall 0%nat 0%nat 0 0 = OutOfFuel.
Proof.
  apply (null_push_never_returns 1000 board_player_wall 0%nat 0%nat);
    reflexivity.
Defined.

(** ** What the death of a ripper removes *)

Lemma list_remove_middle a pre rest :
  a ∉ pre -> list_remove a (pre ++ a :: rest) = Some (pre ++ rest).
Proof.
  induction pre as [|b pre IH]; simpl.
  - intros _. by rewrite decide_True.
  - intros [Hne Hpre]%not_elem_of_cons. rewrite decide_False by done.
    by rewrite IH.
Qed.

Lemma list_remove_keeps_NoDup a l l' :
  NoDup l -> list_remove a l = Some l' -> NoDup l'.
Proof.
  revert l'. induction l as [|b l IH]; intros l' Hnd; simpl; [done|].
  apply NoDup_cons in Hnd as [Hb Hnd].
  destruct (decide (b = a)) as [->|Hne]; [by intros [= <-]|].
  destruct (list_remove a l) as [r|] eqn:Hr; [|done]. intros [= <-].
  apply NoDup_cons. split; [|by apply IH].
  intros Hin. apply Hb. by apply (list_remove_subseteq a l r).
Qed.

(** The loop, started at index [length pre] on the list [pre ++ rest]. *)
Lemma for_actors_sweep sticky fuel : forall pre rest w,
  (forall a, isinstance (kind_of w a) StickyBox = sticky a) ->
  _actors w = pre ++ rest ->
  NoDup (pre ++ rest) ->
  (length rest < fuel)%nat ->
  exists w',
    for_actors remove_if_sticky fuel (length pre) w = Ok w' /\
    _actors w' = pre ++ sweep sticky rest /\
    objs w' = objs w /\ _monsters w' = _monsters w.
Proof.
  induction fuel as [|fuel IH]; intros pre rest w Hk Hl Hnd Hfuel; [lia|].
  cbn [for_actors]. rewrite Hl.
  destruct rest as [|a rest].
  - rewrite lookup_ge_None_2 by (rewrite length_app; simpl; lia).
    exists w. by rewrite Hl.
  - rewrite list_lookup_middle by done.
    cbn [sweep]. destruct (sticky a) eqn:Hs.
    + assert (isinstance (kind_of w a) Monster = false) as Hm.
      { apply isinstance_StickyBox_not_Monster. by rewrite Hk. }
      assert (a ∉ pre) as Ha.
      { apply NoDup_app in Hnd as (_ & Hd & _). intros Hin.
        apply (Hd a Hin). by left. }
      assert (remove_if_sticky w a = Ok (set_actors w (pre ++ rest))) as ->.
      { unfold remove_if_sticky, remove_actor.
        by rewrite Hk, Hs, Hm, Hl, (list_remove_middle _ _ _ Ha). }
      cbn [mbind result_bind].
      assert (NoDup (pre ++ rest)) as Hnd'.
      { apply (list_remove_keeps_NoDup a (pre ++ a :: rest)); [done|].
        by apply list_remove_middle. }
      destruct rest as [|b rest].
      * destruct fuel as [|fuel]; [simpl in Hfuel; lia|].
        cbn [for_actors _actors set_actors].
        rewrite lookup_ge_None_2 by (rewrite length_app; simpl; lia).
        eexists. split; [done|]. by rewrite !app_nil_r.
      * destruct (IH (pre ++ [b]) rest (set_actors w (pre ++ b :: rest)))
          as (w' & Hw' & Hl' & Ho & Hmo).
        -- done.
        -- cbn [_actors set_actors]. by rewrite <- app_assoc.
        -- by rewrite <- app_assoc.
        -- simpl in Hfuel. lia.
        -- rewrite length_app in Hw'. cbn [length] in Hw'.
           rewrite Nat.add_1_r in Hw'.
           exists w'. split; [done|]. rewrite Hl', <- app_assoc. done.
    + assert (remove_if_sticky w a = Ok w) as ->
        by (unfold remove_if_sticky; by rewrite Hk, Hs).
      cbn [mbind result_bind].
      destruct (IH (pre ++ [a]) rest w) as (w' & Hw' & Hl' & Ho & Hmo).
      * done.
      * by rewrite <- app_assoc.
      * by rewrite <- app_assoc.
      * simpl in Hfuel. lia.
      * rewrite length_app in Hw'. cbn [length] in Hw'.
        rewrite Nat.add_1_r in Hw'.
        exists w'. split; [done|]. rewrite Hl', <- app_assoc. done.
Qed.

(** X13. What exactly the death of a ripper removes.  When a dead
    ripper, listed once, takes its step, it is taken off both lists and
    the rest of [_actors] is swept once: every sticky box the loop looks
    at is removed, but the element after a removed one is never looked
    at, so of two sticky boxes in a row the second one stays. *)
Theorem Ripper_death_sweeps fuel w self l :
  kind_of w self = Ripper ->
  Monster_is_dead w self = true ->
  NoDup (_actors w) ->
  self ∈ _monsters w ->
  list_remove self (_actors w) = Some l ->
  exists w',
    step (S fuel) w self = Ok (None, w') /\
    _actors w' = sweep (fun a => isinstance (kind_of w a) StickyBox) l /\
    objs w' = objs w.
Proof.
  intros Hk Hd Hnd Hm Hl.
  destruct (list_remove_elem_of _ _ Hm) as [ms Hms].
  rewrite step_S, Hk. unfold Ripper_step.
  rewrite Hd. cbn [negb andb]. rewrite andb_false_r.
  unfold remove_actor. rewrite Hk.
  replace (isinstance Ripper Monster) with true by done.
  rewrite Hms. cbn [_actors set_monsters]. rewrite Hl.
  cbn [mbind result_bind _actors set_actors].
  destruct (for_actors_sweep (fun a => isinstance (kind_of w a) StickyBox)
              (S (length l)) [] l (set_actors (set_monsters w ms) l))
    as (w' & Hw' & Hl' & Ho & _).
  - done.
  - done.
  - by apply (list_remove_keeps_NoDup self (_actors w)).
  - lia.
  - cbn [length] in Hw'. rewrite Hw'. cbn [mbind result_bind].
    by exists w'.
Qed.

(** On [board_ripper_five] the five sticky boxes are listed in a row
    after the ripper: the first, the third and the fifth are removed,
    the second and the fourth stay. *)
Lemma Ripper_death_sweeps_witness :
  exists w',
    step 1 board_ripper_five 0%nat = Ok (None, w') /\
    _actors w' = [2; 4]%nat.
Proof.
  destruct (Ripper_death_sweeps 0 board_ripper_five 0%nat [1; 2; 3; 4; 5]%nat)
    as (w' & Hs & Hl & _).
  - reflexivity.
  - reflexivity.
  - apply (bool_decide_unpack _). vm_compute. exact I.
  - apply (bool_decide_unpack _). vm_compute. exact I.
  - reflexivity.
  - exists w'. split; [exact Hs|]. rewrite Hl. reflexivity.
Defined.

(** ** What [setup] builds *)

Lemma filter_agree (P Q : ref -> Prop)
    `{!forall a, Decision (P a)} `{!forall a, Decision (Q a)} (l : list ref) :
  (forall a, a ∈ l -> P a <-> Q a) -> filter P l = filter Q l.
Proof.
  induction l as [|b l IH]; intros Hpq; [done|].
  assert (filter P l = filter Q l) as Hl
    by (apply IH; intros a Ha; apply Hpq; by right).
  destruct (decide (P b)) as [Hp|Hp].
  - rewrite !filter_cons_True; [by rewrite Hl | by apply Hpq; [left|] | done].
  - rewrite !filter_cons_False; [done| |done].
    intros Hq. apply Hp. apply Hpq; [by left | done].
Qed.

Lemma cleared_laid_out w : cleared w -> laid_out w.
Proof.
  intros (Hl & Hm & Hw & Hh). unfold laid_out, fresh, single_occupancy,
    hostile_subset_exact, on_board_but_one. rewrite Hl, Hm.
  split; [by intros a ?%elem_of_nil|]. split; [constructor|].
  split; [by intros a b ?%elem_of_nil|]. split; [done|].
  split; [by intros a ?%elem_of_nil|]. done.
Qed.

Lemma grown_refl w : grown w w.
Proof. split; [done|]. split; [done|]. split; [done|]. exists []. by rewrite app_nil_r. Qed.

Lemma grown_trans w1 w2 w3 : grown w1 w2 -> grown w2 w3 -> grown w1 w3.
Proof.
  intros (Hn1 & Hp1 & Ho1 & l1 & Hl1) (Hn2 & Hp2 & Ho2 & l2 & Hl2).
  split; [lia|]. split; [congruence|]. split.
  - intros a Ha. rewrite Ho2 by lia. by apply Ho1.
  - exists (l1 ++ l2). by rewrite Hl2, Hl1, app_assoc.
Qed.

(** A new object, allocated at the next reference and put at the end
    of the lists: the common core of [add_new] and of the opening
    [set_player]. *)
Lemma laid_out_add w w1 o :
  laid_out w ->
  objs w1 = <[next_ref w := o]> (objs w) ->
  next_ref w1 = S (next_ref w) ->
  _actors w1 = _actors w -> _monsters w1 = _monsters w ->
  _width w1 = _width w -> _height w1 = _height w ->
  get_actor w (_x o) (_y o) = None ->
  (is_in_bounds w (_x o) (_y o) = true \/
   (kind o = Monster /\ (_x o, _y o) = (5, 20))) ->
  let w' := add_actor w1 (next_ref w) in
  laid_out w' /\
  _actors w' = _actors w ++ [next_ref w] /\
  (forall a, obj w' a = if decide (a = next_ref w) then o else obj w a) /\
  next_ref w' = S (next_ref w) /\
  (forall k, count_kind w' k =
             (count_kind w k + if decide (kind o = k) then 1 else 0)%nat).
Proof.
  intros (Hf & Hnd & Hso & Hhs & Hob & Hw & Hh) Ho Hn Hl Hm Hw1 Hh1 Hfree Hpos.
  set (r := next_ref w). cbn zeta.
  assert (forall a, obj (add_actor w1 r) a =
                    if decide (a = r) then o else obj w a) as Hobj.
  { intros a. unfold add_actor, obj.
    destruct (isinstance (kind_of w1 r) Monster);
      cbn [objs set_actors set_monsters];
      rewrite Ho; (destruct (decide (a = r)) as [->|Hne];
        [by rewrite lookup_total_insert_eq
        |by rewrite lookup_total_insert_ne]). }
  assert (_actors (add_actor w1 r) = _actors w ++ [r]) as Hact.
  { unfold add_actor. destruct (isinstance (kind_of w1 r) Monster);
      cbn [_actors set_actors set_monsters]; by rewrite Hl. }
  assert (kind_of w1 r = kind o) as Hkr.
  { unfold kind_of, obj. by rewrite Ho, lookup_total_insert_eq. }
  assert (_monsters (add_actor w1 r) =
          if isinstance (kind o) Monster then _monsters w ++ [r]
          else _monsters w) as Hmon.
  { unfold add_actor. rewrite Hkr. destruct (isinstance (kind o) Monster);
      cbn [_monsters set_actors set_monsters]; by rewrite Hm. }
  assert (next_ref (add_actor w1 r) = S r /\
          _width (add_actor w1 r) = 20 /\ _height (add_actor w1 r) = 20)
    as (Hn' & Hw' & Hh').
  { unfold add_actor. destruct (isinstance (kind_of w1 r) Monster);
      cbn [next_ref _width _height set_actors set_monsters];
      rewrite Hw1, Hh1, Hw, Hh; repeat split; exact Hn. }
  assert (forall a, a ∈ _actors w -> a ≠ r) as Hold.
  { intros a Ha ->. specialize (Hf r Ha). unfold r in Hf. lia. }
  assert (forall a, a ∈ _actors w ->
            obj (add_actor w1 r) a = obj w a) as Hsame.
  { intros a Ha. rewrite Hobj, decide_False; [done | by apply Hold]. }
  pose proof (proj1 (get_actor_None w _ _) Hfree) as Hnone.
  split; [|split; [done|split; [done|split; [done|]]]].
  - split; [|split; [|split; [|split; [|split; [|done]]]]].
    + intros a. rewrite Hact, Hn'. intros [Ha| ->%list_elem_of_singleton]%elem_of_app.
      * specialize (Hf a Ha). unfold r. lia.
      * lia.
    + rewrite Hact. apply NoDup_app. split; [done|]. split; [|apply NoDup_singleton].
      intros a Ha ->%list_elem_of_singleton. by apply (Hold r).
    + intros a b. rewrite Hact. unfold get_position.
      intros [Ha| ->%list_elem_of_singleton]%elem_of_app
             [Hb| ->%list_elem_of_singleton]%elem_of_app; try done.
      * rewrite !Hsame by done. by apply Hso.
      * rewrite Hsame by done. rewrite Hobj, decide_True by done.
        intros Heq. by destruct (Hnone a Ha).
      * rewrite (Hsame b) by done. rewrite Hobj, decide_True by done.
        intros Heq. by destruct (Hnone b Hb).
    + unfold hostile_subset_exact. rewrite Hmon, Hact, filter_app.
      assert (filter (fun a => isinstance (kind_of (add_actor w1 r) a) Monster = true)
                     (_actors w) = _monsters w) as ->.
      { rewrite Hhs. apply filter_agree. intros a Ha.
        unfold kind_of. by rewrite Hsame. }
      assert (kind_of (add_actor w1 r) r = kind o) as Hkr'
        by (unfold kind_of; by rewrite Hobj, decide_True).
      destruct (isinstance (kind o) Monster) eqn:Hk.
      * by rewrite filter_cons_True, filter_nil by (by rewrite Hkr').
      * rewrite filter_cons_False, filter_nil by (by rewrite Hkr', Hk).
        by rewrite app_nil_r.
    + intros a. rewrite Hact. unfold is_in_bounds, is_in_bounds_x,
        is_in_bounds_y, kind_of, get_position. rewrite Hw', Hh'.
      intros [Ha| ->%list_elem_of_singleton]%elem_of_app.
      * rewrite Hsame by done. specialize (Hob a Ha).
        unfold is_in_bounds, is_in_bounds_x, is_in_bounds_y, kind_of,
          get_position in Hob. by rewrite Hw, Hh in Hob.
      * rewrite Hobj, decide_True by done.
        unfold is_in_bounds, is_in_bounds_x, is_in_bounds_y in Hpos.
        by rewrite Hw, Hh in Hpos.
  - intros k. unfold count_kind. rewrite Hact, filter_app, length_app.
    f_equal.
    + f_equal. apply filter_agree. intros a Ha. unfold kind_of.
      by rewrite Hsame.
    + assert (kind_of (add_actor w1 r) r = kind o) as Hkr'
        by (unfold kind_of; by rewrite Hobj, decide_True).
      destruct (decide (kind o = k)) as [Hk|Hk].
      * by rewrite filter_cons_True, filter_nil by (by rewrite Hkr').
      * by rewrite filter_cons_False, filter_nil by (by rewrite Hkr').
Qed.

Lemma player_add_actor w a : _player (add_actor w a) = _player w.
Proof. unfold add_actor. by destruct (isinstance (kind_of w a) Monster). Qed.

Lemma free_after_add w w' o x y :
  fresh w ->
  _actors w' = _actors w ++ [next_ref w] ->
  (forall a, obj w' a = if decide (a = next_ref w) then o else obj w a) ->
  get_actor w x y = None -> (_x o, _y o) ≠ (x, y) ->
  get_actor w' x y = None.
Proof.
  intros Hf Hact Hobj Hnone Hne. apply get_actor_None. intros a.
  rewrite Hact. unfold get_position. rewrite Hobj.
  intros [Ha| ->%list_elem_of_singleton]%elem_of_app.
  - rewrite decide_False by (specialize (Hf a Ha); lia).
    by apply (proj1 (get_actor_None w x y) Hnone).
  - by rewrite decide_True.
Qed.

Lemma grown_after_add w w' o :
  _actors w' = _actors w ++ [next_ref w] ->
  (forall a, obj w' a = if decide (a = next_ref w) then o else obj w a) ->
  next_ref w' = S (next_ref w) -> _player w' = _player w ->
  grown w w'.
Proof.
  intros Hact Hobj Hn Hp. split; [lia|]. split; [done|]. split.
  - intros a Ha. rewrite Hobj. by rewrite decide_False by lia.
  - by exists [next_ref w].
Qed.

(** [ww.add_actor(C(icon, ww, x, y, delay))] on a free cell. *)
Lemma add_new_built w k x y d :
  laid_out w -> get_actor w x y = None ->
  (is_in_bounds w x y = true \/ (k = Monster /\ (x, y) = (5, 20))) ->
  let w' := add_new w k x y d in
  laid_out w' /\ grown w w' /\
  (forall k', count_kind w' k' =
              (count_kind w k' + if decide (k = k') then 1 else 0)%nat) /\
  (forall x' y', get_actor w x' y' = None -> (x, y) ≠ (x', y') ->
                 get_actor w' x' y' = None).
Proof.
  intros Hlo Hfree Hpos. cbn zeta.
  set (h := if isinstance k Monster then 1 else 0).
  change (add_new w k x y d)
    with (add_actor (snd (new_actor w k x y d)) (next_ref w)).
  destruct (laid_out_add w (snd (new_actor w k x y d))
              (mkActor k x y d 0 h h false None) Hlo)
    as (Hlo' & Hact & Hobj & Hn & Hc); try done.
  split; [done|]. split.
  - apply (grown_after_add _ _ _ Hact Hobj Hn). by rewrite player_add_actor.
  - split; [done|]. intros x' y' Hnone Hne.
    by apply (free_after_add _ _ _ _ _ (proj1 Hlo) Hact Hobj Hnone).
Qed.

Lemma randrange_same w n x w1 :
  random_randrange w n = Ok (x, w1) -> 0 <= x < n /\ w1 = snd (draw w).
Proof.
  unfold random_randrange. destruct (n <=? 0) eqn:Hn; [done|].
  apply Z.leb_gt in Hn. unfold draw. intros [= <- <-].
  split; [by apply Z.mod_pos_bound | done].
Qed.

Lemma randint_same w a b n w1 :
  random_randint w a b = Ok (n, w1) -> a <= n <= b /\ w1 = snd (draw w).
Proof.
  unfold random_randint. destruct (b <? a) eqn:Hn; [done|].
  apply Z.ltb_ge in Hn. unfold draw. intros [= <- <-].
  split; [|done].
  pose proof (Z.mod_pos_bound (rand w (rand_pos w)) (b - a + 1)). lia.
Qed.

Lemma draw_built w :
  laid_out w ->
  laid_out (snd (draw w)) /\ grown w (snd (draw w)) /\
  (forall k, count_kind (snd (draw w)) k = count_kind w k) /\
  (forall x y, get_actor (snd (draw w)) x y = get_actor w x y).
Proof.
  intros H. split; [exact H|]. split; [exact (grown_refl w)|]. done.
Qed.

(** One draw of a cell and the conditional placement. *)
Lemma place_built w k d b w' :
  laid_out w -> place w k d = Ok (b, w') ->
  laid_out w' /\ grown w w' /\
  (forall k', count_kind w' k' =
              (count_kind w k' +
               if b then if decide (k = k') then 1 else 0 else 0)%nat).
Proof.
  intros Hlo Hp. unfold place in Hp.
  apply bind_Ok in Hp as ([x w1] & E1 & Hp).
  apply bind_Ok in Hp as ([y w2] & E2 & Hp).
  apply randrange_same in E1 as [Hx ->].
  apply randrange_same in E2 as [Hy ->].
  destruct (draw_built w Hlo) as (Hlo1 & Hg1 & Hc1 & _).
  destruct (draw_built _ Hlo1) as (Hlo2 & Hg2 & Hc2 & _).
  pose proof (grown_trans _ _ _ Hg1 Hg2) as Hg.
  set (w2 := snd (draw (snd (draw w)))) in *.
  assert (get_width w = 20 /\ get_height (snd (draw w)) = 20) as [Hw Hh]
    by (split; apply Hlo).
  rewrite Hw in Hx. rewrite Hh in Hy.
  destruct (get_actor w2 x y) as [c|] eqn:Hget.
  - injection Hp as <- <-. split; [done|]. split; [done|].
    intros k'. rewrite Hc2, Hc1. lia.
  - injection Hp as <- <-.
    destruct (add_new_built w2 k x y d Hlo2 Hget) as (Hlo' & Hg' & Hc' & _).
    { left. unfold is_in_bounds, is_in_bounds_x, is_in_bounds_y.
      destruct Hlo2 as (_ & _ & _ & _ & _ & -> & ->).
      apply andb_true_iff. split; apply andb_true_iff;
        split; (apply Z.leb_le || apply Z.ltb_lt); lia. }
    split; [done|]. split; [by apply (grown_trans _ _ _ Hg)|].
    intros k'. rewrite Hc', Hc2, Hc1. done.
Qed.

Lemma place_times_built n : forall w k d w',
  laid_out w -> place_times n w k d = Ok w' ->
  laid_out w' /\ grown w w' /\
  (forall k', k' ≠ k -> count_kind w' k' = count_kind w k') /\
  (count_kind w' k <= count_kind w k + n)%nat.
Proof.
  induction n as [|n IH]; intros w k d w' Hlo Hp; cbn [place_times] in Hp.
  - injection Hp as <-. split; [done|]. split; [apply grown_refl|].
    split; [done|lia].
  - apply bind_Ok in Hp as ([b w1] & E1 & Hp).
    destruct (place_built _ _ _ _ _ Hlo E1) as (Hlo1 & Hg1 & Hc1).
    destruct (IH _ _ _ _ Hlo1 Hp) as (Hlo' & Hg' & Hc' & Hle).
    split; [done|]. split; [by apply (grown_trans _ _ _ Hg1)|]. split.
    + intros k' Hk. rewrite (Hc' k' Hk), Hc1.
      rewrite decide_False by done. destruct b; lia.
    + rewrite Hc1 in Hle. rewrite decide_True in Hle by done.
      destruct b; lia.
Qed.

Lemma place_boxes_built fuel : forall num w w',
  laid_out w -> place_boxes fuel num w = Ok w' ->
  laid_out w' /\ grown w w' /\
  (forall k', k' ≠ Box -> count_kind w' k' = count_kind w k') /\
  (num <= 100 ->
   Z.of_nat (count_kind w' Box) = Z.of_nat (count_kind w Box) + (100 - num)).
Proof.
  induction fuel as [|fuel IH]; intros num w w' Hlo Hp;
    cbn [place_boxes] in Hp; [done|].
  destruct (num <? 100) eqn:Hnum.
  - apply Z.ltb_lt in Hnum.
    apply bind_Ok in Hp as ([b w1] & E1 & Hp).
    destruct (place_built _ _ _ _ _ Hlo E1) as (Hlo1 & Hg1 & Hc1).
    destruct (IH _ _ _ Hlo1 Hp) as (Hlo' & Hg' & Hc' & Hbox).
    split; [done|]. split; [by apply (grown_trans _ _ _ Hg1)|]. split.
    + intros k' Hk. rewrite (Hc' k' Hk), Hc1.
      rewrite decide_False by done. destruct b; lia.
    + intros _. rewrite Hbox by (destruct b; lia). rewrite Hc1.
      rewrite decide_True by done. destruct b; lia.
  - apply Z.ltb_ge in Hnum. injection Hp as <-.
    split; [done|]. split; [apply grown_refl|]. split; [done|]. lia.
Qed.

(** Everything the chain of placements in [setup] establishes. *)
Lemma setup_built fuel w w' :
  cleared w -> setup fuel w = Ok w' ->
  laid_out w' /\
  (count_kind w' KeyboardPlayer = 1 /\ count_kind w' Monster = 3 /\
   count_kind w' Box = 100)%nat /\
  _player w' = Some (next_ref w) /\
  head (_actors w') = Some (next_ref w) /\
  kind_of w' (next_ref w) = KeyboardPlayer /\
  get_position w' (next_ref w) = (0, 0).
Proof.
  intros Hcl Hs.
  pose proof (cleared_laid_out w Hcl) as Hlo.
  assert (forall k, count_kind w k = 0%nat) as Hc
    by (intros k; unfold count_kind; by rewrite (proj1 Hcl)).
  assert (forall x y, get_actor w x y = None) as Hfree
    by (intros x y; unfold get_actor; by rewrite (proj1 Hcl)).
  assert (forall x y, 0 <= x < 20 -> 0 <= y < 20 ->
            forall v, _width v = 20 -> _height v = 20 ->
            is_in_bounds v x y = true) as Hin.
  { intros x y Hx Hy v Hw Hh.
    unfold is_in_bounds, is_in_bounds_x, is_in_bounds_y. rewrite Hw, Hh.
    apply andb_true_iff. split; apply andb_true_iff;
      split; (apply Z.leb_le || apply Z.ltb_lt); lia. }
  rewrite setup_unfold in Hs. cbv beta in Hs.
  destruct (new_actor w KeyboardPlayer 0 0 5) as [p v] eqn:E.
  cbv beta iota zeta in Hs.
  unfold new_actor in E. injection E as <- <-.
  set (r := next_ref w) in *.
  set (v := mkWorld _ _ _ _ _ _ _ _ _ _ _ _ _) in Hs.
  set (o := mkActor KeyboardPlayer 0 0 5 0 0 0 false None).
  (* the player *)
  assert (is_in_bounds w (_x o) (_y o) = true) as Hin0
    by (apply Hin; [cbn; lia..| apply Hlo | apply Hlo]).
  destruct (laid_out_add w (set_player_field v (Some r)) o Hlo
              eq_refl eq_refl eq_refl eq_refl eq_refl eq_refl
              (Hfree 0 0) (or_introl Hin0))
    as (Hlo0 & Hact0 & Hobj0 & Hn0 & Hc0).
  fold r in Hlo0, Hact0, Hobj0, Hn0, Hc0.
  change (add_actor (set_player_field v (Some r)) r)
    with (set_player v r) in Hlo0, Hact0, Hobj0, Hn0, Hc0.
  assert (_player (set_player v r) = Some r) as Hp0
    by (unfold set_player; by rewrite player_add_actor).
  assert (forall x y, (0, 0) ≠ (x, y) ->
            get_actor (set_player v r) x y = None) as Hfree0.
  { intros x y Hne.
    by apply (free_after_add w _ o x y (proj1 Hlo) Hact0 Hobj0 (Hfree x y)). }
  rewrite (proj1 Hcl) in Hact0. cbn [app] in Hact0.
  assert (obj (set_player v r) r = o) as Hor
    by (by rewrite Hobj0, decide_True).
  assert (next_ref (set_player v r) = S r) as Hn0' by exact Hn0.
  set (w0 := set_player v r) in *. clearbody w0. clear v.
  (* the three patrols *)
  destruct (add_new_built w0 Monster 7 4 5 Hlo0) as (Hlo1 & Hg1 & Hc1 & Hfree1);
    [by apply Hfree0 | left; apply Hin; [lia..| apply Hlo0 | apply Hlo0] |].
  set (w1 := add_new w0 Monster 7 4 5) in *.
  destruct (add_new_built w1 Monster 4 10 3 Hlo1) as (Hlo2 & Hg2 & Hc2 & Hfree2);
    [by apply Hfree1; [apply Hfree0|]
    | left; apply Hin; [lia..| apply Hlo1 | apply Hlo1] |].
  set (w2 := add_new w1 Monster 4 10 3) in *.
  destruct (add_new_built w2 Monster 5 20 2 Hlo2) as (Hlo3 & Hg3 & Hc3 & _);
    [by apply Hfree2; [apply Hfree1; [apply Hfree0|]|] | by right |].
  set (w3 := add_new w2 Monster 5 20 2) in *.
  pose proof (grown_trans _ _ _ (grown_trans _ _ _ Hg1 Hg2) Hg3) as Hg03.
  assert (forall k, k ≠ Monster ->
            count_kind w3 k = count_kind w0 k) as Hk3.
  { intros k Hk. rewrite Hc3, Hc2, Hc1. rewrite !decide_False by done. lia. }
  assert (count_kind w3 Monster = 3%nat) as Hm3.
  { rewrite Hc3, Hc2, Hc1, Hc0, Hc. subst o. cbn [kind].
    repeat case_decide; done. }
  clearbody w3. clear Hc1 Hc2 Hc3 Hfree1 Hfree2 Hlo1 Hlo2 Hg1 Hg2 Hg3.
  clearbody w2 w1. clear w1 w2.
  (* the random placements *)
  apply bind_Ok in Hs as ([n4 w4] & E4 & Hs).
  apply bind_Ok in Hs as (w5 & E5 & Hs).
  apply bind_Ok in Hs as ([n6 w6] & E6 & Hs).
  apply bind_Ok in Hs as (w7 & E7 & Hs).
  apply bind_Ok in Hs as ([b8 w8] & E8 & Hs).
  apply bind_Ok in Hs as (w9 & E9 & Hs).
  apply bind_Ok in Hs as (w10 & E10 & Hs).
  apply bind_Ok in Hs as (w11 & E11 & Hs).
  apply randint_same in E4 as [_ ->].
  destruct (draw_built w3 Hlo3) as (Hlo4 & Hg4 & Hc4 & _).
  destruct (place_times_built _ _ _ _ _ Hlo4 E5) as (Hlo5 & Hg5 & Hc5 & _).
  apply randint_same in E6 as [_ ->].
  destruct (draw_built w5 Hlo5) as (Hlo6 & Hg6 & Hc6 & _).
  destruct (place_times_built _ _ _ _ _ Hlo6 E7) as (Hlo7 & Hg7 & Hc7 & _).
  destruct (place_built _ _ _ _ _ Hlo7 E8) as (Hlo8 & Hg8 & Hc8).
  destruct (place_times_built _ _ _ _ _ Hlo8 E9) as (Hlo9 & Hg9 & Hc9 & _).
  destruct (place_times_built _ _ _ _ _ Hlo9 E10) as (Hlo10 & Hg10 & Hc10 & _).
  destruct (place_times_built _ _ _ _ _ Hlo10 E11) as (Hlo11 & Hg11 & Hc11 & _).
  destruct (place_boxes_built _ _ _ _ Hlo11 Hs) as (Hlo' & Hg' & Hc' & Hbox).
  assert (forall k, k ≠ FreeMonster -> k ≠ BoxMonster -> k ≠ Boss ->
            k ≠ Ripper -> k ≠ Wall -> k ≠ StickyBox ->
            count_kind w11 k = count_kind w3 k) as H11.
  { intros k ? ? ? ? ? ?.
    rewrite Hc11, Hc10, Hc9, Hc8, Hc7, Hc6, Hc5, Hc4 by done.
    rewrite decide_False by congruence. destruct b8; lia. }
  assert (grown w0 w') as (Hn' & Hp' & Hobj' & l & Hl').
  { apply (grown_trans _ _ _ Hg03), (grown_trans _ _ _ Hg4),
      (grown_trans _ _ _ Hg5), (grown_trans _ _ _ Hg6),
      (grown_trans _ _ _ Hg7), (grown_trans _ _ _ Hg8),
      (grown_trans _ _ _ Hg9), (grown_trans _ _ _ Hg10),
      (grown_trans _ _ _ Hg11), Hg'. }
  split; [done|]. split.
  - specialize (Hbox ltac:(lia)).
    rewrite !Hc' by done. rewrite !H11 in * by done.
    rewrite Hm3. rewrite !Hk3 in * by done. rewrite !Hc0, !Hc in *.
    subst o. cbn [kind] in *. repeat case_decide; try done. lia.
  - split; [congruence|]. split; [by rewrite Hl', Hact0|].
    unfold kind_of, get_position. rewrite Hobj' by lia. by rewrite Hor.
Qed.

(** X14. On a cleared 20 x 20 stage, whatever the random draws, a run
    of [setup] that returns leaves no two listed entities on the same
    cell, and lists no entity twice. *)
Theorem setup_one_entity_per_cell fuel w w' :
  cleared w -> setup fuel w = Ok w' ->
  single_occupancy w' /\ NoDup (_actors w').
Proof.
  intros Hcl Hs.
  destruct (setup_built fuel w w' Hcl Hs) as ((_ & Hnd & Hso & _) & _).
  by split.
Qed.

Lemma setup_one_entity_per_cell_witness :
  exists w',
    setup 200 (ww no_keys sample_rand) = Ok w' /\
    single_occupancy w' /\ NoDup (_actors w').
Proof.
  destruct (returns_Ok (setup 200 (ww no_keys sample_rand))) as [w' E];
    [vm_compute; reflexivity|].
  exists w'. split; [exact E|].
  apply (setup_one_entity_per_cell 200 (ww no_keys sample_rand) w');
    [repeat split | exact E].
Defined.

(** X15. After [setup] on a cleared stage, [_monsters] lists exactly
    the hostile members of [_actors], in the same order: the state that
    [Stage.clear] alone does not restore is rebuilt exactly when both
    lists were emptied first. *)
Theorem setup_hostile_list_exact fuel w w' :
  cleared w -> setup fuel w = Ok w' -> hostile_subset_exact w'.
Proof.
  intros Hcl Hs.
  by destruct (setup_built fuel w w' Hcl Hs) as ((_ & _ & _ & Hhs & _) & _).
Qed.

Lemma setup_hostile_list_exact_witness :
  exists w',
    setup 200 (main_restart_clear (ww no_keys sample_rand)) = Ok w' /\
    hostile_subset_exact w'.
Proof.
  destruct (returns_Ok
              (setup 200 (main_restart_clear (ww no_keys sample_rand))))
    as [w' E]; [vm_compute; reflexivity|].
  exists w'. split; [exact E|].
  apply (setup_hostile_list_exact 200
           (main_restart_clear (ww no_keys sample_rand)) w');
    [repeat split | exact E].
Defined.

(** X16. After [setup] on a cleared stage every listed entity stands
    inside the 20 x 20 board, with one kind of exception: a patrol at
    (5, 20).  The cells drawn at random are always on the board. *)
Theorem setup_all_but_one_on_board fuel w w' :
  cleared w -> setup fuel w = Ok w' ->
  _width w' = 20 /\ _height w' = 20 /\ on_board_but_one w'.
Proof.
  intros Hcl Hs.
  destruct (setup_built fuel w w' Hcl Hs)
    as ((_ & _ & _ & _ & Hob & Hw & Hh) & _).
  done.
Qed.

Lemma setup_all_but_one_on_board_witness :
  exists w',
    setup 200 (ww no_keys sample_rand) = Ok w' /\
    _width w' = 20 /\ _height w' = 20 /\ on_board_but_one w'.
Proof.
  destruct (returns_Ok (setup 200 (ww no_keys sample_rand))) as [w' E];
    [vm_compute; reflexivity|].
  exists w'. split; [exact E|].
  apply (setup_all_but_one_on_board 200 (ww no_keys sample_rand) w');
    [repeat split | exact E].
Defined.

(** X17. After [setup] on a cleared stage the list holds exactly one
    player, exactly three patrols and exactly one hundred plain boxes:
    the box loop counts the boxes it placed, not the draws, and the
    three fixed patrol cells are distinct and free. *)
Theorem setup_census fuel w w' :
  cleared w -> setup fuel w = Ok w' ->
  count_kind w' KeyboardPlayer = 1%nat /\
  count_kind w' Monster = 3%nat /\
  count_kind w' Box = 100%nat.
Proof.
  intros Hcl Hs.
  by destruct (setup_built fuel w w' Hcl Hs) as (_ & Hc & _).
Qed.

Lemma setup_census_witness :
  exists w',
    setup 200 (ww no_keys sample_rand) = Ok w' /\
    count_kind w' KeyboardPlayer = 1%nat /\
    count_kind w' Monster = 3%nat /\
    count_kind w' Box = 100%nat.
Proof.
  destruct (returns_Ok (setup 200 (ww no_keys sample_rand))) as [w' E];
    [vm_compute; reflexivity|].
  exists w'. split; [exact E|].
  apply (setup_census 200 (ww no_keys sample_rand) w');
    [repeat split | exact E].
Defined.

(** X18. After [setup] on a cleared stage the stage's player is the
    object [setup] created first: a [KeyboardPlayer] at (0, 0), first
    in [_actors].  After a restart this is the new object, not the
    player of the game before. *)
Theorem setup_player_first fuel w w' :
  cleared w -> setup fuel w = Ok w' ->
  _player w' = Some (next_ref w) /\
  head (_actors w') = Some (next_ref w) /\
  kind_of w' (next_ref w) = KeyboardPlayer /\
  get_position w' (next_ref w) = (0, 0).
Proof.
  intros Hcl Hs.
  by destruct (setup_built fuel w w' Hcl Hs) as (_ & _ & Hp).
Qed.

Lemma setup_player_first_witness :
  exists w',
    setup 200 (ww no_keys sample_rand) = Ok w' /\
    _player w' = Some 0%nat /\
    head (_actors w') = Some 0%nat /\
    kind_of w' 0%nat = KeyboardPlayer /\
    get_position w' 0%nat = (0, 0).
Proof.
  destruct (returns_Ok (setup 200 (ww no_keys sample_rand))) as [w' E];
    [vm_compute; reflexivity|].
  exists w'. split; [exact E|].
  apply (setup_player_first 200 (ww no_keys sample_rand) w');
    [repeat split | exact E].
Defined.

(** ** Nobody leaves the board *)

Lemma is_in_bounds_dims w w' x y :
  _width w' = _width w -> _height w' = _height w ->
  is_in_bounds w' x y = is_in_bounds w x y.
Proof.
  intros Hw Hh. unfold is_in_bounds, is_in_bounds_x, is_in_bounds_y.
  by rewrite Hw, Hh.
Qed.

Lemma stays_on_board_refl w : stays_on_board w w.
Proof. by split. Qed.

Lemma stays_on_board_trans w1 w2 w3 :
  stays_on_board w1 w2 -> stays_on_board w2 w3 -> stays_on_board w1 w3.
Proof.
  intros (Hw1 & Hh1 & H1) (Hw2 & Hh2 & H2).
  split; [congruence|]. split; [congruence|]. intros a Ha. by apply H2, H1.
Qed.

Lemma stays_on_board_same_pos w w' :
  _width w' = _width w -> _height w' = _height w ->
  (forall a, get_position w' a = get_position w a) ->
  stays_on_board w w'.
Proof.
  intros Hw Hh Hp. split; [done|]. split; [done|]. intros a.
  unfold on_board. specialize (Hp a). unfold get_position in Hp.
  injection Hp as -> ->. by rewrite (is_in_bounds_dims w w').
Qed.

Lemma stays_on_board_same_objs w w' :
  _width w' = _width w -> _height w' = _height w -> objs w' = objs w ->
  stays_on_board w w'.
Proof.
  intros Hw Hh Ho. apply stays_on_board_same_pos; [done..|].
  intros a. unfold get_position, obj. by rewrite Ho.
Qed.

(** Moving an entity to a cell that passed the bounds check. *)
Lemma stays_on_board_relocate w self x y :
  is_in_bounds w x y = true -> stays_on_board w (set_position w self x y).
Proof.
  intros Hin. split; [done|]. split; [done|]. intros a Ha.
  unfold on_board.
  pose proof (get_position_set_position w self x y a) as Hp.
  unfold get_position in Hp at 1.
  destruct (decide (self = a)); injection Hp as -> ->;
    by rewrite (is_in_bounds_dims w).
Qed.

(** The [Actor.move] that ends a push: the cell was checked before the
    push, and the push has not displaced the pusher. *)
Lemma stays_on_board_step_in w self dx dy w1 :
  stays_on_board w w1 ->
  ((dx, dy) ≠ (0, 0) -> get_position w1 self = get_position w self) ->
  is_in_bounds w (_x (obj w self) + dx) (_y (obj w self) + dy) = true ->
  stays_on_board w
    (set_position w1 self (_x (obj w1 self) + dx) (_y (obj w1 self) + dy)).
Proof.
  intros Hb Hself Hin. apply (stays_on_board_trans _ w1); [done|].
  destruct (decide ((dx, dy) = (0, 0))) as [[= -> ->]|Hd].
  - apply stays_on_board_same_pos; [done..|].
    intros a. rewrite get_position_set_position.
    destruct (decide (self = a)) as [<-|]; [|done].
    unfold get_position. f_equal; lia.
  - specialize (Hself Hd). injection Hself as -> ->.
    apply stays_on_board_relocate.
    destruct Hb as (Hw & Hh & _). by rewrite (is_in_bounds_dims w w1).
Qed.

Lemma remove_actor_dims w a w' :
  remove_actor w a = Ok w' ->
  _width w' = _width w /\ _height w' = _height w.
Proof.
  unfold remove_actor.
  destruct (isinstance (kind_of w a) Monster).
  - destruct (list_remove a (_monsters w)) as [ms|]; [|done].
    cbn [_actors set_monsters].
    destruct (list_remove a (_actors w)) as [l|]; [|done].
    by intros [= <-].
  - destruct (list_remove a (_actors w)) as [l|]; [|done].
    by intros [= <-].
Qed.

Lemma stays_on_board_remove_actor w a w' :
  remove_actor w a = Ok w' -> stays_on_board w w'.
Proof.
  intros Hrem. destruct (remove_actor_dims _ _ _ Hrem) as [Hw Hh].
  apply remove_actor_Ok in Hrem as [_ Ho].
  by apply stays_on_board_same_objs.
Qed.

Lemma for_actors_remove_if_sticky_dims fuel : forall i w w',
  for_actors remove_if_sticky fuel i w = Ok w' ->
  _width w' = _width w /\ _height w' = _height w.
Proof.
  induction fuel as [|fuel IH]; intros i w w'; [done|].
  cbn [for_actors].
  destruct (_actors w !! i) as [a|]; [|by intros [= <-]].
  destruct (remove_if_sticky w a) as [w1| |] eqn:Hbody;
    cbn [mbind result_bind]; [|done..].
  intros Hloop. apply IH in Hloop as [Hw Hh].
  assert (_width w1 = _width w /\ _height w1 = _height w) as [Hw1 Hh1].
  { unfold remove_if_sticky in Hbody.
    destruct (isinstance (kind_of w a) StickyBox).
    - by apply remove_actor_dims in Hbody.
    - by injection Hbody as <-. }
  split; congruence.
Qed.

Lemma KeyboardPlayer_move_on_board call_move w self other dx dy r w' :
  move_keeps call_move -> move_on_board call_move ->
  kind_of w self = KeyboardPlayer ->
  single_occupancy w ->
  KeyboardPlayer_move call_move w self other dx dy = Ok (r, w') ->
  stays_on_board w w'.
Proof.
  intros IH IHb Hk Hw. unfold KeyboardPlayer_move, Actor_move.
  assert (is_pusher (kind_of w self) = true) as Hp by (by rewrite Hk).
  destruct (is_in_bounds w _ _) eqn:Hin;
    [|intros [= _ <-]; apply stays_on_board_refl].
  destruct (get_actor w _ _) as [occupant|] eqn:Hocc;
    [|intros [= _ <-]; by apply stays_on_board_relocate].
  destruct (isinstance (kind_of w occupant) Wall) eqn:Hwall; cbn [negb].
  - cbn [mbind result_bind]. rewrite Hocc.
    destruct (isinstance (kind_of w occupant) Monster); intros [= _ <-].
    + apply stays_on_board_same_pos; [done..|].
      intros a. apply get_position_set_dead.
    + apply stays_on_board_refl.
  - destruct (call_move w occupant self dx dy) as [[r1 w1]| |] eqn:Hnested;
      [|done..].
    cbn [mbind result_bind].
    destruct (delegated_push _ _ _ _ _ _ _ _ IH Hp Hw Hocc Hwall Hnested)
      as (Hw1 & Hl1 & Hself & Hrest).
    pose proof (IHb _ _ _ _ _ _ _ Hw
                  (program_call_push _ _ _ dx dy Hp Hwall) Hnested) as Hb1.
    destruct (get_actor w1 _ _) as [a|] eqn:Hocc1; cbn [mbind result_bind].
    + rewrite Hocc1.
      destruct (isinstance (kind_of w1 a) Monster); intros [= _ <-]; [|done].
      apply (stays_on_board_trans _ w1); [done|].
      apply stays_on_board_same_pos; [done..|].
      intros b. apply get_position_set_dead.
    + intros [= _ <-]. by apply (stays_on_board_step_in w).
Qed.

Lemma Box_move_on_board call_move w self other dx dy r w' :
  move_keeps call_move -> move_on_board call_move ->
  isinstance (kind_of w self) Box = true ->
  single_occupancy w ->
  Box_move call_move w self other dx dy = Ok (r, w') ->
  stays_on_board w w'.
Proof.
  intros IH IHb Hk Hw. unfold Box_move, Actor_move.
  assert (is_pusher (kind_of w self) = true) as Hp.
  { unfold is_pusher. rewrite Hk. apply orb_true_r. }
  destruct (is_in_bounds w _ _) eqn:Hin;
    [|intros [= _ <-]; apply stays_on_board_refl].
  destruct (get_actor w _ _) as [occupant|] eqn:Hocc;
    [|intros [= _ <-]; by apply stays_on_board_relocate].
  destruct (isinstance (kind_of w occupant) Wall) eqn:Hwall; cbn [negb];
    [intros [= _ <-]; apply stays_on_board_refl|].
  destruct (call_move w occupant self dx dy) as [[r1 w1]| |] eqn:Hnested;
    [|done..].
  cbn [mbind result_bind].
  destruct (delegated_push _ _ _ _ _ _ _ _ IH Hp Hw Hocc Hwall Hnested)
    as (Hw1 & Hl1 & Hself & Hrest).
  pose proof (IHb _ _ _ _ _ _ _ Hw
                (program_call_push _ _ _ dx dy Hp Hwall) Hnested) as Hb1.
  destruct (get_actor w1 _ _) as [a|] eqn:Hocc1; intros [= _ <-]; [done|].
  cbn [snd]. by apply (stays_on_board_step_in w).
Qed.

Lemma Monster_move_on_board w self other dx dy r w' :
  (other = self -> dx = _dx (obj w self) /\ dy = _dy (obj w self)) ->
  Monster_move w self other dx dy = Ok (r, w') ->
  stays_on_board w w'.
Proof.
  intros Hargs. unfold Monster_move.
  destruct (decide (other = self)) as [->|Hne];
    [|rewrite bool_decide_eq_false_2 by done; intros [= _ <-];
      apply stays_on_board_refl].
  destruct (Hargs eq_refl) as [-> ->].
  rewrite bool_decide_eq_true_2 by done. cbn [negb].
  assert (forall w0 d, stays_on_board w w0 ->
            stays_on_board w (set_dx w0 self d)) as Hdx.
  { intros w0 d H0. apply (stays_on_board_trans _ w0); [done|].
    apply stays_on_board_same_pos; [done..|].
    intros a. apply get_position_set_dx. }
  assert (forall w0 d, stays_on_board w w0 ->
            stays_on_board w (set_dy w0 self d)) as Hdy.
  { intros w0 d H0. apply (stays_on_board_trans _ w0); [done|].
    apply stays_on_board_same_pos; [done..|].
    intros a. apply get_position_set_dy. }
  assert (forall w0 a, stays_on_board w w0 ->
            stays_on_board w (set_dead w0 a true)) as Hdead.
  { intros w0 a H0. apply (stays_on_board_trans _ w0); [done|].
    apply stays_on_board_same_pos; [done..|].
    intros b. apply get_position_set_dead. }
  pose proof (stays_on_board_refl w) as H0.
  destruct (is_in_bounds_x w _) eqn:Hbx; cbn [negb];
    (match goal with
     | |- context [is_in_bounds_y ?w0 ?y] =>
         destruct (is_in_bounds_y w0 y) eqn:Hby
     end); cbn [negb];
    (destruct (get_actor w _ _) as [a|] eqn:Hocc;
     [match goal with
      | |- context [isinstance ?k KeyboardPlayer] =>
          destruct (isinstance k KeyboardPlayer)
      end; cbn [negb]; intros [= _ <-];
      repeat first [apply Hdead | apply Hdy | apply Hdx]; exact H0
     |]);
    intros [= _ <-];
    repeat first [apply Hdy | apply Hdx]; try exact H0.
  apply stays_on_board_relocate. unfold is_in_bounds. by rewrite Hbx, Hby.
Qed.

Lemma FreeMonster_move_on_board call_step w self other dx dy r w' :
  step_on_board call_step ->
  single_occupancy w ->
  FreeMonster_move call_step w self other dx dy = Ok (r, w') ->
  stays_on_board w w'.
Proof.
  intros IH Hw. unfold FreeMonster_move, Actor_move.
  destruct (bool_decide (other = self)); cbn [negb];
    [|intros [= _ <-]; apply stays_on_board_refl].
  destruct (is_in_bounds w _ _) eqn:Hin; cbn [negb].
  - destruct (get_actor w _ _) as [a|] eqn:Hocc.
    + destruct (isinstance (kind_of w a) KeyboardPlayer); cbn [negb].
      * intros [= _ <-]. apply stays_on_board_same_pos; [done..|].
        intros b. apply get_position_set_dead.
      * destruct (call_step w self) as [[r1 w1]| |] eqn:Hcall; [|done..].
        cbn [mbind result_bind]. intros [= _ <-].
        by apply (IH _ _ _ _ Hw Hcall).
    + intros [= _ <-]. by apply stays_on_board_relocate.
  - destruct (call_step w self) as [[r1 w1]| |] eqn:Hcall; [|done..].
    cbn [mbind result_bind]. intros [= _ <-].
    by apply (IH _ _ _ _ Hw Hcall).
Qed.

Lemma Ripper_move_on_board call_step w self other dx dy r w' :
  step_on_board call_step ->
  single_occupancy w ->
  Ripper_move call_step w self other dx dy = Ok (r, w') ->
  stays_on_board w w'.
Proof. apply FreeMonster_move_on_board. Qed.

Lemma Monster_step_on_board call_move w self r w' :
  move_on_board call_move ->
  kind_of w self = Monster ->
  single_occupancy w ->
  Monster_step call_move w self = Ok (r, w') ->
  stays_on_board w w'.
Proof.
  intros IH Hk Hw. unfold Monster_step.
  destruct (negb (Monster_is_dead w self) && negb (Monster_is_stuck w self)).
  - destruct (delay w self) as [[wrapped w1]| |] eqn:Hd; [|done..].
    cbn [mbind result_bind]. apply delay_Ok in Hd. subst w1.
    set (w1 := set_delay_count w self _).
    assert (single_occupancy w1 /\ stays_on_board w w1) as [Hw1 Hb1].
    { split; [by apply single_occupancy_set_delay_count|].
      apply stays_on_board_same_pos; [done..|].
      intros a. apply get_position_set_delay_count. }
    destruct wrapped; cbn [negb]; [|by intros [= _ <-]].
    destruct (call_move w1 self self _ _) as [[r2 w2]| |] eqn:Hcall; [|done..].
    cbn [mbind result_bind]. intros [= _ <-].
    assert (kind_of w1 self = Monster) as Hk1
      by (unfold w1; by rewrite kind_of_set_delay_count).
    assert (program_call w1 self self (_dx (obj w1 self)) (_dy (obj w1 self)))
      as Hpc.
    { split; [by rewrite Hk1 | done]. }
    apply (stays_on_board_trans _ w1); [done|].
    apply (IH _ _ _ _ _ _ _ Hw1 Hpc Hcall).
  - destruct (Monster_is_stuck w self && negb (Monster_is_dead w self)).
    + intros [= _ <-]. apply stays_on_board_refl.
    + destruct (remove_actor w self) as [w1| |] eqn:Hrem; [|done..].
      cbn [mbind result_bind]. intros [= _ <-].
      by eapply stays_on_board_remove_actor.
Qed.

Lemma wander_on_board call_move w self (v : option bool) r w' :
  move_on_board call_move ->
  isinstance (kind_of w self) FreeMonster = true ->
  single_occupancy w ->
  (delay w self ≫= fun '(wrapped, w1) =>
     if negb wrapped then Ok (None, w1)
     else
       let '(dx, w2) := random_choice w1 in
       let '(dy, w3) := random_choice w2 in
       call_move w3 self self dx dy ≫= fun '(_, w4) => Ok (v, w4))
  = Ok (r, w') ->
  stays_on_board w w'.
Proof.
  intros IH Hk Hw.
  destruct (delay w self) as [[wrapped w1]| |] eqn:Hd; [|done..].
  cbn [mbind result_bind]. apply delay_Ok in Hd. subst w1.
  set (w1 := set_delay_count w self _).
  assert (single_occupancy w1 /\ stays_on_board w w1) as [Hw1 Hb1].
  { split; [by apply single_occupancy_set_delay_count|].
    apply stays_on_board_same_pos; [done..|].
    intros a. apply get_position_set_delay_count. }
  assert (kind_of w1 self = kind_of w self) as Hk1
    by (unfold w1; by rewrite kind_of_set_delay_count).
  destruct wrapped; cbn [negb]; [|by intros [= _ <-]].
  unfold random_choice. cbn [draw].
  set (w3 := mkWorld _ _ _ _ _ _ _ _ _ _ _ _ _).
  assert (single_occupancy w3 /\ stays_on_board w1 w3 /\
          kind_of w3 self = kind_of w1 self) as (Hw3 & Hb3 & Hk3).
  { split; [|split].
    - by apply (single_occupancy_kept w1).
    - by apply stays_on_board_same_objs.
    - done. }
  match goal with
  | |- context [call_move w3 self self ?x ?y] => set (dx := x); set (dy := y)
  end.
  destruct (call_move w3 self self dx dy) as [[r4 w4]| |] eqn:Hcall; [|done..].
  cbn [mbind result_bind]. intros [= _ <-].
  rewrite <- Hk1, <- Hk3 in Hk.
  destruct (isinstance_FreeMonster _ Hk) as (Hnw & Hnm & Hnp).
  assert (program_call w3 self self dx dy) as Hpc.
  { by split. }
  apply (stays_on_board_trans _ w1); [done|].
  apply (stays_on_board_trans _ w3); [done|].
  apply (IH _ _ _ _ _ _ _ Hw3 Hpc Hcall).
Qed.

Lemma FreeMonster_step_on_board call_move w self r w' :
  move_on_board call_move ->
  isinstance (kind_of w self) FreeMonster = true ->
  single_occupancy w ->
  FreeMonster_step call_move w self = Ok (r, w') ->
  stays_on_board w w'.
Proof.
  intros IH Hk Hw. unfold FreeMonster_step.
  destruct (negb (Monster_is_dead w self) && negb (Monster_is_stuck w self)).
  - by apply wander_on_board.
  - destruct (Monster_is_stuck w self && negb (Monster_is_dead w self)).
    + intros [= _ <-]. apply stays_on_board_refl.
    + destruct (remove_actor w self) as [w1| |] eqn:Hrem; [|done..].
      cbn [mbind result_bind]. intros [= _ <-].
      by eapply stays_on_board_remove_actor.
Qed.

Lemma Ripper_step_on_board call_move w self r w' :
  move_on_board call_move ->
  isinstance (kind_of w self) FreeMonster = true ->
  single_occupancy w ->
  Ripper_step call_move w self = Ok (r, w') ->
  stays_on_board w w'.
Proof.
  intros IH Hk Hw. unfold Ripper_step.
  destruct (negb (Monster_is_dead w self) && negb (Monster_is_stuck w self)).
  - by apply wander_on_board.
  - destruct (Monster_is_stuck w self && negb (Monster_is_dead w self)).
    + intros [= _ <-]. apply stays_on_board_refl.
    + destruct (remove_actor w self) as [w1| |] eqn:Hrem; [|done..].
      cbn [mbind result_bind].
      destruct (for_actors _ _ _ w1) as [w2| |] eqn:Hloop; [|done..].
      cbn [mbind result_bind]. intros [= _ <-].
      apply (stays_on_board_trans _ w1);
        [by eapply stays_on_board_remove_actor|].
      destruct (for_actors_remove_if_sticky_dims _ _ _ _ Hloop) as [Hw2 Hh2].
      apply for_actors_remove_if_sticky_Ok in Hloop as [_ Ho].
      by apply stays_on_board_same_objs.
Qed.

Lemma KeyboardPlayer_step_on_board call_move w self r w' :
  move_on_board call_move ->
  kind_of w self = KeyboardPlayer ->
  single_occupancy w ->
  KeyboardPlayer_step call_move w self = Ok (r, w') ->
  stays_on_board w w'.
Proof.
  intros IH Hk Hw. unfold KeyboardPlayer_step.
  destruct (_last_event (obj w self)) as [k|];
    [|intros [= _ <-]; apply stays_on_board_refl].
  match goal with
  | |- context [call_move ?w4 self self] => set (w0 := w4)
  end.
  assert (single_occupancy w0 /\ kind_of w0 self = KeyboardPlayer /\
          stays_on_board w w0) as (Hw0 & Hk0 & Hb0).
  { subst w0. repeat destruct (decide _); by repeat split. }
  assert (forall w5, stays_on_board w w5 ->
            stays_on_board w (set_last_event w5 self None)) as Hev.
  { intros w5 H5. apply (stays_on_board_trans _ w5); [done|].
    apply stays_on_board_same_pos; [done..|].
    intros a. unfold get_position, set_last_event. rewrite obj_set_obj.
    by destruct (decide (self = a)) as [<-|]. }
  destruct (intent k (keys w)) as [[dx dy]|] eqn:Hi.
  - destruct (call_move w0 self self dx dy) as [[r1 w1]| |] eqn:Hcall; [|done..].
    cbn [mbind result_bind]. intros [= _ <-]. apply Hev.
    assert (program_call w0 self self dx dy) as Hpc
      by (split; by rewrite Hk0).
    apply (stays_on_board_trans _ w0); [done|].
    apply (IH _ _ _ _ _ _ _ Hw0 Hpc Hcall).
  - cbn [mbind result_bind]. intros [= _ <-]. by apply Hev.
Qed.

Lemma move_step_on_board fuel :
  move_on_board (move fuel) /\ step_on_board (step fuel).
Proof.
  induction fuel as [|n [IHm IHs]]; [by split|].
  destruct (move_step_keep n) as [Km Ks]. split.
  - intros w self other dx dy r w' Hw Hcall. rewrite move_S.
    pose proof Hcall as (Hnw & Hargs).
    destruct (kind_of w self) eqn:Hk; try done.
    + by apply KeyboardPlayer_move_on_board.
    + apply Box_move_on_board; by rewrite ?Hk.
    + apply Box_move_on_board; by rewrite ?Hk.
    + apply Monster_move_on_board. by auto.
    + by apply FreeMonster_move_on_board.
    + by apply FreeMonster_move_on_board.
    + by apply FreeMonster_move_on_board.
    + by apply Ripper_move_on_board.
  - intros w self r w' Hw. rewrite step_S.
    destruct (kind_of w self) eqn:Hk.
    + by apply KeyboardPlayer_step_on_board.
    + intros [= _ <-]. apply stays_on_board_refl.
    + intros [= _ <-]. apply stays_on_board_refl.
    + intros [= _ <-]. apply stays_on_board_refl.
    + by apply Monster_step_on_board.
    + apply FreeMonster_step_on_board; [done|by rewrite Hk|done].
    + apply FreeMonster_step_on_board; [done|by rewrite Hk|done].
    + apply FreeMonster_step_on_board; [done|by rewrite Hk|done].
    + apply Ripper_step_on_board; [done|by rewrite Hk|done].
Qed.

(** X19. A move the program can make never takes an entity off the
    board: when the cells are apart, after any returning call every
    entity that stood inside the bounds still does, and the board has
    its size.  Every relocation is to a cell that passed the bounds
    check, and the push in between has not displaced the pusher. *)
Theorem program_moves_stay_on_board fuel w self other dx dy r w' :
  single_occupancy w ->
  program_call w self other dx dy ->
  move fuel w self other dx dy = Ok (r, w') ->
  _width w' = _width w /\ _height w' = _height w /\
  forall a, on_board w a -> on_board w' a.
Proof.
  intros Hw Hcall Hm.
  exact (proj1 (move_step_on_board fuel) _ _ _ _ _ _ _ Hw Hcall Hm).
Qed.

(** The player of [board_round] pushes against two boxes at the right
    edge. *)
Lemma program_moves_stay_on_board_witness :
  exists r w',
    move 3 board_round 0%nat 0%nat 1 0 = Ok (r, w') /\
    _width w' = _width board_round /\ _height w' = _height board_round /\
    forall a, on_board board_round a -> on_board w' a.
Proof.
  destruct (returns_Ok (move 3 board_round 0%nat 0%nat 1 0))
    as [[r w'] E]; [vm_compute; reflexivity|].
  exists r, w'. split; [exact E|].
  apply (program_moves_stay_on_board 3 board_round 0%nat 0%nat 1 0 r w');
    [| |exact E].
  - apply lookup_consistent_single_occupancy.
    apply (bool_decide_unpack _). vm_compute. exact I.
  - split; [vm_compute; discriminate|].
    intros Hk; vm_compute in Hk; discriminate Hk.
Defined.

(** X20. One [step] of any entity, of any class, keeps the cells apart
    and takes no entity off the board. *)
Theorem step_keeps_the_board fuel w self r w' :
  single_occupancy w ->
  step fuel w self = Ok (r, w') ->
  single_occupancy w' /\
  _width w' = _width w /\ _height w' = _height w /\
  forall a, on_board w a -> on_board w' a.
Proof.
  intros Hw Hs. split.
  - by destruct (proj2 (move_step_keep fuel) _ _ _ _ Hw Hs).
  - exact (proj2 (move_step_on_board fuel) _ _ _ _ Hw Hs).
Qed.

(** The patrol of [board_round] takes its step. *)
Lemma step_keeps_the_board_witness :
  exists r w',
    step 2 board_round 3%nat = Ok (r, w') /\
    single_occupancy w' /\
    _width w' = _width board_round /\ _height w' = _height board_round /\
    forall a, on_board board_round a -> on_board w' a.
Proof.
  destruct (returns_Ok (step 2 board_round 3%nat))
    as [[r w'] E]; [vm_compute; reflexivity|].
  exists r, w'. split; [exact E|].
  apply (step_keeps_the_board 2 board_round 3%nat r w'); [|exact E].
  apply lookup_consistent_single_occupancy.
  apply (bool_decide_unpack _). vm_compute. exact I.
Defined.

Lemma for_actors_inv (P : World -> Prop) body :
  (forall w a w', P w -> body w a = Ok w' -> P w') ->
  forall fuel i w w', P w -> for_actors body fuel i w = Ok w' -> P w'.
Proof.
  intros Hbody. induction fuel as [|fuel IH]; intros i w w' Hw; [done|].
  cbn [for_actors].
  destruct (_actors w !! i) as [a|]; [|by intros [= <-]].
  destruct (body w a) as [w1| |] eqn:Hb; cbn [mbind result_bind]; [|done..].
  apply IH. by apply (Hbody w a).
Qed.

(** X21. A round of the game, [Stage.step], keeps the cells apart and
    takes no entity off the board, whatever the entities do in their
    steps. *)
Theorem Stage_step_keeps_the_board fuel w w' :
  single_occupancy w ->
  Stage_step fuel w = Ok w' ->
  single_occupancy w' /\
  _width w' = _width w /\ _height w' = _height w /\
  forall a, on_board w a -> on_board w' a.
Proof.
  intros Hw Hs. unfold Stage_step in Hs.
  apply (for_actors_inv
           (fun v => single_occupancy v /\ stays_on_board w v))
    in Hs; [done| |by split; [|apply stays_on_board_refl]].
  intros v a v' [Hv Hb] Hbody.
  destruct (step fuel v a) as [[r v1]| |] eqn:Hstep; [|done..].
  cbn [mbind result_bind] in Hbody. injection Hbody as <-.
  split.
  - by destruct (proj2 (move_step_keep fuel) _ _ _ _ Hv Hstep).
  - apply (stays_on_board_trans _ v); [done|].
    exact (proj2 (move_step_on_board fuel) _ _ _ _ Hv Hstep).
Qed.

(** A round on [board_round]: the player pushes, the patrol and the
    wanderer move. *)
Lemma Stage_step_keeps_the_board_witness :
  exists w',
    Stage_step 4 board_round = Ok w' /\
    single_occupancy w' /\
    _width w' = _width board_round /\ _height w' = _height board_round /\
    forall a, on_board board_round a -> on_board w' a.
Proof.
  destruct (returns_Ok (Stage_step 4 board_round))
    as [w' E]; [vm_compute; reflexivity|].
  exists w'. split; [exact E|].
  apply (Stage_step_keeps_the_board 4 board_round w'); [|exact E].
  apply lookup_consistent_single_occupancy.
  apply (bool_decide_unpack _). vm_compute. exact I.
Defined.

(** ** A patrol with the way free *)

Lemma get_actor_same_positions w w' x y :
  _actors w' = _actors w ->
  (forall a, get_position w' a = get_position w a) ->
  get_actor w' x y = get_actor w x y.
Proof.
  intros Hl Hp. unfold get_actor. rewrite Hl.
  assert (forall a, at_position w' x y a = at_position w x y a) as Hat.
  { intros a. unfold at_position. specialize (Hp a).
    unfold get_position in Hp. by injection Hp as -> ->. }
  generalize (_actors w). intros l.
  induction l as [|a l IH]; [done|]. cbn [find]. by rewrite Hat, IH.
Qed.

(** X22. The step of a patrol that is neither encircled nor held, on
    the call where its counter wraps, with the cell in front of its
    heading on the board and free: the patrol moves onto exactly that
    cell and the step returns [True].  Because [Monster.step] passes the
    stored heading as the arguments of [move], the cell the patrol
    lands on is the cell that was checked. *)
Theorem patrol_free_step fuel w self :
  kind_of w self = Monster ->
  Monster_is_dead w self = false ->
  Monster_is_stuck w self = false ->
  _delay (obj w self) ≠ 0 ->
  (_delay_count (obj w self) + 1) `mod` _delay (obj w self) = 0 ->
  is_in_bounds w (_x (obj w self) + _dx (obj w self))
                 (_y (obj w self) + _dy (obj w self)) = true ->
  get_actor w (_x (obj w self) + _dx (obj w self))
              (_y (obj w self) + _dy (obj w self)) = None ->
  step (S (S fuel)) w self =
  Ok (Some true,
      set_position (set_delay_count w self 0) self
        (_x (obj w self) + _dx (obj w self))
        (_y (obj w self) + _dy (obj w self))).
Proof.
  intros Hk Hd Hs Hz Hwrap Hb Ha. rewrite step_S, Hk.
  unfold Monster_step, delay. rewrite Hd, Hs. cbn [negb andb].
  rewrite (proj2 (Z.eqb_neq _ _) Hz), Hwrap.
  cbn [mbind result_bind Z.eqb negb].
  set (w1 := set_delay_count w self 0).
  assert (obj w1 self =
          mkActor (kind (obj w self)) (_x (obj w self)) (_y (obj w self))
            (_delay (obj w self)) 0 (_dx (obj w self)) (_dy (obj w self))
            (dead (obj w self)) (_last_event (obj w self))) as Ho
    by (unfold w1, set_delay_count; by rewrite obj_set_obj_eq).
  rewrite move_Monster by (unfold w1; by rewrite kind_of_set_delay_count).
  unfold Monster_move. rewrite bool_decide_eq_true_2 by done. cbn [negb].
  rewrite Ho. cbn [_x _y _dx _dy].
  rewrite (get_actor_same_positions w w1)
    by (done || intros a; apply get_position_set_delay_count).
  unfold is_in_bounds in Hb. apply andb_true_iff in Hb as [Hbx Hby].
  change (is_in_bounds_x w1) with (is_in_bounds_x w). rewrite Hbx.
  cbn [negb]. change (is_in_bounds_y w1) with (is_in_bounds_y w).
  rewrite Hby. cbn [negb]. rewrite Ha. unfold Actor_move.
  cbn [mbind result_bind]. by rewrite Ho.
Qed.

(** The patrol of [board_round], period 1, moves from (0, 1) to
    (1, 2). *)
Lemma patrol_free_step_witness :
  step 2 board_round 3%nat =
  Ok (Some true, set_position (set_delay_count board_round 3%nat 0) 3%nat 1 2).
Proof.
  apply (patrol_free_step 0 board_round 3%nat); try reflexivity.
  vm_compute. discriminate.
Defined.

(** ** A wanderer with the way barred *)

(** X23. A wanderer (of any of the four classes) whose drawn cell is
    off the board, or is taken by anybody but the player, does not wait
    for the next round: [move] calls the wanderer's own [step] again at
    once, so the counter advances a second time within the same round,
    and the step returns what the nested step leaves.  The draw (0, 0)
    is such a case: the wanderer finds itself on the drawn cell. *)
Theorem wanderer_barred_steps_again fuel w self :
  isinstance (kind_of w self) FreeMonster = true ->
  Monster_is_dead w self = false ->
  Monster_is_stuck w self = false ->
  _delay (obj w self) ≠ 0 ->
  (_delay_count (obj w self) + 1) `mod` _delay (obj w self) = 0 ->
  let dx := rand w (rand_pos w) `mod` 3 - 1 in
  let dy := rand w (S (rand_pos w)) `mod` 3 - 1 in
  (is_in_bounds w (_x (obj w self) + dx) (_y (obj w self) + dy) = false \/
   exists a,
     get_actor w (_x (obj w self) + dx) (_y (obj w self) + dy) = Some a /\
     kind_of w a ≠ KeyboardPlayer) ->
  step (S (S fuel)) w self =
  '(_, w') ← step fuel (snd (draw (snd (draw (set_delay_count w self 0)))))
             self;
  Ok (Some true, w').
Proof.
  intros Hk Hd Hs Hz Hwrap dx dy Hbar.
  set (w1 := set_delay_count w self 0).
  set (w3 := snd (draw (snd (draw w1)))).
  assert (random_choice w1 = (dx, snd (draw w1))) as Hc1 by done.
  assert (random_choice (snd (draw w1)) = (dy, w3)) as Hc2 by done.
  assert (forall a, get_position w3 a = get_position w a) as Hpos.
  { intros a. change (get_position w3 a) with (get_position w1 a).
    apply get_position_set_delay_count. }
  assert (forall a, kind_of w3 a = kind_of w a) as Hk3.
  { intros a. change (kind_of w3 a) with (kind_of w1 a).
    apply kind_of_set_delay_count. }
  assert (move (S fuel) w3 self self dx dy =
          '(_, w') ← step fuel w3 self; Ok (true, w')) as Hmove.
  { assert (_x (obj w3 self) = _x (obj w self) /\
            _y (obj w3 self) = _y (obj w self)) as [Hx Hy].
    { pose proof (Hpos self) as Hp. unfold get_position in Hp.
      by injection Hp as -> ->. }
    rewrite move_S, Hk3.
    destruct (kind_of w self) eqn:Hkind; try discriminate Hk;
      unfold FreeMonster_move, Ripper_move;
      rewrite bool_decide_eq_true_2 by done; cbn [negb];
      rewrite Hx, Hy, (get_actor_same_positions w w3) by done;
      change (is_in_bounds w3) with (is_in_bounds w);
      (destruct Hbar as [-> | (a & -> & Ha)]; cbn [negb]; [done|]);
      (destruct (is_in_bounds w _ _); cbn [negb]; [|done]);
      rewrite Hk3;
      (destruct (isinstance (kind_of w a) KeyboardPlayer) eqn:Hka;
       [by apply isinstance_KeyboardPlayer in Hka | done]). }
  assert (step (S (S fuel)) w self =
          '(_, w4) ← move (S fuel) w3 self self dx dy; Ok (Some true, w4))
    as ->.
  { rewrite step_S.
    destruct (kind_of w self) eqn:Hkind; try discriminate Hk;
      unfold FreeMonster_step, Ripper_step, delay;
      rewrite Hd, Hs; cbn [negb andb];
      rewrite (proj2 (Z.eqb_neq _ _) Hz), Hwrap;
      cbn [mbind result_bind Z.eqb negb]; fold w1;
      rewrite Hc1, Hc2; done. }
  rewrite Hmove. by destruct (step fuel w3 self) as [[r v]| |].
Qed.

(** The nested step finds the counter at 0 and returns at once. *)
Lemma wanderer_barred_steps_again_witness :
  step 3 board_corner_wanderer 0%nat =
  '(_, w') ← step 1 (snd (draw (snd (draw
               (set_delay_count board_corner_wanderer 0%nat 0))))) 0%nat;
  Ok (Some true, w').
Proof.
  apply (wanderer_barred_steps_again 1 board_corner_wanderer 0%nat);
    try reflexivity.
  - vm_compute. discriminate.
  - left. reflexivity.
Defined.
